(** * MCP Vision Bridge: request bridging pipeline

    A shallow embedding of the TypeScript sources of the bridge
    (OpenRouter client, model manager, model router, circuit breaker,
    image processor, response transformer) together with the properties
    stated about them.

    Conventions of the embedding.
    - A JavaScript string is a [string]: a sequence of code units, each
      below 256.
    - Integer-valued JavaScript numbers (sizes, token counts, HTTP status
      codes, millisecond counts, indices) are [Z]; a number that may be
      [NaN] is a [Num].  Scores written as decimal literals are exact
      rationals [Q]; the product [maxLength * 0.7], whose rounding shows
      in a comparison, is computed as a double ([Double]).
    - An optional field [f?: T] is an [option]; the truthiness tests of
      the source ([a || b], [a && b], [if (a)]) are spelled out.
    - A function that may throw returns a sum whose left injection is the
      thrown value.
    - Mutable objects are threaded explicitly as state.
    - A [Map] is a finite map.  A plain object used as a map is the
      finite map of its own properties; where the code reads or assigns
      a property under a computed key, the properties inherited from
      [Object.prototype] are taken into account. *)

From Stdlib Require Import ZArith QArith Qminmax Bool List Ascii String Lia.
From stdpp Require Import base option list strings pretty gmap.
From stdpp Require Import sorting.
From Stdlib Require PrimFloat Uint63.

Local Open Scope Z_scope.

(** ** JavaScript primitives used by the sources *)

Module JS.

(** A JavaScript number that is either an integer or [NaN]. *)
Inductive Num := NaN | Fin (z : Z).

(** [ToBoolean] on an optional number: [undefined], [NaN] and [0] are
    falsy.  Returns the value when it is truthy. *)
Definition truthyNum (n : option Num) : option Z :=
  match n with
  | Some (Fin z) => if z =? 0 then None else Some z
  | _ => None
  end.

(** [ToBoolean] on an optional integer. *)
Definition truthyZ (n : option Z) : option Z :=
  match n with
  | Some z => if z =? 0 then None else Some z
  | None => None
  end.

(** [ToBoolean] on an optional string: [undefined] and [''] are falsy. *)
Definition truthyStr (s : option string) : option string :=
  match s with
  | Some "" => None
  | Some s => Some s
  | None => None
  end.

Definition mulNum (n : Num) (k : Z) : Num :=
  match n with NaN => NaN | Fin z => Fin (z * k) end.

Definition len (s : string) : Z := Z.of_nat (String.length s).

Definition code (c : ascii) : nat := nat_of_ascii c.

(** White space and line terminators: the class [\s] of regular
    expressions, which is also what [trim] removes. *)
Definition isWhiteSpace (c : ascii) : bool :=
  let n := code c in
  ((9 <=? n) && (n <=? 13) || (n =? 32) || (n =? 160))%nat.

Fixpoint trimStart (s : string) : string :=
  match s with
  | String c s' => if isWhiteSpace c then trimStart s' else s
  | EmptyString => EmptyString
  end.

Fixpoint trimEnd (s : string) : string :=
  match s with
  | String c s' =>
      match trimEnd s' with
      | EmptyString => if isWhiteSpace c then EmptyString else String c EmptyString
      | t => String c t
      end
  | EmptyString => EmptyString
  end.

Definition trim (s : string) : string := trimEnd (trimStart s).

Definition lowerChar (c : ascii) : ascii :=
  let n := code c in
  if ((65 <=? n) && (n <=? 90)
      || (192 <=? n) && (n <=? 222) && negb (n =? 215))%nat
  then ascii_of_nat (n + 32) else c.

Fixpoint toLowerCase (s : string) : string :=
  match s with
  | String c s' => String (lowerChar c) (toLowerCase s')
  | EmptyString => EmptyString
  end.

Fixpoint startsWith (s p : string) : bool :=
  match p, s with
  | EmptyString, _ => true
  | String a p', String b s' => if Ascii.eqb a b then startsWith s' p' else false
  | String _ _, EmptyString => false
  end.

(** [s.includes(sub)] *)
Fixpoint includes (s sub : string) : bool :=
  startsWith s sub ||
  match s with
  | String _ s' => includes s' sub
  | EmptyString => false
  end.

Fixpoint take (n : nat) (s : string) : string :=
  match n, s with
  | S n', String c s' => String c (take n' s')
  | _, _ => EmptyString
  end.

Fixpoint drop (n : nat) (s : string) : string :=
  match n, s with
  | S n', String _ s' => drop n' s'
  | _, _ => s
  end.

Definition clamp (i : Z) (s : string) : Z := Z.max 0 (Z.min i (len s)).

(** [s.substring(a, b)]: both ends are clamped to [0, s.length] and
    swapped when out of order. *)
Definition substring (s : string) (a b : Z) : string :=
  let a' := clamp a s in
  let b' := clamp b s in
  let lo := Z.min a' b' in
  let hi := Z.max a' b' in
  take (Z.to_nat (hi - lo)) (drop (Z.to_nat lo) s).

(** The scan behind [lastIndexOf]: [i] is the index of the head of [s]
    in the whole string, [found] the last occurrence seen so far. *)
Fixpoint lastIndexFrom (c : ascii) (s : string) (i : Z) (found : Z) : Z :=
  match s with
  | String d s' => lastIndexFrom c s' (i + 1) (if Ascii.eqb d c then i else found)
  | EmptyString => found
  end.

(** [s.lastIndexOf(c)] for a one-character needle; [-1] when absent. *)
Definition lastIndexOf (s : string) (c : ascii) : Z := lastIndexFrom c s 0 (-1).

(** [parts.join(sep)] *)
Fixpoint join (sep : string) (parts : list string) : string :=
  match parts with
  | [] => ""
  | [p] => p
  | p :: rest => p +:+ sep +:+ join sep rest
  end.

(** [s.split(sep)] for a one-character separator. *)
Fixpoint split (sep : ascii) (s : string) : list string :=
  match s with
  | EmptyString => [EmptyString]
  | String c s' =>
      if Ascii.eqb c sep then EmptyString :: split sep s'
      else match split sep s' with
           | p :: ps => String c p :: ps
           | [] => [String c EmptyString]
           end
  end.

Definition digitValue (radix : Z) (c : ascii) : option Z :=
  let n := Z.of_nat (code c) in
  let v := if (48 <=? n) && (n <=? 57) then Some (n - 48)
           else if (97 <=? n) && (n <=? 122) then Some (n - 87)
           else if (65 <=? n) && (n <=? 90) then Some (n - 55)
           else None in
  match v with
  | Some d => if d <? radix then Some d else None
  | None => None
  end.

(** Longest prefix of digits, read in the given radix. *)
Fixpoint digits (radix : Z) (s : string) (acc : option Z) : option Z :=
  match s with
  | String c s' =>
      match digitValue radix c with
      | Some d => digits radix s' (Some (default 0 acc * radix + d))
      | None => acc
      end
  | EmptyString => acc
  end.

(** [parseInt(s)] without a radix argument. *)
Definition parseInt (s : string) : Num :=
  let s := trimStart s in
  let '(sign, s) :=
    match s with
    | String "-" s' => (-1, s')
    | String "+" s' => (1, s')
    | _ => (1, s)
    end in
  let '(radix, s) :=
    if startsWith s "0x" || startsWith s "0X" then (16, drop 2 s) else (10, s) in
  match digits radix s None with
  | Some v => Fin (sign * v)
  | None => NaN
  end.

(** Template-literal rendering of an integer. *)
Definition showZ (z : Z) : string := pretty z.

(** Template-literal rendering of an optional string. *)
Definition showOpt (s : option string) : string := default "undefined" s.

(** The scan behind [indexOf]: [i] is the index of the head of [s] in
    the whole string. *)
Fixpoint indexOfFrom (c : ascii) (s : string) (i : Z) : Z :=
  match s with
  | String d s' => if Ascii.eqb d c then i else indexOfFrom c s' (i + 1)
  | EmptyString => -1
  end.

(** [s.indexOf(c)] for a one-character needle; [-1] when absent. *)
Definition indexOf (s : string) (c : ascii) : Z := indexOfFrom c s 0.

(** [Math.ceil(n * 0.75)] for an integer [n] *)
Definition ceilThreeQuarters (n : Z) : Z := (3 * n + 3) / 4.

End JS.

(** ** Doubles

    A JavaScript number is an IEEE 754 double.  One product of the
    sources has its rounding show in a comparison: [maxLength * 0.7] in
    [truncateResponse].  It is written out here on integers: a double is
    an integer mantissa of at most 53 bits times a power of two, and a
    product is the exact product rounded to 53 significant bits, to
    nearest, ties to the even mantissa. *)

Module Double.

(** The literal [0.7] denotes the double nearest to seven tenths:
    [6305039478318694 * 2^-53] (0x1.6666666666666p-1), a little less
    than 7/10. *)
Definition sevenTenths : Z := 6305039478318694.

(** A positive integer rounded to 53 significant bits: the result is
    [mantissa * 2^exponent]. *)
Definition round53 (m : Z) : Z * Z :=
  let excess := Z.log2 m - 52 in
  if excess <=? 0 then (m, 0)
  else
    let kept := Z.shiftr m excess in
    let rest := Z.land m (Z.ones excess) in
    let half := Z.shiftl 1 (excess - 1) in
    if (half <? rest) || ((rest =? half) && Z.odd kept)
    then (kept + 1, excess)
    else (kept, excess).

(** [n * 0.7] for an integer [n], in units of [2^-53].  An integer is a
    double when its absolute value is at most [2^53]; the product then
    neither overflows nor falls below the normal range. *)
Definition timesSevenTenths (n : Z) : Z :=
  let '(mantissa, exponent) := round53 (Z.abs n * sevenTenths) in
  Z.sgn n * Z.shiftl mantissa exponent.

(** [k > n * 0.7] for integers [k] and [n] *)
Definition exceedsSevenTenths (k n : Z) : bool :=
  timesSevenTenths n <? k * 2 ^ 53.

(** The same comparison on the doubles of the machine, [0.7] being
    given as the quotient of 7 by 10, which rounds to the same double. *)
Definition ofZ (z : Z) : PrimFloat.float :=
  if z <? 0 then PrimFloat.opp (PrimFloat.of_uint63 (Uint63.of_Z (- z)))
  else PrimFloat.of_uint63 (Uint63.of_Z z).

Definition machineExceedsSevenTenths (k n : Z) : bool :=
  PrimFloat.ltb (PrimFloat.mul (ofZ n) (PrimFloat.div (ofZ 7) (ofZ 10))) (ofZ k).

(** The integers from [first] on, [count] of them. *)
Definition range (first : Z) (count : nat) : list Z :=
  map (λ i, first + Z.of_nat i) (seq 0 count).

End Double.

(** A value thrown by [throw]: either a plain object shaped like the
    [VisionBridgeError] interface, or an instance of [Error]. *)
Record VisionBridgeError := {
  code : string;
  message : string;
  retryable : bool;
  retryAfter : option JS.Num
}.

Inductive Thrown :=
| ThrownObject (e : VisionBridgeError)
| ThrownError (msg : string) (hasCode : bool).

Definition thrownMessage (t : Thrown) : string :=
  match t with
  | ThrownObject e => message e
  | ThrownError msg _ => msg
  end.


(** ** Wire types ([types/index.ts]) *)

Inductive ContentPart :=
| TextPart (text : option string)
| ImagePart (url : string).

Inductive MessageContent :=
| ContentString (s : string)
| ContentArray (parts : list ContentPart)
| ContentOther.

Record Choice := {
  choiceMessage : option MessageContent;
  finish_reason : option string
}.

Record Usage := {
  prompt_tokens : Z;
  completion_tokens : Z;
  total_tokens : Z
}.

Record ChatCompletionResponse := {
  responseId : string;
  responseModel : string;
  choices : list Choice;
  usage : option Usage
}.

Record ModelSelection := {
  model : string;
  confidence : Q;
  reason : string
}.

(** ** [integrations/openrouter/client.ts]: OpenRouterClient *)

Module OpenRouterClient.

Record OpenRouterConfig := {
  apiKey : string;
  timeout : option JS.Num;
  maxRetries : option JS.Num;
  retryDelay : option JS.Num
}.

(** The constructor: [{ timeout: 30000, maxRetries: 3, retryDelay: 1000,
    ...config }]. *)
Definition new (config : OpenRouterConfig) : OpenRouterConfig :=
  {| apiKey := apiKey config;
     timeout := Some (default (JS.Fin 30000) (timeout config));
     maxRetries := Some (default (JS.Fin 3) (maxRetries config));
     retryDelay := Some (default (JS.Fin 1000) (retryDelay config)) |}.

(** What the response interceptor receives from axios when a request
    fails.  [response] is absent for transport-level failures. *)
Record AxiosResponse := {
  status : Z;
  errorMessage : option string;  (* data?.error?.message *)
  headers : gmap string string
}.

Record AxiosError := {
  errMessage : string;
  response : option AxiosResponse;
  requestModel : option string     (* config?.data?.model *)
}.

(** [handleError]; the diagnostic [details] field is not modelled. *)
Definition handleError (config : OpenRouterConfig) (error : AxiosError)
  : VisionBridgeError :=
  match response error with
  | None =>
      {| code := "NETWORK_ERROR";
         message := "Network error: " +:+ errMessage error;
         retryable := true;
         retryAfter := retryDelay config |}
  | Some response =>
      let status := status response in
      let errorData_message := JS.truthyStr (errorMessage response) in
      if status =? 400 then
        {| code := "BAD_REQUEST";
           message := default "Bad request" errorData_message;
           retryable := false;
           retryAfter := None |}
      else if status =? 401 then
        {| code := "AUTHENTICATION_ERROR";
           message := "Invalid or missing API key";
           retryable := false;
           retryAfter := None |}
      else if status =? 403 then
        {| code := "AUTHORIZATION_ERROR";
           message := "Access forbidden";
           retryable := false;
           retryAfter := None |}
      else if status =? 404 then
        {| code := "MODEL_NOT_FOUND";
           message := "Model not found: " +:+ JS.showOpt (requestModel error);
           retryable := false;
           retryAfter := None |}
      else if status =? 429 then
        let retryAfter :=
          JS.parseInt (default "60" (JS.truthyStr (headers response !! "retry-after"))) in
        {| code := "RATE_LIMITED";
           message := "Rate limit exceeded";
           retryable := true;
           retryAfter := Some (JS.mulNum retryAfter 1000) |}
      else if (status =? 500) || (status =? 502) || (status =? 503) || (status =? 504) then
        {| code := "SERVER_ERROR";
           message := default "OpenRouter server error" errorData_message;
           retryable := true;
           retryAfter := retryDelay config |}
      else
        {| code := "UNKNOWN_ERROR";
           message := default ("HTTP " +:+ JS.showZ status +:+ ": " +:+ errMessage error)
                              errorData_message;
           retryable := 500 <=? status;
           retryAfter := None |}
  end.

(** The settlement of one [axios] request before the interceptors run. *)
Inductive Settlement :=
| Resolves (data : ChatCompletionResponse)
| Rejects (error : AxiosError).

(** [this.client.post('/chat/completions', request)]: the response
    interceptor rejects with [handleError(error)]. *)
Definition post (config : OpenRouterConfig) (s : Settlement)
  : VisionBridgeError + ChatCompletionResponse :=
  match s with
  | Resolves data => inr data
  | Rejects error => inl (handleError config error)
  end.

(** The upstream provider as seen by one call of [createChatCompletion]:
    how the [k]-th request (counted from 0) settles. *)
Definition Upstream := nat -> Settlement.

(** What a call of [createChatCompletion] did: the value returned
    ([inr]) or thrown ([inl], [None] standing for [undefined]), the
    number of requests sent, and the arguments of the successive calls
    of [this.delay]. *)
Record Run := {
  outcome : option VisionBridgeError + ChatCompletionResponse;
  attempts : nat;
  delays : list Z
}.

(** [(lastError.retryAfter || this.config.retryDelay || 1000)
      * Math.pow(2, attempt - 1)] *)
Definition backoffDelay (config : OpenRouterConfig) (lastError : VisionBridgeError)
    (attempt : Z) : Z :=
  default (default 1000 (JS.truthyNum (retryDelay config)))
          (JS.truthyNum (retryAfter lastError))
  * 2 ^ (attempt - 1).

(** The [for (let attempt = 1; attempt <= maxRetries; attempt++)] loop.
    [remaining] is the number of iterations for which the guard still
    holds; [calls] counts the requests sent so far. *)
Fixpoint attemptLoop (config : OpenRouterConfig) (upstream : Upstream)
    (maxRetries : Z) (remaining : nat) (attempt : Z) (calls : nat)
    (slept : list Z) (lastError : option VisionBridgeError) : Run :=
  match remaining with
  | O => {| outcome := inl lastError; attempts := calls; delays := slept |}
  | S remaining' =>
      match post config (upstream calls) with
      | inr data => {| outcome := inr data; attempts := S calls; delays := slept |}
      | inl lastError =>
          if negb (retryable lastError) || (attempt =? maxRetries) then
            {| outcome := inl (Some lastError); attempts := S calls; delays := slept |}
          else
            let delay := backoffDelay config lastError attempt in
            attemptLoop config upstream maxRetries remaining' (attempt + 1)
                        (S calls) (slept ++ [delay]) (Some lastError)
      end
  end.

(** [const maxRetries = this.config.maxRetries || 3] *)
Definition effectiveMaxRetries (config : OpenRouterConfig) : Z :=
  default 3 (JS.truthyNum (maxRetries config)).

Definition createChatCompletion (config : OpenRouterConfig) (upstream : Upstream) : Run :=
  let maxRetries := effectiveMaxRetries config in
  attemptLoop config upstream maxRetries (Z.to_nat maxRetries) 1 0 [] None.

End OpenRouterClient.

(** ** [integrations/openrouter/utils.ts]: CircuitBreaker *)

Module CircuitBreaker.

Inductive State := closed | open | half_open.

Record t := {
  failures : Z;
  lastFailureTime : Z;
  state : State
}.

Record Params := {
  failureThreshold : Z;
  recoveryTimeout : Z
}.

(** Field initialisers of the class. *)
Definition new : t :=
  {| failures := 0; lastFailureTime := 0; state := closed |}.

(** The part of the world the breaker interacts with: the clock read by
    [Date.now()] and how many times a wrapped operation was invoked. *)
Record World := {
  now : Z;
  invocations : nat
}.

(** A wrapped operation: invoking it takes [duration] milliseconds and
    then resolves ([resolves = true]) or rejects. *)
Record Operation := {
  duration : Z;
  resolves : bool
}.

Definition invoke (op : Operation) (w : World) : World * bool :=
  ({| now := now w + duration op; invocations := S (invocations w) |}, resolves op).

Definition onSuccess (cb : t) : t :=
  {| failures := 0; lastFailureTime := lastFailureTime cb; state := closed |}.

Definition onFailure (p : Params) (w : World) (cb : t) : t :=
  let failures' := failures cb + 1 in
  {| failures := failures';
     lastFailureTime := now w;
     state := if failureThreshold p <=? failures' then open else state cb |}.

(** The test at the head of [execute]: [None] when it throws
    ['Circuit breaker is open']. *)
Definition gate (p : Params) (w : World) (cb : t) : option t :=
  match state cb with
  | open =>
      if recoveryTimeout p <? now w - lastFailureTime cb
      then Some {| failures := failures cb;
                   lastFailureTime := lastFailureTime cb;
                   state := half_open |}
      else None
  | _ => Some cb
  end.

Inductive Result :=
| BreakerOpen    (* threw Error('Circuit breaker is open') *)
| Fulfilled      (* returned the operation's result *)
| Rejected.      (* rethrew the operation's error *)

Definition execute (p : Params) (op : Operation) (cw : t * World)
  : t * World * Result :=
  let '(cb, w) := cw in
  match gate p w cb with
  | None => (cb, w, BreakerOpen)
  | Some cb =>
      let '(w, ok) := invoke op w in
      if ok then (onSuccess cb, w, Fulfilled)
      else (onFailure p w cb, w, Rejected)
  end.

(** A sequence of [execute] calls; [idle] is the time that passes before
    the call is made. *)
Record Call := {
  idle : Z;
  operation : Operation
}.

Definition elapse (d : Z) (w : World) : World :=
  {| now := now w + d; invocations := invocations w |}.

Fixpoint run (p : Params) (calls : list Call) (cw : t * World)
  : t * World * list Result :=
  match calls with
  | [] => (cw, [])
  | c :: calls =>
      let '(cb, w, r) := execute p (operation c) (fst cw, elapse (idle c) (snd cw)) in
      let '(cw', rs) := run p calls (cb, w) in
      (cw', r :: rs)
  end.

End CircuitBreaker.

(** ** [integrations/openrouter/models.ts]: ModelManager *)

Record ModelConfig := {
  primary : string;
  fallback : list string;
  defaultMaxTokens : option Z;
  defaultTemperature : option Q
}.

(** [Partial<ModelConfig>]: the fields given. *)
Record PartialModelConfig := {
  primary' : option string;
  fallback' : option (list string);
  defaultMaxTokens' : option Z;
  defaultTemperature' : option Q
}.

(** [{ ...config, ...newConfig }]: a field that [newConfig] gives
    replaces that of [config], a field it lacks is kept. *)
Definition merged (config : ModelConfig) (newConfig : PartialModelConfig) : ModelConfig :=
  {| primary := default (primary config) (primary' newConfig);
     fallback := default (fallback config) (fallback' newConfig);
     defaultMaxTokens :=
       match defaultMaxTokens' newConfig with
       | Some tokens => Some tokens
       | None => defaultMaxTokens config
       end;
     defaultTemperature :=
       match defaultTemperature' newConfig with
       | Some temperature => Some temperature
       | None => defaultTemperature config
       end |}.

(** A complete configuration where a [Partial<ModelConfig>] is expected:
    it gives [primary] and [fallback], and the optional fields it has
    (an optional field is absent or holds a value). *)
Definition fieldsOf (config : ModelConfig) : PartialModelConfig :=
  {| primary' := Some (primary config);
     fallback' := Some (fallback config);
     defaultMaxTokens' := defaultMaxTokens config;
     defaultTemperature' := defaultTemperature config |}.

Module RoutingRequest.

(** Absent boolean hints are [false]. *)
Record t := {
  hasImage : bool;
  requiresHighQuality : bool;
  requiresFastResponse : bool;
  maxTokens : option Z;
  preferredModel : option string;
  costSensitive : bool;
  fallbackAllowed : bool
}.

End RoutingRequest.

Module ModelManager.

Import RoutingRequest.

Record Pricing := { prompt : Q; completion : Q }.

Record ModelCapabilities := {
  supportsImages : bool;
  supportsStreaming : bool;
  maxImageSize : Z;
  supportedFormats : list string;
  maxTokens : Z;
  contextLength : Z;
  pricing : Pricing
}.

Record t := {
  config : ModelConfig;
  capabilities : gmap string ModelCapabilities
}.

Definition visionModels : list (string * ModelCapabilities) :=
  [ ("x-ai/grok-beta-vision",
     {| supportsImages := true; supportsStreaming := true;
        maxImageSize := 8 * 1024 * 1024;
        supportedFormats := ["jpeg"; "jpg"; "png"; "webp"];
        maxTokens := 4000; contextLength := 128000;
        pricing := {| prompt := 0.005; completion := 0.015 |} |});
    ("google/gemini-2.0-flash-001",
     {| supportsImages := true; supportsStreaming := true;
        maxImageSize := 20 * 1024 * 1024;
        supportedFormats := ["jpeg"; "jpg"; "png"; "webp"; "gif"];
        maxTokens := 4000; contextLength := 1000000;
        pricing := {| prompt := 0.001; completion := 0.004 |} |});
    ("anthropic/claude-3-5-sonnet-20241022",
     {| supportsImages := true; supportsStreaming := true;
        maxImageSize := 5 * 1024 * 1024;
        supportedFormats := ["jpeg"; "jpg"; "png"];
        maxTokens := 4000; contextLength := 200000;
        pricing := {| prompt := 0.003; completion := 0.015 |} |});
    ("openai/gpt-4o",
     {| supportsImages := true; supportsStreaming := true;
        maxImageSize := 20 * 1024 * 1024;
        supportedFormats := ["jpeg"; "jpg"; "png"; "webp"; "gif"];
        maxTokens := 4000; contextLength := 128000;
        pricing := {| prompt := 0.005; completion := 0.015 |} |});
    ("openai/gpt-4o-mini",
     {| supportsImages := true; supportsStreaming := true;
        maxImageSize := 20 * 1024 * 1024;
        supportedFormats := ["jpeg"; "jpg"; "png"; "webp"; "gif"];
        maxTokens := 4000; contextLength := 128000;
        pricing := {| prompt := 0.00015; completion := 0.0006 |} |}) ].

(** [initializeModelCapabilities]: every known model gives all fields,
    so the defaults it is spread over never show. *)
Definition initializeModelCapabilities : gmap string ModelCapabilities :=
  list_to_map visionModels.

Definition new (config : ModelConfig) : t :=
  {| config := config; capabilities := initializeModelCapabilities |}.

(** [Partial<ModelCapabilities>] *)
Record PartialCapabilities := {
  supportsImages' : option bool;
  supportsStreaming' : option bool;
  maxImageSize' : option Z;
  supportedFormats' : option (list string);
  maxTokens' : option Z;
  contextLength' : option Z;
  pricing' : option Pricing
}.

Definition defaultCapabilities : ModelCapabilities :=
  {| supportsImages := false; supportsStreaming := false;
     maxImageSize := 10 * 1024 * 1024;
     supportedFormats := ["jpeg"; "jpg"; "png"];
     maxTokens := 1000; contextLength := 4000;
     pricing := {| prompt := 0.001; completion := 0.002 |} |}.

Definition setModelCapabilities (m : t) (modelId : string)
    (c : PartialCapabilities) : t :=
  let existing := default defaultCapabilities (capabilities m !! modelId) in
  {| config := config m;
     capabilities :=
       <[modelId :=
           {| supportsImages := default (supportsImages existing) (supportsImages' c);
              supportsStreaming := default (supportsStreaming existing) (supportsStreaming' c);
              maxImageSize := default (maxImageSize existing) (maxImageSize' c);
              supportedFormats := default (supportedFormats existing) (supportedFormats' c);
              maxTokens := default (maxTokens existing) (maxTokens' c);
              contextLength := default (contextLength existing) (contextLength' c);
              pricing := default (pricing existing) (pricing' c) |}]>
       (capabilities m) |}.

(** [updateConfig]: [this.config = { ...this.config, ...newConfig }] *)
Definition updateConfig (m : t) (newConfig : PartialModelConfig) : t :=
  {| config := merged (config m) newConfig; capabilities := capabilities m |}.

Definition isModelAvailable (m : t) (modelId : string) : bool :=
  bool_decide (primary (config m) = modelId)
  || bool_decide (modelId ∈ fallback (config m)).

(** [[this.config.primary, ...this.config.fallback].filter(Boolean)] *)
Definition getAvailableModels (m : t) : list string :=
  filter (λ model, model ≠ "") (primary (config m) :: fallback (config m)).

(** [this.capabilities.get(model)?.supportsImages], as a condition *)
Definition imageCapable (m : t) (model : string) : bool :=
  from_option supportsImages false (capabilities m !! model).

(** [this.capabilities.get(model)?.maxTokens || 0] *)
Definition tokenCapacity (m : t) (model : string) : Z :=
  from_option maxTokens 0 (capabilities m !! model).

Definition priorityOrder : list string :=
  [ "x-ai/grok-beta-vision";
    "google/gemini-2.0-flash-001";
    "anthropic/claude-3-5-sonnet-20241022";
    "openai/gpt-4o";
    "openai/gpt-4o-mini" ].

(** The [for (const priorityModel of priorityOrder)] loop. *)
Fixpoint firstPriority (order models : list string) : option string :=
  match order with
  | [] => None
  | priorityModel :: order' =>
      if bool_decide (priorityModel ∈ models) then Some priorityModel
      else firstPriority order' models
  end.

Definition selectBestModel (models : list string) : Thrown + string :=
  match models with
  | [] => inl (ThrownError "No available models" false)
  | first :: _ => inr (default first (firstPriority priorityOrder models))
  end.

Definition calculateConfidence (m : t) (model : string) (request : RoutingRequest.t) : Q :=
  match capabilities m !! model with
  | None => 0.5
  | Some capabilities =>
      let confidence := 0.5%Q in
      let confidence :=
        if hasImage request && supportsImages capabilities
        then (confidence + 0.3)%Q else confidence in
      let confidence :=
        if requiresHighQuality request
        then if JS.includes model "gpt-4o" || JS.includes model "claude-3-5-sonnet"
             then (confidence + 0.2)%Q else confidence
        else confidence in
      let confidence :=
        if hasImage request && negb (supportsImages capabilities)
        then (confidence - 0.5)%Q else confidence in
      Qmax 0 (Qmin 1 confidence)
  end.

Definition getSelectionReason (m : t) (model : string) (request : RoutingRequest.t) : string :=
  let reasons :=
    (if hasImage request then ["supports image processing"] else [])
    ++ (if requiresHighQuality request then ["high-quality output"] else [])
    ++ (if bool_decide (model = primary (config m)) then ["primary model"]
        else if bool_decide (model ∈ fallback (config m)) then ["fallback model"]
        else []) in
  match reasons with
  | [] => "default selection"
  | _ => JS.join ", " reasons
  end.

(** The two [filter] steps of [selectModel]. *)
Definition filteredCandidates (m : t) (request : RoutingRequest.t) : list string :=
  let candidateModels := getAvailableModels m in
  let candidateModels :=
    if hasImage request
    then filter (λ model, imageCapable m model = true) candidateModels
    else candidateModels in
  match JS.truthyZ (RoutingRequest.maxTokens request) with
  | Some maxTokens =>
      if 2000 <? maxTokens
      then filter (λ model, maxTokens <= tokenCapacity m model) candidateModels
      else candidateModels
  | None => candidateModels
  end.

(** The candidate path of [selectModel]: everything after the
    preferred-model test. *)
Definition selectFromCandidates (m : t) (request : RoutingRequest.t)
  : Thrown + ModelSelection :=
  let availableModels := getAvailableModels m in
  let candidateModels := filteredCandidates m request in
  let candidateModels :=
    match candidateModels with
    | [] => availableModels
    | _ => candidateModels
    end in
  match selectBestModel candidateModels with
  | inl e => inl e
  | inr selectedModel =>
      inr {| model := selectedModel;
             confidence := calculateConfidence m selectedModel request;
             reason := getSelectionReason m selectedModel request |}
  end.

(** The condition under which [selectModel] returns the preferred model
    at once. *)
Definition preferredAccepted (m : t) (request : RoutingRequest.t) : option string :=
  match JS.truthyStr (preferredModel request) with
  | Some preferredModel =>
      if isModelAvailable m preferredModel then
        match capabilities m !! preferredModel with
        | Some capabilities =>
            if negb (hasImage request) || supportsImages capabilities
            then Some preferredModel else None
        | None => None
        end
      else None
  | None => None
  end.

Definition selectModel (m : t) (request : RoutingRequest.t) : Thrown + ModelSelection :=
  match preferredAccepted m request with
  | Some preferredModel =>
      inr {| model := preferredModel;
             confidence := 1.0;
             reason := "Preferred model specified and available" |}
  | None => selectFromCandidates m request
  end.

Record Requirements := {
  reqHasImage : bool;
  reqMaxTokens : option Z;
  minContextLength : option Z
}.

Record Validation := {
  valid : bool;
  issues : list string
}.

Definition validateModel (m : t) (modelId : string) (requirements : Requirements)
  : Validation :=
  match capabilities m !! modelId with
  | None => {| valid := false; issues := ["Model capabilities not known"] |}
  | Some capabilities =>
      let issues :=
        (if reqHasImage requirements && negb (supportsImages capabilities)
         then ["Model does not support images"] else [])
        ++ match JS.truthyZ (reqMaxTokens requirements) with
           | Some requested =>
               if maxTokens capabilities <? requested
               then ["Model max tokens (" +:+ JS.showZ (maxTokens capabilities)
                     +:+ ") insufficient for request (" +:+ JS.showZ requested +:+ ")"]
               else []
           | None => []
           end
        ++ match JS.truthyZ (minContextLength requirements) with
           | Some requested =>
               if contextLength capabilities <? requested
               then ["Model context length (" +:+ JS.showZ (contextLength capabilities)
                     +:+ ") insufficient (" +:+ JS.showZ requested +:+ ")"]
               else []
           | None => []
           end in
      {| valid := bool_decide (issues = []); issues := issues |}
  end.

(** [getModelCapabilities] *)
Definition getModelCapabilities (m : t) (modelId : string) : option ModelCapabilities :=
  capabilities m !! modelId.

(** [getModelPricing] *)

(** *** [getPreferredModels] *)

(** [priority.indexOf(x)]; [i] is the index of the head of [priority]. *)
Fixpoint indexFrom (x : string) (priority : list string) (i : Z) : Z :=
  match priority with
  | [] => -1
  | y :: rest => if String.eqb y x then i else indexFrom x rest (i + 1)
  end.

Definition visionPriority : list string :=
  ["x-ai/grok-beta-vision"; "google/gemini-2.0-flash-001"; "openai/gpt-4o"].

(** The comparison function that the ['vision'] case gives to [sort]. *)
Definition byVisionPriority (a b : string) : Z :=
  let aIndex := indexFrom a visionPriority 0 in
  let bIndex := indexFrom b visionPriority 0 in
  if (aIndex =? -1) && (bIndex =? -1) then 0
  else if aIndex =? -1 then 1
  else if bIndex =? -1 then -1
  else aIndex - bIndex.

(** [Array.prototype.sort] is stable.  Its result for a comparison
    function that orders the elements consistently is that of an
    insertion from the right in which an element goes before the first
    one that it does not have to follow. *)
Fixpoint insertSorted (compare : string -> string -> Z) (x : string)
    (sorted : list string) : list string :=
  match sorted with
  | [] => [x]
  | y :: rest =>
      if 0 <? compare x y then y :: insertSorted compare x rest
      else x :: sorted
  end.

Definition sort (compare : string -> string -> Z) (models : list string) : list string :=
  foldr (insertSorted compare) [] models.

Definition getPreferredModels (m : t) (useCase : string) : list string :=
  let available := getAvailableModels m in
  if String.eqb useCase "vision" then
    sort byVisionPriority (filter (λ model, imageCapable m model = true) available)
  else if String.eqb useCase "high-quality" then
    filter (λ model, JS.includes model "gpt-4o" || JS.includes model "claude-3-5-sonnet" = true)
           available
  else if String.eqb useCase "fast" then
    filter (λ model, JS.includes model "mini" || JS.includes model "flash" = true) available
  else available.

End ModelManager.

(** ** [core/model-router.ts]: ModelRouter *)

Module ModelRouter.

Import RoutingRequest.

(** A value held by [modelUsage], or summed from its values: a number,
    or the text that [+ 1] makes of an inherited function and of such a
    text (the source text of the function followed by ["1"]s; its
    characters are not modelled). *)
Inductive UsageValue :=
| Count (n : Z)
| Text.

(** [modelUsage] is a plain object, [{}] at first: the map holds its own
    properties. *)
Record RoutingMetrics := {
  totalRequests : Z;
  successfulSelections : Z;
  fallbackSelections : Z;
  modelUsage : gmap string UsageValue;
  lastSelection : option (ModelSelection * Z)
}.

(** The names of the properties a plain object inherits from
    [Object.prototype]. *)
Definition objectPrototype : list string :=
  [ "constructor"; "__defineGetter__"; "__defineSetter__"; "hasOwnProperty";
    "__lookupGetter__"; "__lookupSetter__"; "isPrototypeOf";
    "propertyIsEnumerable"; "toString"; "valueOf"; "__proto__";
    "toLocaleString" ].

(** [usage[id] = (usage[id] || 0) + 1] on a plain object.  An own count
    grows by one and a text stays a text.  Without own property the
    value read is [undefined] and the count becomes 1, unless [id]
    names an inherited property: what is read is then a function (the
    prototype itself for ["__proto__"]), which is truthy and which
    [+ 1] turns into a text; the text becomes an own property, except
    for ["__proto__"], whose setter ignores a text. *)
Definition used (counts : gmap string UsageValue) (id : string)
  : gmap string UsageValue :=
  match counts !! id with
  | Some (Count n) => <[id := Count (n + 1)]> counts
  | Some Text => <[id := Text]> counts
  | None =>
      if bool_decide (id = "__proto__") then counts
      else if bool_decide (id ∈ objectPrototype) then <[id := Text]> counts
      else <[id := Count 1]> counts
  end.

Record t := {
  config : ModelConfig;
  modelManager : ModelManager.t;
  metrics : RoutingMetrics;
  confidenceHistory : list Q
}.

Definition emptyMetrics : RoutingMetrics :=
  {| totalRequests := 0; successfulSelections := 0; fallbackSelections := 0;
     modelUsage := ∅; lastSelection := None |}.

(** The constructor, with [initializeModelManager]. *)
Definition new (config : ModelConfig) (modelManager : ModelManager.t) : t :=
  {| config := config;
     modelManager := ModelManager.updateConfig modelManager (fieldsOf config);
     metrics := emptyMetrics;
     confidenceHistory := [] |}.

Definition withMetrics (r : t) (f : RoutingMetrics -> RoutingMetrics) : t :=
  {| config := config r; modelManager := modelManager r;
     metrics := f (metrics r); confidenceHistory := confidenceHistory r |}.

Definition countRequest (x : RoutingMetrics) : RoutingMetrics :=
  {| totalRequests := totalRequests x + 1;
     successfulSelections := successfulSelections x;
     fallbackSelections := fallbackSelections x;
     modelUsage := modelUsage x; lastSelection := lastSelection x |}.

Definition countSuccess (x : RoutingMetrics) : RoutingMetrics :=
  {| totalRequests := totalRequests x;
     successfulSelections := successfulSelections x + 1;
     fallbackSelections := fallbackSelections x;
     modelUsage := modelUsage x; lastSelection := lastSelection x |}.

Definition countFallback (x : RoutingMetrics) : RoutingMetrics :=
  {| totalRequests := totalRequests x;
     successfulSelections := successfulSelections x;
     fallbackSelections := fallbackSelections x + 1;
     modelUsage := modelUsage x; lastSelection := lastSelection x |}.

(** [updateMetrics]; [timestamp] is the reading of [Date.now()]. *)
Definition updateMetrics (r : t) (selection : ModelSelection) (timestamp : Z) : t :=
  let x := metrics r in
  let history := confidenceHistory r ++ [confidence selection] in
  {| config := config r;
     modelManager := modelManager r;
     metrics :=
       {| totalRequests := totalRequests x;
          successfulSelections := successfulSelections x;
          fallbackSelections := fallbackSelections x;
          modelUsage := used (modelUsage x) (model selection);
          lastSelection := Some (selection, timestamp) |};
     confidenceHistory :=
       if (100 <? length history)%nat then tail history else history |}.

Definition requirementsOf (request : RoutingRequest.t) : ModelManager.Requirements :=
  {| ModelManager.reqHasImage := hasImage request;
     ModelManager.reqMaxTokens := maxTokens request;
     ModelManager.minContextLength := None |}.

(** The [for (const fallbackModel of fallbackCandidates)] loop. *)
Fixpoint firstValid (r : t) (request : RoutingRequest.t) (candidates : list string)
  : option string :=
  match candidates with
  | [] => None
  | fallbackModel :: rest =>
      if ModelManager.valid
           (ModelManager.validateModel (modelManager r) fallbackModel (requirementsOf request))
      then Some fallbackModel
      else firstValid r request rest
  end.

Definition selectFallbackModel (r : t) (request : RoutingRequest.t)
    (issues : list string) : ModelSelection :=
  let availableModels := ModelManager.getAvailableModels (modelManager r) in
  let fallbackCandidates :=
    filter (λ model, model ≠ primary (config r)
                     ∧ ModelManager.isModelAvailable (modelManager r) model = true)
           availableModels in
  match firstValid r request fallbackCandidates with
  | Some fallbackModel =>
      {| model := fallbackModel;
         confidence := 0.7;
         reason := "Fallback model selected due to: " +:+ JS.join ", " issues |}
  | None =>
      {| model := primary (config r);
         confidence := 0.3;
         reason := "All models failed validation. Issues: " +:+ JS.join ", " issues |}
  end.

(** The [try] block of [selectModel]. *)
Definition selectModelTry (r : t) (request : RoutingRequest.t) (timestamp : Z)
  : Thrown + (ModelSelection * t) :=
  match ModelManager.selectModel (modelManager r) request with
  | inl e => inl e
  | inr selection =>
      let validation :=
        ModelManager.validateModel (modelManager r) (model selection)
                                   (requirementsOf request) in
      let '(selection, r) :=
        if negb (ModelManager.valid validation)
        then (selectFallbackModel r request (ModelManager.issues validation),
              withMetrics r countFallback)
        else (selection, withMetrics r countSuccess) in
      inr (selection, updateMetrics r selection timestamp)
  end.

(** [selectModel], the [catch] block included. *)
Definition selectModel (r : t) (request : RoutingRequest.t) (timestamp : Z)
  : ModelSelection * t :=
  let r := withMetrics r countRequest in
  match selectModelTry r request timestamp with
  | inr result => result
  | inl _ =>
      let fallbackSelection :=
        {| model := primary (config r);
           confidence := 0.1;
           reason := "Fallback due to selection error" |} in
      (fallbackSelection, updateMetrics r fallbackSelection timestamp)
  end.

(** [forceModelSelection] *)
Definition forceModelSelection (r : t) (modelId reason : string) (timestamp : Z)
  : Thrown + (ModelSelection * t) :=
  if negb (ModelManager.isModelAvailable (modelManager r) modelId) then
    inl (ThrownError ("Model " +:+ modelId +:+ " is not available") false)
  else
    let selection :=
      {| model := modelId;
         confidence := 1.0;
         reason := "Forced selection: " +:+ reason |} in
    inr (selection, updateMetrics r selection timestamp).

Definition performancePriority : list string :=
  [ "google/gemini-2.0-flash-001";
    "openai/gpt-4o-mini";
    "x-ai/grok-beta-vision";
    "openai/gpt-4o";
    "anthropic/claude-3-5-sonnet-20241022" ].

(** A selection whose [model] may be [undefined], as [availableModels[0]]
    is when no model is available. *)
Record LooseSelection := {
  looseModel : option string;
  looseConfidence : Q;
  looseReason : string
}.

(** The [for (const priorityModel of performancePriority)] loop. *)
Fixpoint firstPerforming (r : t) (request : RoutingRequest.t)
    (order availableModels : list string) : option string :=
  match order with
  | [] => None
  | priorityModel :: rest =>
      if bool_decide (priorityModel ∈ availableModels)
         && ModelManager.valid
              (ModelManager.validateModel (modelManager r) priorityModel
                                          (requirementsOf request))
      then Some priorityModel
      else firstPerforming r request rest availableModels
  end.

Definition selectPerformanceOptimizedModel (r : t) (request : RoutingRequest.t)
  : LooseSelection :=
  let availableModels := ModelManager.getAvailableModels (modelManager r) in
  match firstPerforming r request performancePriority availableModels with
  | Some priorityModel =>
      {| looseModel := Some priorityModel;
         looseConfidence := 0.9;
         looseReason := "Performance-optimized selection" |}
  | None =>
      {| looseModel := head availableModels;
         looseConfidence := 0.6;
         looseReason := "Performance-optimized fallback" |}
  end.

(** A series of [selectModel] calls on the same router, each with the
    clock reading at the time. *)
Fixpoint selectModels (r : t) (requests : list (RoutingRequest.t * Z)) : t :=
  match requests with
  | [] => r
  | (request, timestamp) :: rest =>
      selectModels (snd (selectModel r request timestamp)) rest
  end.

(** [resetMetrics] *)
Definition resetMetrics (r : t) : t :=
  {| config := config r; modelManager := modelManager r;
     metrics := emptyMetrics; confidenceHistory := [] |}.

(** [a + b]: the sum of two numbers, a text as soon as one of them is
    a text. *)
Definition plus (a b : UsageValue) : UsageValue :=
  match a, b with
  | Count x, Count y => Count (x + y)
  | _, _ => Text
  end.

(** [getLoadBalancingStats().totalRequests]:
    [Object.values(this.metrics.modelUsage).reduce((a, b) => a + b, 0)],
    the sum of the usage counts when all values are numbers. *)
Definition loadBalancingTotal (r : t) : UsageValue :=
  map_fold (λ _ value total, plus total value) (Count 0) (modelUsage (metrics r)).

(** The own property [modelId] of [modelUsage], as
    [getLoadBalancingStats().modelUsage] lists it. *)
Definition usageOf (r : t) (modelId : string) : option UsageValue :=
  modelUsage (metrics r) !! modelId.

(** [getRecommendations] *)
Definition getRecommendations (r : t) (useCase : string) : list string :=
  ModelManager.getPreferredModels (modelManager r) useCase.

(** [updateConfiguration] *)
Definition updateConfiguration (r : t) (newConfig : PartialModelConfig) : t :=
  let config := merged (config r) newConfig in
  {| config := config;
     modelManager := ModelManager.updateConfig (modelManager r) (fieldsOf config);
     metrics := metrics r;
     confidenceHistory := confidenceHistory r |}.

End ModelRouter.

(** ** [core/image-processor.ts]: ImageProcessor *)

Module ImageProcessor.

(** A [Buffer]; only its length is ever inspected. *)
Definition Buffer := list Byte.byte.

Definition byteLength (b : Buffer) : Z := Z.of_nat (length b).

Record Options := {
  maxSize : Z;
  allowedFormats : list string;
  quality : Z;
  maxDimension : Z
}.

(** [ImageProcessingOptions], every field optional. *)
Record PartialOptions := {
  maxSize' : option Z;
  allowedFormats' : option (list string);
  quality' : option Z;
  maxDimension' : option Z
}.

(** The constructor's defaults. *)
Definition new (options : PartialOptions) : Options :=
  {| maxSize := default (10 * 1024 * 1024) (maxSize' options);
     allowedFormats := default ["jpeg"; "jpg"; "png"; "webp"; "gif"] (allowedFormats' options);
     quality := default 85 (quality' options);
     maxDimension := default 2048 (maxDimension' options) |}.

(** *** The collaborators: URL parsing, HTTP, base64 and [sharp] *)

Record Url := { protocol : string; pathname : string }.

Record HttpResponse := { data : Buffer; contentType : option string }.

Record HttpFailure := {
  failureCode : option string;      (* error.code *)
  failureStatus : option Z;         (* error.response?.status *)
  failureMessage : string
}.

Record Metadata := {
  width : option Z;
  height : option Z;
  format : option string
}.

Inductive Encoder := Jpeg | Png | Webp | Unchanged.

Record Environment := {
  (** [new URL(s)], [None] when it throws *)
  parseUrl : string -> option Url;
  (** [Buffer.from(s, 'base64')] and [buffer.toString('base64')] *)
  fromBase64 : string -> Buffer;
  toBase64 : Buffer -> string;
  (** [axios.get(url, ...)] *)
  httpGet : string -> HttpFailure + HttpResponse;
  (** [sharp(buffer).metadata()], the left injection when it rejects *)
  sharpMetadata : Buffer -> string + Metadata;
  (** [sharp(buffer)], optionally [.resize(d, d, {fit: 'inside',
      withoutEnlargement: true})], then the encoder at the given quality,
      then [.toBuffer()] *)
  sharpToBuffer : Buffer -> option Z -> Encoder -> Z -> string + Buffer
}.

(** *** Effects: a log of the calls made to the collaborators, and
    exceptions *)

Inductive Event :=
| HttpGet (url : string)
| SharpMetadata (input : Buffer)
| SharpToBuffer (input : Buffer).

Definition M (A : Type) : Type := list Event * (Thrown + A).

#[export] Instance M_ret : MRet M := λ A x, ([], inr x).

#[export] Instance M_bind : MBind M := λ A B k m,
  match m with
  | (log, inl e) => (log, inl e)
  | (log, inr x) => let '(log', r) := k x in (log ++ log', r)
  end.

Definition throw {A} (e : Thrown) : M A := ([], inl e).

Definition emit (ev : Event) : M unit := ([ev], inr tt).

Definition catch {A} (m : M A) (handler : Thrown -> M A) : M A :=
  match m with
  | (log, inl e) => let '(log', r) := handler e in (log ++ log', r)
  | (log, inr x) => (log, inr x)
  end.

(** [createError]: a plain object, not an instance of [Error]. *)
Definition createError (code message : string) : Thrown :=
  ThrownObject {| code := code; message := message;
                  retryable := false; retryAfter := None |}.

(** *** Input validation *)

Fixpoint allChars (p : ascii -> bool) (s : string) : bool :=
  match s with
  | String c s' => p c && allChars p s'
  | EmptyString => true
  end.

(** The class [[A-Za-z0-9+/=]] *)
Definition isBase64Char (c : ascii) : bool :=
  let n := JS.code c in
  ((65 <=? n) && (n <=? 90) || (97 <=? n) && (n <=? 122)
   || (48 <=? n) && (n <=? 57) || (n =? 43) || (n =? 47) || (n =? 61))%nat.

(** [/^data:image\/(jpeg|jpg|png|webp|gif);base64,[A-Za-z0-9+/=]+$/] *)
Definition dataUrlPattern (s : string) : bool :=
  existsb
    (λ fmt,
       let head := "data:image/" +:+ fmt +:+ ";base64," in
       let payload := JS.drop (String.length head) s in
       JS.startsWith s head
       && negb (String.eqb payload "")
       && allChars isBase64Char payload)
    ["jpeg"; "jpg"; "png"; "webp"; "gif"].

Inductive InputType := url | base64.

Record InputValidation := {
  valid : bool;
  type : InputType;
  error : option string
}.

Definition validateImageInput (env : Environment) (imageUrl : string) : InputValidation :=
  if String.eqb imageUrl "" then
    {| valid := false; type := url; error := Some "Image URL is required" |}
  else if JS.startsWith imageUrl "data:image/" then
    if negb (dataUrlPattern imageUrl) then
      {| valid := false; type := base64; error := Some "Invalid base64 image data format" |}
    else {| valid := true; type := base64; error := None |}
  else
    match parseUrl env imageUrl with
    | Some u =>
        if negb (bool_decide (protocol u ∈ ["http:"; "https:"])) then
          {| valid := false; type := url;
             error := Some "Image URL must use HTTP or HTTPS protocol" |}
        else {| valid := true; type := url; error := None |}
    | None => {| valid := false; type := url; error := Some "Invalid URL format" |}
    end.

(** The longest run of characters other than [;] at the head of [s]:
    the capture of [([^;]+)]. *)
Fixpoint untilSemicolon (s : string) : string :=
  match s with
  | String c s' => if Ascii.eqb c ";" then EmptyString else String c (untilSemicolon s')
  | EmptyString => EmptyString
  end.

(** [/^data:image\/([^;]+)/] *)
Definition extractFormatFromDataUrl (dataUrl : string) : string :=
  if JS.startsWith dataUrl "data:image/" then
    match untilSemicolon (JS.drop 11 dataUrl) with
    | EmptyString => "unknown"
    | capture => JS.toLowerCase capture
    end
  else "unknown".

(** [/image\/([^;]+)/], searched from the left *)
Fixpoint searchImageSlash (s : string) : option string :=
  match (if JS.startsWith s "image/" then untilSemicolon (JS.drop 6 s) else EmptyString) with
  | EmptyString =>
      match s with
      | String _ s' => searchImageSlash s'
      | EmptyString => None
      end
  | capture => Some capture
  end.

Definition extractFormatFromContentType (contentType : option string) : option string :=
  match JS.truthyStr contentType with
  | Some contentType => JS.toLowerCase <$> searchImageSlash contentType
  | None => None
  end.

Definition extractFormatFromUrl (env : Environment) (url : string) : option string :=
  match parseUrl env url with
  | Some u =>
      match last (JS.split "." (JS.toLowerCase (pathname u))) with
      | Some extension =>
          if negb (String.eqb extension "")
             && bool_decide (extension ∈ ["jpeg"; "jpg"; "png"; "webp"; "gif"])
          then Some extension else None
      | None => None
      end
  | None => None
  end.

Definition detectImageFormat (env : Environment) (buffer : Buffer) : M (option string) :=
  _ ← emit (SharpMetadata buffer);
  match sharpMetadata env buffer with
  | inr metadata => mret (JS.truthyStr (format metadata))
  | inl _ => mret None
  end.

Definition getMimeType (format : string) : string :=
  let f := JS.toLowerCase format in
  if String.eqb f "jpeg" then "image/jpeg"
  else if String.eqb f "jpg" then "image/jpeg"
  else if String.eqb f "png" then "image/png"
  else if String.eqb f "webp" then "image/webp"
  else if String.eqb f "gif" then "image/gif"
  else "image/jpeg".

(** *** Download *)

Definition downloadImage (env : Environment) (imageUrl : string) : M (Buffer * string) :=
  _ ← emit (HttpGet imageUrl);
  match httpGet env imageUrl with
  | inl failure =>
      if bool_decide (failureCode failure = Some "ENOTFOUND")
         || bool_decide (failureCode failure = Some "ECONNREFUSED")
      then throw (createError "IMAGE_URL_INACCESSIBLE"
                              ("Cannot access image URL: " +:+ failureMessage failure))
      else if bool_decide (failureStatus failure = Some 404)
      then throw (createError "IMAGE_NOT_FOUND" "Image not found at the provided URL")
      else if bool_decide (failureStatus failure = Some 403)
      then throw (createError "IMAGE_ACCESS_FORBIDDEN" "Access to image is forbidden")
      else throw (createError "DOWNLOAD_ERROR"
                              ("Failed to download image: " +:+ failureMessage failure))
  | inr response =>
      let format := extractFormatFromContentType (contentType response) in
      let format :=
        match format with
        | Some f => Some f
        | None => extractFormatFromUrl env imageUrl
        end in
      format ← match format with
               | Some f => mret (Some f)
               | None => detectImageFormat env (data response)
               end;
      match format with
      | Some f => mret (data response, f)
      | None =>
          (* [new Error('Unable to detect image format')], caught by the
             handler of the same function *)
          throw (createError "DOWNLOAD_ERROR"
                             "Failed to download image: Unable to detect image format")
      end
  end.

(** *** Optimisation *)

Definition encoderFor (format : string) : option Encoder :=
  let f := JS.toLowerCase format in
  if String.eqb f "jpeg" || String.eqb f "jpg" then Some Jpeg
  else if String.eqb f "png" then Some Png
  else if String.eqb f "webp" then Some Webp
  else if String.eqb f "gif" then None
  else Some Unchanged.

(** [optimizeImage]: never throws; every failure of [sharp] falls back
    to the input buffer. *)
Definition optimizeImage (env : Environment) (options : Options)
    (buffer : Buffer) (format : string) : M Buffer :=
  _ ← emit (SharpMetadata buffer);
  match sharpMetadata env buffer with
  | inl _ => mret buffer
  | inr metadata =>
      let resize :=
        match JS.truthyZ (width metadata), JS.truthyZ (height metadata) with
        | Some w, Some h =>
            if (maxDimension options <? w) || (maxDimension options <? h)
            then Some (maxDimension options) else None
        | _, _ => None
        end in
      match encoderFor format with
      | None => mret buffer
      | Some encoder =>
          _ ← emit (SharpToBuffer buffer);
          match sharpToBuffer env buffer resize encoder (quality options) with
          | inr optimized => mret optimized
          | inl _ => mret buffer
          end
      end
  end.

(** *** [processImage] *)

Record ImageData := {
  imageUrl : string;       (* the [url] field *)
  imageFormat : string;    (* the [format] field *)
  size : Z;
  base64Data : option string
}.

(** The [if (validation.type === 'base64') ... else ...] statement: the
    bytes of the payload and its declared or detected format.  The
    pattern of [validateImageInput] leaves exactly one comma in an
    accepted data URL, so [split(',')[1]] is defined. *)
Definition loadImage (env : Environment) (imageUrl : string) (type : InputType)
  : M (Buffer * string) :=
  match type with
  | base64 =>
      let base64Data := default "" (JS.split "," imageUrl !! 1%nat) in
      mret (fromBase64 env base64Data, extractFormatFromDataUrl imageUrl)
  | url => downloadImage env imageUrl
  end.

(** The [try] block. *)
Definition processImageTry (env : Environment) (options : Options)
    (imageUrl : string) : M ImageData :=
  let validation := validateImageInput env imageUrl in
  if negb (valid validation) then
    throw (createError "INVALID_IMAGE_INPUT"
                       (default "Invalid image input" (JS.truthyStr (error validation))))
  else
    '(imageBuffer, format) ← loadImage env imageUrl (type validation);
    let size := byteLength imageBuffer in
    if maxSize options <? size then
      throw (createError "IMAGE_TOO_LARGE"
               ("Image size (" +:+ JS.showZ size +:+ " bytes) exceeds limit ("
                +:+ JS.showZ (maxSize options) +:+ " bytes)"))
    else if negb (bool_decide (JS.toLowerCase format ∈ allowedFormats options)) then
      throw (createError "UNSUPPORTED_FORMAT"
               ("Image format '" +:+ format +:+ "' is not supported"))
    else
      optimizedBuffer ← optimizeImage env options imageBuffer format;
      let optimizedFormat := JS.toLowerCase format in
      let mimeType := getMimeType optimizedFormat in
      mret {| imageUrl := "data:" +:+ mimeType +:+ ";base64," +:+ toBase64 env optimizedBuffer;
              imageFormat := optimizedFormat;
              size := byteLength optimizedBuffer;
              base64Data := Some (toBase64 env optimizedBuffer) |}.

(** The [catch] block: a value is rethrown as it is only when it is an
    instance of [Error] that has a [code] property. *)
Definition processImage (env : Environment) (options : Options)
    (imageUrl : string) : M ImageData :=
  catch (processImageTry env options imageUrl)
    (λ error,
       match error with
       | ThrownError _ true => throw error
       | _ => throw (createError "PROCESSING_ERROR"
                       ("Failed to process image: " +:+ thrownMessage error))
       end).

(** *** [validateForModel] *)

Record ModelLimits := {
  maxImageSize : Z;
  supportedFormats : list string
}.

(** The result of [validateForModel]; its [valid] field is named
    [acceptable] here. *)
Record ModelValidation := {
  acceptable : bool;
  issues : list string
}.

(** [Math.ceil((imageUrl.length - imageUrl.indexOf(',') - 1) * 0.75)] *)
Definition base64Size (imageUrl : string) : Z :=
  JS.ceilThreeQuarters (JS.len imageUrl - JS.indexOf imageUrl "," - 1).

(** [validateForModel].  Nothing in its [try] block throws:
    [extractFormatFromUrl] catches the failure of [new URL] itself. *)
Definition validateForModel (env : Environment) (imageUrl : string)
    (modelCapabilities : ModelLimits) : ModelValidation :=
  let format :=
    if JS.startsWith imageUrl "data:image/"
    then Some (extractFormatFromDataUrl imageUrl)
    else extractFormatFromUrl env imageUrl in
  let issues :=
    match JS.truthyStr format with
    | None => ["Unable to detect image format"]
    | Some format =>
        if negb (bool_decide (JS.toLowerCase format ∈ supportedFormats modelCapabilities))
        then ["Format '" +:+ format +:+ "' not supported by model"]
        else []
    end in
  let issues :=
    if JS.startsWith imageUrl "data:image/" then
      let base64Size := base64Size imageUrl in
      if maxImageSize modelCapabilities <? base64Size then
        issues ++ ["Image size (" +:+ JS.showZ base64Size
                   +:+ " bytes) exceeds model limit ("
                   +:+ JS.showZ (maxImageSize modelCapabilities) +:+ " bytes)"]
      else issues
    else issues in
  {| acceptable := match issues with [] => true | _ => false end;
     issues := issues |}.

End ImageProcessor.

(** ** [core/response-transformer.ts]: ResponseTransformer *)

Module ResponseTransformer.

Definition LF : ascii := "010"%char.
Definition CR : ascii := "013"%char.
Definition TAB : ascii := "009"%char.
Definition SP : ascii := " "%char.

(** ["\n\n"] *)
Definition blankLine : string := String LF (String LF EmptyString).

(** [TransformOptions] and [StreamingTransformOptions]; every field is
    optional in the source. *)
Record TransformOptions := {
  includeMetadata : option bool;
  includeConfidence : option bool;
  includeProcessingTime : option bool;
  preserveFormatting : option bool;
  maxResponseLength : option Z;
  addAnalysisPrefix : option bool;
  chunkSize : option Z;
  includeProgress : option bool
}.

Definition defaultOptions : TransformOptions :=
  {| includeMetadata := Some true;
     includeConfidence := Some true;
     includeProcessingTime := Some true;
     preserveFormatting := Some false;
     maxResponseLength := Some 4000;
     addAnalysisPrefix := Some true;
     chunkSize := None;
     includeProgress := None |}.

Definition over {A} (base override : option A) : option A :=
  match override with Some x => Some x | None => base end.

(** [{ ...defaults, ...options }] *)
Definition spread (defaults options : TransformOptions) : TransformOptions :=
  {| includeMetadata := over (includeMetadata defaults) (includeMetadata options);
     includeConfidence := over (includeConfidence defaults) (includeConfidence options);
     includeProcessingTime := over (includeProcessingTime defaults) (includeProcessingTime options);
     preserveFormatting := over (preserveFormatting defaults) (preserveFormatting options);
     maxResponseLength := over (maxResponseLength defaults) (maxResponseLength options);
     addAnalysisPrefix := over (addAnalysisPrefix defaults) (addAnalysisPrefix options);
     chunkSize := over (chunkSize defaults) (chunkSize options);
     includeProgress := over (includeProgress defaults) (includeProgress options) |}.

Definition truthy (b : option bool) : bool := default false b.

Record Metadata := {
  model_used : option string;
  confidence_score : option Q;
  processing_time_ms : option Z;
  tokens_used : option Z;
  metaFinishReason : option string;   (* the [finish_reason] field *)
  streaming : option bool;
  partial : option bool;
  metaError : option string           (* the [error] field *)
}.

(** [content] is the list of the [text] fields of its items, all of
    type ['text']. *)
Record VisionResponse := {
  content : list string;
  metadata : option Metadata
}.

(** *** Text helpers *)

Definition appearsToBeImageAnalysis (content : string) : bool :=
  let lowerContent := JS.toLowerCase content in
  existsb (λ keyword, JS.includes lowerContent keyword)
    [ "image"; "picture"; "photo"; "visual"; "see"; "observe"; "notice";
      "depicts"; "shows"; "displays"; "contains"; "features"; "elements" ].

Definition isImageAnalysis (text : string) : bool :=
  let lowerText := JS.toLowerCase text in
  existsb (λ indicator, JS.includes lowerText indicator)
    [ "i can see"; "the image shows"; "in this picture"; "the photo depicts";
      "visual analysis"; "image content"; "what i observe" ].

(** [.replace(/\r\n/g, '\n')] *)
Fixpoint replaceCRLF (s : string) : string :=
  match s with
  | String c s' =>
      match s' with
      | String d s'' =>
          if Ascii.eqb c CR && Ascii.eqb d LF then String LF (replaceCRLF s'')
          else String c (replaceCRLF s')
      | EmptyString => String c EmptyString
      end
  | EmptyString => EmptyString
  end.

(** [.replace(/\r/g, '\n')] *)
Fixpoint replaceCR (s : string) : string :=
  match s with
  | String c s' => String (if Ascii.eqb c CR then LF else c) (replaceCR s')
  | EmptyString => EmptyString
  end.

Fixpoint repeatChar (n : nat) (c : ascii) : string :=
  match n with
  | O => EmptyString
  | S n' => String c (repeatChar n' c)
  end.

(** [.replace(/\n{3,}/g, '\n\n')]; [run] is the length of the run of
    line feeds just read. *)
Fixpoint collapseNewlines (run : nat) (s : string) : string :=
  let flush := if (3 <=? run)%nat then blankLine else repeatChar run LF in
  match s with
  | String c s' =>
      if Ascii.eqb c LF then collapseNewlines (S run) s'
      else flush +:+ String c (collapseNewlines 0 s')
  | EmptyString => flush
  end.

(** [.replace(/[ \t]{2,}/g, ' ')]; [run] is the run of blanks just
    read, most recent first. *)
Fixpoint collapseBlanks (run : list ascii) (s : string) : string :=
  let flush :=
    match run with
    | [] => EmptyString
    | [c] => String c EmptyString
    | _ => String SP EmptyString
    end in
  match s with
  | String c s' =>
      if Ascii.eqb c SP || Ascii.eqb c TAB then collapseBlanks (c :: run) s'
      else flush +:+ String c (collapseBlanks [] s')
  | EmptyString => flush
  end.

Definition truncationMarker : string := blankLine +:+ "[Response truncated]".

(** [cutoff > maxLength * 0.7], the product being the double that
    JavaScript computes: for [maxLength = 170] it is
    118.99999999999999, so that a cut-off of 119 is above it. *)
Definition aboveSeventyPercent (cutoff maxLength : Z) : bool :=
  Double.exceedsSevenTenths cutoff maxLength.

Definition truncateResponse (text : string) (maxLength : Z) : string :=
  if JS.len text <=? maxLength then text
  else
    let truncated := JS.substring text 0 (maxLength - 50) in
    let lastSentence := JS.lastIndexOf truncated "." in
    let lastLineBreak := JS.lastIndexOf truncated LF in
    let cutoff := Z.max lastSentence lastLineBreak in
    if aboveSeventyPercent cutoff maxLength then
      JS.substring truncated 0 (cutoff + 1) +:+ truncationMarker
    else
      truncated +:+ "..." +:+ truncationMarker.

(** [formatResponseText] up to, and without, the truncation step. *)
Definition normalizeResponseText (content : string) (options : TransformOptions) : string :=
  let formatted := JS.trim content in
  let formatted :=
    if truthy (addAnalysisPrefix options) && appearsToBeImageAnalysis formatted
    then "Image Analysis:" +:+ blankLine +:+ formatted
    else formatted in
  if negb (truthy (preserveFormatting options)) then
    JS.trim (collapseBlanks [] (collapseNewlines 0 (replaceCR (replaceCRLF formatted))))
  else formatted.

Definition formatResponseText (content : string) (options : TransformOptions) : string :=
  let formatted := normalizeResponseText content options in
  match JS.truthyZ (maxResponseLength options) with
  | Some maxResponseLength =>
      if maxResponseLength <? JS.len formatted
      then truncateResponse formatted maxResponseLength
      else formatted
  | None => formatted
  end.

(** *** The single-shot path *)

Definition extractContent (response : ChatCompletionResponse) : Thrown + string :=
  match choices response with
  | [] => inl (ThrownError "No choices in response" false)
  | choice :: _ =>
      match choiceMessage choice with
      | None => inl (ThrownError "No message in choice" false)
      | Some (ContentString s) => inr s
      | Some (ContentArray parts) =>
          let texts :=
            omap (λ item, match item with
                          | TextPart text => JS.truthyStr text
                          | ImagePart _ => None
                          end) parts in
          inr (default "No text content available"
                       (JS.truthyStr (Some (JS.join " " texts))))
      | Some ContentOther => inr "No content available"
      end
  end.

Definition clampUnit (q : Q) : Q := Qmax 0 (Qmin 1 q).

Definition estimateConfidence (response : ChatCompletionResponse) : Thrown + Q :=
  match extractContent response with
  | inl e => inl e
  | inr content =>
      let confidence := 0.7%Q in
      let confidence := if 200 <? JS.len content then (confidence + 0.1)%Q else confidence in
      let confidence := if 500 <? JS.len content then (confidence + 0.1)%Q else confidence in
      let confidence :=
        match usage response with
        | Some u =>
            let ratio := (inject_Z (completion_tokens u)
                          / inject_Z (Z.max (prompt_tokens u) 1))%Q in
            if negb (Qle_bool ratio 0.5) then (confidence + 0.1)%Q else confidence
        | None => confidence
        end in
      let finishReason :=
        match choices response with
        | choice :: _ => finish_reason choice
        | [] => None
        end in
      let confidence :=
        if bool_decide (finishReason = Some "stop") then (confidence + 0.1)%Q else confidence in
      let confidence :=
        if bool_decide (finishReason = Some "length") then (confidence - 0.2)%Q else confidence in
      inr (clampUnit confidence)
  end.

Definition extractMetadata (response : ChatCompletionResponse)
    (options : TransformOptions) : Thrown + Metadata :=
  let tokens := total_tokens <$> usage response in
  let finishReason :=
    match choices response with
    | choice :: _ =>
        match JS.truthyStr (finish_reason choice) with
        | Some r => if String.eqb r "stop" then None else Some r
        | None => None
        end
    | [] => None
    end in
  let build score :=
    {| model_used := Some (responseModel response);
       confidence_score := score;
       processing_time_ms := None;
       tokens_used := tokens;
       metaFinishReason := finishReason;
       streaming := None; partial := None; metaError := None |} in
  if truthy (includeConfidence options) then
    match estimateConfidence response with
    | inl e => inl e
    | inr score => inr (build (Some score))
    end
  else inr (build None).

(** [transformVisionResponse]; [elapsed] is [Date.now() - startTime]. *)
Definition transformVisionResponse (defaults : TransformOptions)
    (response : ChatCompletionResponse) (options : TransformOptions) (elapsed : Z)
  : VisionResponse :=
  let opts := spread defaults options in
  let attempt : Thrown + VisionResponse :=
    match extractContent response with
    | inl e => inl e
    | inr content =>
        match extractMetadata response opts with
        | inl e => inl e
        | inr metadata =>
            let formattedText := formatResponseText content opts in
            inr {| content := [formattedText];
                   metadata :=
                     if truthy (includeMetadata opts) then
                       Some {| model_used := model_used metadata;
                               confidence_score := confidence_score metadata;
                               processing_time_ms :=
                                 if truthy (includeProcessingTime opts)
                                 then Some elapsed else None;
                               tokens_used := tokens_used metadata;
                               metaFinishReason := metaFinishReason metadata;
                               streaming := None; partial := None;
                               metaError := None |}
                     else None |}
        end
    end in
  match attempt with
  | inr transformed => transformed
  | inl error =>
      {| content := ["I apologize, but I encountered an error while processing the image. Please try again."];
         metadata :=
           Some {| model_used := Some (responseModel response);
                   confidence_score := Some 0%Q;
                   processing_time_ms := Some elapsed;
                   tokens_used := None; metaFinishReason := None;
                   streaming := None; partial := None;
                   metaError := Some (thrownMessage error) |} |}
  end.

(** *** The streaming path *)

Inductive ChunkType := delta | done | error.

Record StreamChunk := {
  type : ChunkType;
  data : option string;
  chunkError : option string        (* the [error] field *)
}.

(** What the source generator does when asked for its next item: the
    end of the list is the generator's completion. *)
Inductive StreamItem :=
| Yields (chunk : StreamChunk)
| Throws (message : string).

(** Does the pattern, anchored at the end of the text, match at some
    position? *)
Fixpoint matchesSomeSuffix (p : string -> bool) (s : string) : bool :=
  p s ||
  match s with
  | String _ s' => matchesSomeSuffix p s'
  | EmptyString => false
  end.

Definition isSentenceEnd (c : ascii) : bool :=
  Ascii.eqb c "." || Ascii.eqb c "!" || Ascii.eqb c "?".

Definition shouldProcessChunk (chunk : string) (options : TransformOptions) : bool :=
  let chunkSize := default 100 (JS.truthyZ (chunkSize options)) in
  if chunkSize <=? JS.len chunk then true
  else if matchesSomeSuffix   (* /[.!?]\s*$/ *)
            (λ t, match t with
                  | String c rest => isSentenceEnd c && ImageProcessor.allChars JS.isWhiteSpace rest
                  | EmptyString => false
                  end) chunk then true
  else if matchesSomeSuffix   (* /\n\s*$/ *)
            (λ t, match t with
                  | String c rest => Ascii.eqb c LF && ImageProcessor.allChars JS.isWhiteSpace rest
                  | EmptyString => false
                  end) chunk then true
  else false.

Definition processChunk (chunk : string) (options : TransformOptions) : string :=
  let processed := JS.trim chunk in
  match processed with
  | EmptyString => processed
  | String c _ =>
      if isSentenceEnd c || Ascii.eqb c LF    (* /^[.!?\n]/ *)
      then processed else String SP processed
  end.

Definition createIntermediateResponse (text : string) (hasImageAnalysis : bool)
    (options : TransformOptions) : VisionResponse :=
  let prefix :=
    if hasImageAnalysis && truthy (addAnalysisPrefix options)
    then "Analyzing image..." +:+ blankLine else "" in
  {| content := [prefix +:+ text];
     metadata :=
       Some {| model_used := Some "streaming";
               confidence_score := Some 0.5%Q;
               processing_time_ms := None; tokens_used := None;
               metaFinishReason := None;
               streaming := Some true; partial := Some true;
               metaError := None |} |}.

Definition createFinalResponse (text : string) (options : TransformOptions)
  : VisionResponse :=
  {| content := [formatResponseText text options];
     metadata :=
       Some {| model_used := Some "streaming";
               confidence_score := Some 0.8%Q;
               processing_time_ms := None; tokens_used := None;
               metaFinishReason := None;
               streaming := Some false; partial := Some false;
               metaError := None |} |}.

Definition createErrorResponse (errorMessage : string) : VisionResponse :=
  {| content := ["I apologize, but I encountered an error while processing your request: "
                 +:+ errorMessage +:+ ". Please try again."];
     metadata :=
       Some {| model_used := Some "error";
               confidence_score := Some 0%Q;
               processing_time_ms := None; tokens_used := None;
               metaFinishReason := None;
               streaming := None; partial := None;
               metaError := Some errorMessage |} |}.

(** The local variables of [transformStreamingResponse]. *)
Record Locals := {
  accumulatedText : string;
  chunkBuffer : string;
  hasImageAnalysis : bool
}.

(** The [for await (const chunk of stream)] loop: the responses yielded
    while it runs, and either the locals when it is left ([break] or
    end of stream) or the message of the error the stream threw. *)
Fixpoint forAwait (opts : TransformOptions) (stream : list StreamItem) (st : Locals)
  : list VisionResponse * (string + Locals) :=
  match stream with
  | [] => ([], inr st)
  | Throws message :: _ => ([], inl message)
  | Yields chunk :: rest =>
      match type chunk with
      | error =>
          ([createErrorResponse
              (default "Streaming error occurred" (JS.truthyStr (chunkError chunk)))],
           inr st)
      | done =>
          (match JS.trim (accumulatedText st) with
           | EmptyString => []
           | _ => [createFinalResponse (accumulatedText st) opts]
           end,
           inr st)
      | delta =>
          match JS.truthyStr (data chunk) with
          | None => forAwait opts rest st
          | Some data =>
              let chunkBuffer := chunkBuffer st +:+ data in
              if shouldProcessChunk chunkBuffer opts then
                let processedChunk := processChunk chunkBuffer opts in
                let accumulatedText := accumulatedText st +:+ processedChunk in
                let hasImageAnalysis :=
                  if negb (hasImageAnalysis st) && isImageAnalysis accumulatedText
                  then true else hasImageAnalysis st in
                let intermediateResponse :=
                  createIntermediateResponse accumulatedText hasImageAnalysis opts in
                let '(yielded, exit) :=
                  forAwait opts rest
                    {| accumulatedText := accumulatedText;
                       chunkBuffer := "";
                       hasImageAnalysis := hasImageAnalysis |} in
                (intermediateResponse :: yielded, exit)
              else
                forAwait opts rest
                  {| accumulatedText := accumulatedText st;
                     chunkBuffer := chunkBuffer;
                     hasImageAnalysis := hasImageAnalysis st |}
          end
      end
  end.

(** [transformStreamingResponse]: the responses it yields, in order. *)
Definition transformStreamingResponse (defaults : TransformOptions)
    (stream : list StreamItem) (options : TransformOptions) : list VisionResponse :=
  let opts := spread defaults options in
  let '(yielded, exit) :=
    forAwait opts stream
      {| accumulatedText := ""; chunkBuffer := ""; hasImageAnalysis := false |} in
  match exit with
  | inl message => yielded ++ [createErrorResponse ("Streaming error: " +:+ message)]
  | inr st =>
      match JS.trim (chunkBuffer st) with
      | EmptyString => yielded
      | _ =>
          let processedChunk := processChunk (chunkBuffer st) opts in
          let accumulatedText := accumulatedText st +:+ processedChunk in
          yielded ++ [createFinalResponse accumulatedText opts]
      end
  end.

(** *** Tool-specific output *)

Record BoundingBox := {
  x : Z;
  y : Z;
  width : Z;
  height : Z
}.

(** [TextBlock]; its [confidence] field is named [blockConfidence]
    here. *)
Record TextBlock := {
  text : string;
  blockConfidence : Q;
  bbox : BoundingBox
}.

Definition extractTextBlocks (response : ChatCompletionResponse)
  : Thrown + list TextBlock :=
  match extractContent response with
  | inl e => inl e
  | inr content =>
      let lines := filter (λ line, JS.trim line ≠ "") (JS.split LF content) in
      inr (imap (λ index line,
                   {| text := JS.trim line;
                      blockConfidence := 0.8;
                      bbox := {| x := 0;
                                 y := Z.of_nat index * 20;
                                 width := JS.len line * 10;
                                 height := 20 |} |}) lines)
  end.

Inductive ToolType := analyze | describe | extract_text.

(** The response of [transformForTool]: the response of
    [transformVisionResponse], possibly retitled, and the two fields
    that ['extract-text'] adds to its metadata (to an empty metadata
    object when the response had none).  [total_confidence] is the mean
    of the block confidences, as an exact rational. *)
Record ToolResponse := {
  response : VisionResponse;
  extracted_text_blocks : option (list TextBlock);
  total_confidence : option Q
}.

(** The common part of the cases ['analyze'] and ['describe']. *)
Definition retitled (options : TransformOptions) (title : string)
    (baseTransformed : VisionResponse) : Thrown + ToolResponse :=
  let unchanged :=
    {| response := baseTransformed;
       extracted_text_blocks := None; total_confidence := None |} in
  if truthy (addAnalysisPrefix options) then
    match content baseTransformed with
    | first :: rest =>
        if negb (JS.startsWith first title) then
          inr {| response :=
                   {| content := (title +:+ blankLine +:+ first) :: rest;
                      metadata := metadata baseTransformed |};
                 extracted_text_blocks := None; total_confidence := None |}
        else inr unchanged
    | [] =>
        inl (ThrownError "Cannot read properties of undefined (reading 'text')" false)
    end
  else inr unchanged.

(** [transformForTool]; the options tested for the title are those of
    the call, not merged with the defaults. *)
Definition transformForTool (defaults : TransformOptions)
    (response : ChatCompletionResponse) (toolType : ToolType)
    (options : TransformOptions) (elapsed : Z) : Thrown + ToolResponse :=
  let baseTransformed := transformVisionResponse defaults response options elapsed in
  match toolType with
  | analyze => retitled options "Image Analysis:" baseTransformed
  | describe => retitled options "Image Description:" baseTransformed
  | extract_text =>
      match extractTextBlocks response with
      | inl e => inl e
      | inr textBlocks =>
          match textBlocks with
          | [] =>
              inr {| response := baseTransformed;
                     extracted_text_blocks := None; total_confidence := None |}
          | _ =>
              inr {| response := baseTransformed;
                     extracted_text_blocks := Some textBlocks;
                     total_confidence :=
                       Some (foldl (λ sum block, sum + blockConfidence block) 0 textBlocks
                             / inject_Z (Z.of_nat (length textBlocks)))%Q |}
          end
      end
  end.

End ResponseTransformer.

(** ** Vocabulary of the statements *)

(** The codes [handleError] can produce, and the statuses its [switch]
    names. *)
Definition errorCodes : list string :=
  [ "NETWORK_ERROR"; "BAD_REQUEST"; "AUTHENTICATION_ERROR"; "AUTHORIZATION_ERROR";
    "MODEL_NOT_FOUND"; "RATE_LIMITED"; "SERVER_ERROR"; "UNKNOWN_ERROR" ].

Definition mappedStatuses : list Z := [400; 401; 403; 404; 429; 500; 502; 503; 504].

Module Retry.

Import OpenRouterClient.

(** The [k]-th request fails and its classified error is retryable. *)
Definition failsRetryably (config : OpenRouterConfig) (upstream : Upstream)
    (k : nat) : Prop :=
  exists e, post config (upstream k) = inl e /\ retryable e = true.

(** The pause taken after the [k]-th request (the attempt numbered
    [k + 1]) when it failed. *)
Definition delayAfter (config : OpenRouterConfig) (upstream : Upstream)
    (k : nat) : Z :=
  match post config (upstream k) with
  | inl e => backoffDelay config e (Z.of_nat k + 1)
  | inr _ => 0
  end.

(** The backoff rule in the words of the specification: [retryAfter]
    when the error carries one, otherwise the base [retryDelay], times
    [2^(attempt-1)]. *)
Definition statedDelay (config : OpenRouterConfig) (lastError : VisionBridgeError)
    (attempt : Z) : JS.Num :=
  JS.mulNum
    (match retryAfter lastError with
     | Some present => present
     | None => default (JS.Fin 1000) (retryDelay config)
     end)
    (2 ^ (attempt - 1)).

(** The statement that every pause taken follows [statedDelay]. *)
Definition pausesAsStated (config : OpenRouterConfig) (upstream : Upstream) : Prop :=
  let r := createChatCompletion config upstream in
  forall (k : nat) (e : VisionBridgeError),
    (S k < attempts r)%nat ->
    post config (upstream k) = inl e ->
    JS.Fin <$> (delays r !! k) = Some (statedDelay config e (Z.of_nat k + 1)).

(** A provider that answers 429 with [Retry-After: 0], then succeeds. *)
Definition rateLimitedNow : AxiosError :=
  {| errMessage := "Request failed with status code 429";
     response := Some {| status := 429; errorMessage := None;
                         headers := {[ "retry-after" := "0" ]} |};
     requestModel := Some "openai/gpt-4o" |}.

Definition emptyResponse : ChatCompletionResponse :=
  {| responseId := "gen-1"; responseModel := "openai/gpt-4o";
     choices := []; usage := None |}.

Definition rateLimitedOnce : Upstream :=
  fun k => match k with
           | O => Rejects rateLimitedNow
           | S _ => Resolves emptyResponse
           end.

(** A provider that answers 500 twice, then succeeds. *)
Definition serverError : AxiosError :=
  {| errMessage := "Request failed with status code 500";
     response := Some {| status := 500; errorMessage := None; headers := ∅ |};
     requestModel := Some "openai/gpt-4o" |}.

Definition failsTwice : Upstream :=
  fun k => if (k <? 2)%nat then Rejects serverError else Resolves emptyResponse.

Definition unconfigured : OpenRouterConfig :=
  new {| apiKey := "key"; timeout := None; maxRetries := None; retryDelay := None |}.

End Retry.


Module Breaker.

Import CircuitBreaker.

(** The number of wrapped operations that failed since the last one that
    succeeded; a call the breaker turned away ran no operation and does
    not count.  [sofar] is the count before the results are read. *)
Fixpoint streak (sofar : Z) (results : list Result) : Z :=
  match results with
  | [] => sofar
  | Fulfilled :: rest => streak 0 rest
  | Rejected :: rest => streak (sofar + 1) rest
  | BreakerOpen :: rest => streak sofar rest
  end.

Definition consecutiveFailures (results : list Result) : Z := streak 0 results.

(** The breaker as [gate] leaves it when it lets a call through an open
    breaker. *)
Definition halfOpened (cb : t) : t :=
  {| failures := failures cb; lastFailureTime := lastFailureTime cb; state := half_open |}.

(** What holds of the breaker between two calls: it is open or closed
    according to its failure count. *)
Definition settled (p : Params) (cb : t) : Prop :=
  state cb = if failureThreshold p <=? failures cb then open else closed.

(** The clock reading at the last operation that failed, as the calls
    and their results tell it: a call is made [idle] after the previous
    one returned, and an operation that is invoked returns [duration]
    later.  [clock] is the reading before the calls and [last] the time
    of the last failure before them. *)
Fixpoint lastFailureAt (calls : list Call) (results : list Result) (clock last : Z) : Z :=
  match calls, results with
  | c :: calls, r :: results =>
      let called := clock + idle c in
      let returned := called + duration (operation c) in
      match r with
      | BreakerOpen => lastFailureAt calls results called last
      | Fulfilled => lastFailureAt calls results returned last
      | Rejected => lastFailureAt calls results returned returned
      end
  | _, _ => last
  end.

(** Sample data: a threshold of three failures and a cooldown of a minute;
    a call that fails after 10 ms, made 5 ms after the previous one. *)
Definition threeStrikes : Params :=
  {| failureThreshold := 3; recoveryTimeout := 60000 |}.

Definition failingCall : Call :=
  {| idle := 5; operation := {| duration := 10; resolves := false |} |}.

Definition startOfDay : World := {| now := 1000; invocations := 0 |}.

End Breaker.


Module Selection.

Import RoutingRequest.

(** The condition, in the words of the specification, under which the
    preferred model is returned with confidence 1.0: it is available, it
    supports images when the request has one, and its [maxTokens] covers
    the requested [maxTokens]. *)
Definition statedPreferredCondition (m : ModelManager.t) (request : RoutingRequest.t)
    (preferred : string) : Prop :=
  ModelManager.isModelAvailable m preferred = true /\
  (hasImage request = true -> ModelManager.imageCapable m preferred = true) /\
  (forall requested, maxTokens request = Some requested ->
                     requested <= ModelManager.tokenCapacity m preferred).

(** The selection [ModelRouter.selectModel] falls back to when its [try]
    block throws. *)
Definition lastResort (r : ModelRouter.t) : ModelSelection :=
  {| model := primary (ModelRouter.config r);
     confidence := 0.1;
     reason := "Fallback due to selection error" |}.

Definition configOf (primaryModel : string) (fallbackModels : list string) : ModelConfig :=
  {| primary := primaryModel; fallback := fallbackModels;
     defaultMaxTokens := Some 1000; defaultTemperature := Some 0.7%Q |}.

Definition plainRequest : RoutingRequest.t :=
  {| hasImage := false; requiresHighQuality := false; requiresFastResponse := false;
     maxTokens := None; preferredModel := None;
     costSensitive := false; fallbackAllowed := true |}.

(** A request with an image and nothing else. *)
Definition imageRequest : RoutingRequest.t :=
  {| hasImage := true; requiresHighQuality := false; requiresFastResponse := false;
     maxTokens := None; preferredModel := None;
     costSensitive := false; fallbackAllowed := true |}.

(** A text request of 8000 tokens that names its model. *)
Definition longRequest : RoutingRequest.t :=
  {| hasImage := false; requiresHighQuality := false; requiresFastResponse := false;
     maxTokens := Some 8000; preferredModel := Some "openai/gpt-4o";
     costSensitive := false; fallbackAllowed := true |}.

(** A deployment whose only model is not in the capability table. *)
Definition textOnly : ModelManager.t :=
  ModelManager.new (configOf "meta-llama/llama-3-70b-instruct" []).

(** A deployment whose only model is [openai/gpt-4o]. *)
Definition gpt4oOnly : ModelManager.t :=
  ModelManager.new (configOf "openai/gpt-4o" []).

Definition gpt4oRouter : ModelRouter.t :=
  ModelRouter.new (configOf "openai/gpt-4o" []) gpt4oOnly.

(** A deployment whose only model is named like the prototype
    accessor of plain objects. *)
Definition protoRouter : ModelRouter.t :=
  ModelRouter.new (configOf "__proto__" []) (ModelManager.new (configOf "__proto__" [])).

(** A deployment without any model. *)
Definition noModelRouter : ModelRouter.t :=
  ModelRouter.new (configOf "" []) (ModelManager.new (configOf "" [])).

End Selection.


Module Images.

Import ImageProcessor.

(** The log shows a call to [sharp]. *)
Definition decodes (log : list Event) : Prop :=
  exists ev, ev ∈ log /\
    match ev with
    | SharpMetadata _ | SharpToBuffer _ => True
    | HttpGet _ => False
    end.

(** The thrown value is the too-large error. *)
Definition isTooLarge (t : Thrown) : Prop :=
  match t with
  | ThrownObject e => code e = "IMAGE_TOO_LARGE"
  | ThrownError _ _ => False
  end.

(** A four-byte ceiling, and an encoder whose output is twice its input:
    re-encoding a small, already well compressed image at quality 85 is
    allowed to produce more bytes than it was given. *)
Definition tinyCeiling : Options :=
  new {| maxSize' := Some 4; allowedFormats' := None;
         quality' := None; maxDimension' := None |}.

(** The number of characters of a base64 text that are not padding. *)
Fixpoint payloadChars (s : string) : nat :=
  match s with
  | String c s' => (if Ascii.eqb c "=" then 0 else 1) + payloadChars s'
  | EmptyString => 0
  end.

Definition growingEncoder : Environment :=
  {| parseUrl := λ _, None;
     fromBase64 := λ s, repeat Byte.x00 (payloadChars s * 3 / 4);
     toBase64 := λ b, JS.join "" (repeat "AAAA" ((length b + 2) / 3));
     httpGet := λ _, inl {| failureCode := Some "ENOTFOUND"; failureStatus := None;
                            failureMessage := "getaddrinfo ENOTFOUND" |};
     sharpMetadata := λ _, inr {| width := Some 10; height := Some 10;
                                  format := Some "png" |};
     sharpToBuffer := λ b _ _ _, inr (b ++ b) |}.

(** Four bytes and eight bytes of payload. *)
Definition fourBytes : string := "data:image/png;base64,AAAAAA==".
Definition eightBytes : string := "data:image/png;base64,AAAAAAAAAAA=".

(** The five formats a data URL may declare. *)
Definition declarable : list string := ["jpeg"; "jpg"; "png"; "webp"; "gif"].



End Images.


Module Truncation.

Import ResponseTransformer.

(** The index of the last sentence or line boundary before the limit, in
    the words of the specification: the last ['.'] or line feed among the
    first [limit] characters; [-1] when there is none. *)
Definition lastBoundaryBefore (text : string) (limit : Z) : Z :=
  let head := JS.substring text 0 limit in
  Z.max (JS.lastIndexOf head ".") (JS.lastIndexOf head LF).

(** The text cut right after that boundary. *)
Definition cutAtLastBoundary (text : string) (limit : Z) : string :=
  JS.substring text 0 (lastBoundaryBefore text limit + 1).

(** The statement that the output is the text cut at its last boundary
    before the limit, followed by a marker. *)
Definition cutAsStated (text : string) (limit : Z) (output : string) : Prop :=
  exists marker, output = cutAtLastBoundary text limit +:+ marker.

(** Sixty letters, a full stop, fifty-nine further letters: 120
    characters whose only boundary is at index 60. *)
Definition oneSentence : string :=
  repeatChar 60 "a" +:+ "." +:+ repeatChar 59 "b".

(** Options that only set the limit. *)
Definition limitedTo (maxLength : Z) : TransformOptions :=
  {| includeMetadata := None; includeConfidence := None;
     includeProcessingTime := None; preserveFormatting := None;
     maxResponseLength := Some maxLength; addAnalysisPrefix := None;
     chunkSize := None; includeProgress := None |}.

(** 3949 letters, a full stop, 1050 further letters: 5000 characters
    whose 3950th is the only boundary. *)
Definition longAnswer : string :=
  repeatChar 3949 "a" +:+ "." +:+ repeatChar 1050 "b".

(** 200 characters whose only boundary is at index 119, seven tenths
    of a limit of 170; 250 characters whose only boundary is at index
    140, seven tenths of a limit of 200. *)
Definition sevenTenthsOf170 : string :=
  repeatChar 119 "a" +:+ "." +:+ repeatChar 80 "b".

Definition sevenTenthsOf200 : string :=
  repeatChar 140 "a" +:+ "." +:+ repeatChar 109 "b".

(** No carriage return. *)
Definition noCarriageReturn (s : string) : Prop :=
  ImageProcessor.allChars (λ c, negb (Ascii.eqb c CR)) s = true.

(** No three line feeds in a row; [run] is the number of line feeds
    just before [s]. *)
Fixpoint shortRuns (run : nat) (s : string) : bool :=
  match s with
  | String c s' =>
      if Ascii.eqb c LF then (run <? 2)%nat && shortRuns (S run) s'
      else shortRuns 0 s'
  | EmptyString => true
  end.

(** No two blanks (space or tab) in a row; [blank] tells whether a blank
    stands just before [s]. *)
Fixpoint singleBlanks (blank : bool) (s : string) : bool :=
  match s with
  | String c s' =>
      if Ascii.eqb c SP || Ascii.eqb c TAB then negb blank && singleBlanks true s'
      else singleBlanks false s'
  | EmptyString => true
  end.

(** A text with Windows line ends, blank lines and runs of blanks. *)
Definition untidy : string :=
  "  First   line." +:+ String CR (String LF "") +:+ blankLine +:+ String LF ""
  +:+ String TAB (String TAB "") +:+ "second line.  ".

End Truncation.


Module Streaming.

Import ResponseTransformer.

Definition deltaChunk (text : string) : StreamItem :=
  Yields {| type := delta; data := Some text; chunkError := None |}.

Definition doneChunk : StreamItem :=
  Yields {| type := done; data := None; chunkError := None |}.

(** The deltas ["Hello"], [" world"], ["."], then [done]. *)
Definition helloStream : list StreamItem :=
  [deltaChunk "Hello"; deltaChunk " world"; deltaChunk "."; doneChunk].

(** The [metadata.partial] flag of a response. *)
Definition partialFlag (r : VisionResponse) : option bool :=
  metadata r ≫= partial.

(** A single-shot response whose message is the given text. *)
Definition answer (text : string) : ChatCompletionResponse :=
  {| responseId := "gen-1"; responseModel := "openai/gpt-4o";
     choices := [ {| choiceMessage := Some (ContentString text);
                     finish_reason := Some "stop" |} ];
     usage := Some {| prompt_tokens := 900; completion_tokens := 4; total_tokens := 904 |} |}.

(** No option set by the caller. *)
Definition noOptions : TransformOptions :=
  {| includeMetadata := None; includeConfidence := None;
     includeProcessingTime := None; preserveFormatting := None;
     maxResponseLength := None; addAnalysisPrefix := None;
     chunkSize := None; includeProgress := None |}.

(** The size threshold of [shouldProcessChunk]: [options.chunkSize || 100]. *)
Definition threshold (options : TransformOptions) : Z :=
  default 100 (JS.truthyZ (chunkSize options)).

(** The text returned when the transformation fails. *)
Definition apology : string :=
  "I apologize, but I encountered an error while processing the image. Please try again.".

(** The response has no first choice, or that choice has no message. *)
Definition unreadable (response : ChatCompletionResponse) : Prop :=
  match choices response with
  | [] => True
  | choice :: _ => choiceMessage choice = None
  end.

(** The title a tool puts before its text. *)
Definition titleOf (toolType : ToolType) : string :=
  match toolType with
  | analyze => "Image Analysis:"
  | describe => "Image Description:"
  | extract_text => ""
  end.

(** The response as [transformVisionResponse] made it, nothing added. *)
Definition untouched (v : VisionResponse) : ToolResponse :=
  {| response := v; extracted_text_blocks := None; total_confidence := None |}.

(** No line feed. *)
Definition oneLine (s : string) : Prop :=
  ImageProcessor.allChars (λ c, negb (Ascii.eqb c LF)) s = true.

End Streaming.


Module Registry.

Import ModelManager.

(** A score between zero and one. *)
Definition unitInterval (q : Q) : Prop := (0 <= q)%Q /\ (q <= 1)%Q.

(** The place of a model among the known vision models; the others
    come after all of them. *)
Definition visionRank (model : string) : Z :=
  let index := indexFrom model visionPriority 0 in
  if index =? -1 then Z.of_nat (length visionPriority) else index.

(** No model of the configuration is named like a property that plain
    objects inherit. *)
Definition plainlyNamed (config : ModelConfig) : Prop :=
  forall id, id = primary config \/ id ∈ fallback config ->
             id ∉ ModelRouter.objectPrototype.

(** Router and model manager name the same models: the same primary
    and the same fallbacks. *)
Definition sameModels (r : ModelRouter.t) : Prop :=
  primary (ModelManager.config (ModelRouter.modelManager r))
  = primary (ModelRouter.config r) /\
  fallback (ModelManager.config (ModelRouter.modelManager r))
  = fallback (ModelRouter.config r).

End Registry.

(** ** The rate limiter ([integrations/openrouter/utils.ts]) *)

Module RateLimiter.

(** The result of [Math.min(...xs) + w]: [Infinity] when [xs] is empty. *)
Inductive Time := Infinity | At (ms : Z).

Definition plus (t : Time) (ms : Z) : Time :=
  match t with
  | Infinity => Infinity
  | At x => At (x + ms)
  end.

(** [Math.min(...xs)] *)
Fixpoint minimum (xs : list Z) : Time :=
  match xs with
  | [] => Infinity
  | x :: rest =>
      match minimum rest with
      | Infinity => At x
      | At y => At (Z.min x y)
      end
  end.

Record t := {
  maxRequests : Z;
  windowMs : Z;
  requests : gmap string (list Z)
}.

Definition new (maxRequests windowMs : Z) : t :=
  {| maxRequests := maxRequests; windowMs := windowMs; requests := ∅ |}.

Record Answer := {
  allowed : bool;
  remaining : Z;
  resetTime : Time
}.

(** [this.requests.get(clientId) || []] *)
Definition clientRequests (l : t) (clientId : string) : list Z :=
  default [] (requests l !! clientId).

(** [clientRequests.filter(time => now - time < this.windowMs)] *)
Definition validRequests (l : t) (clientId : string) (now : Z) : list Z :=
  filter (λ time, now - time < windowMs l) (clientRequests l clientId).

(** [isAllowed]; [now] is the reading of [Date.now()]. *)
Definition isAllowed (l : t) (clientId : string) (now : Z) : Answer * t :=
  let validRequests := validRequests l clientId now in
  if maxRequests l <=? Z.of_nat (length validRequests) then
    ({| allowed := false;
        remaining := 0;
        resetTime := plus (minimum validRequests) (windowMs l) |}, l)
  else
    let validRequests := validRequests ++ [now] in
    ({| allowed := true;
        remaining := maxRequests l - Z.of_nat (length validRequests);
        resetTime := At (now + windowMs l) |},
     {| maxRequests := maxRequests l; windowMs := windowMs l;
        requests := <[clientId := validRequests]> (requests l) |}).

Definition getRemainingRequests (l : t) (clientId : string) (now : Z) : Z :=
  Z.max 0 (maxRequests l - Z.of_nat (length (validRequests l clientId now))).

Definition reset (l : t) (clientId : string) : t :=
  {| maxRequests := maxRequests l; windowMs := windowMs l;
     requests := delete clientId (requests l) |}.

Definition clear (l : t) : t :=
  {| maxRequests := maxRequests l; windowMs := windowMs l; requests := ∅ |}.

(** A series of [isAllowed] calls on the same limiter, each with the
    clock reading at the time, and the answers given. *)
Fixpoint serve (l : t) (calls : list (string * Z)) : list (string * Z * Answer) * t :=
  match calls with
  | [] => ([], l)
  | (clientId, now) :: rest =>
      let '(answer, l) := isAllowed l clientId now in
      let '(log, l) := serve l rest in
      ((clientId, now, answer) :: log, l)
  end.

End RateLimiter.

Module Limits.

Import RateLimiter.

(** The clock never goes back. *)
Fixpoint nondecreasing (readings : list Z) : Prop :=
  match readings with
  | a :: rest =>
      match rest with
      | b :: _ => a <= b /\ nondecreasing rest
      | [] => True
      end
  | [] => True
  end.

(** The times at which the client was let through. *)
Fixpoint granted (clientId : string) (log : list (string * Z * Answer)) : list Z :=
  match log with
  | [] => []
  | (c, time, answer) :: rest =>
      if bool_decide (c = clientId) && allowed answer
      then time :: granted clientId rest
      else granted clientId rest
  end.

(** Those that lie less than [windowMs] before [now]. *)
Definition within (windowMs now : Z) (times : list Z) : list Z :=
  filter (λ time, now - time < windowMs) times.

(** [t] is earlier than the reset time announced. *)
Definition earlier (t : Z) (reset : Time) : Prop :=
  match reset with
  | Infinity => True
  | At r => t < r
  end.

(** Two requests a second, and a client that asks three times. *)
Definition twoPerSecond : t := new 2 1000.

Definition threeAtOnce : list (string * Z) := [("a", 0); ("a", 10); ("a", 20)].

(** The limiter after the first two of them. *)
Definition usedUp : t := snd (serve twoPerSecond [("a", 0); ("a", 10)]).

End Limits.

(** ** The retry decorator ([withRetry] of [integrations/openrouter/utils.ts]) *)

Module Retrying.

Section WithRetry.

(** The values the decorated function throws and returns. *)
Context {E R : Type}.

Record Options := {
  maxRetries : option Z;
  delay : option Z;
  backoff : option Z;
  retryCondition : option (E -> bool)
}.

(** [fn(...args)]: how its [k]-th call (counted from 0) settles. *)
Definition Operation := nat -> E + R.

(** What a call of the decorated function did: the value returned
    ([inr]) or thrown ([inl], [None] standing for [undefined]), the
    number of calls of [fn], and the successive waiting times. *)
Record Run := {
  outcome : option E + R;
  attempts : nat;
  waits : list Z
}.

(** The [for (let attempt = 1; attempt <= maxRetries + 1; attempt++)]
    loop.  [remaining] is the number of iterations for which the guard
    still holds; [calls] counts the calls of [fn] so far. *)
Fixpoint attemptLoop (fn : Operation) (maxRetries delay backoff : Z)
    (retryCondition : E -> bool) (remaining : nat) (attempt : Z) (calls : nat)
    (waited : list Z) (lastError : option E) : Run :=
  match remaining with
  | O => {| outcome := inl lastError; attempts := calls; waits := waited |}
  | S remaining' =>
      match fn calls with
      | inr result => {| outcome := inr result; attempts := S calls; waits := waited |}
      | inl error =>
          if (maxRetries <? attempt) || negb (retryCondition error) then
            {| outcome := inl (Some error); attempts := S calls; waits := waited |}
          else
            let waitTime := delay * backoff ^ (attempt - 1) in
            attemptLoop fn maxRetries delay backoff retryCondition remaining'
                        (attempt + 1) (S calls) (waited ++ [waitTime]) (Some error)
      end
  end.

(** The destructuring defaults apply to missing fields only. *)
Definition withRetry (fn : Operation) (options : Options) : Run :=
  let maxRetries := default 3 (maxRetries options) in
  let delay := default 1000 (delay options) in
  let backoff := default 2 (backoff options) in
  let retryCondition := default (λ _, true) (retryCondition options) in
  attemptLoop fn maxRetries delay backoff retryCondition
              (Z.to_nat (maxRetries + 1)) 1 0 [] None.

End WithRetry.

Arguments Options : clear implicits.
Arguments Operation : clear implicits.
Arguments Run : clear implicits.

End Retrying.

(** ** [OpenRouterClient.streamChatCompletion] *)

Module ChatStream.

Import ResponseTransformer.

(** How one streaming request settles: [axios] rejects, and the response
    interceptor turns the rejection into [handleError(error)]; or the
    request is answered by a body that delivers its chunks and then
    ends, or fails with an error, given by its message and by whether
    it has a [code] property. *)
Inductive Body :=
| Refused (rejection : OpenRouterClient.AxiosError)
| Delivers (chunks : list string) (failure : option (string * bool)).

Definition Upstream := nat -> Body.

Definition deltaChunk (content : string) : StreamChunk :=
  {| type := delta; data := Some content; chunkError := None |}.

Definition doneChunk : StreamChunk :=
  {| type := done; data := None; chunkError := None |}.

Definition errorChunk (message : string) : StreamChunk :=
  {| type := error; data := None; chunkError := Some message |}.

Section Reading.

(** [JSON.parse(data).choices?.[0]?.delta?.content]: [None] when
    [JSON.parse] or the property access throws, or when the property is
    missing. *)
Variable content : string -> option string.

(** The [for (const line of lines)] loop: what it yields, and whether it
    returned on [[DONE]]. *)
Fixpoint readLines (lines : list string) : list StreamChunk * bool :=
  match lines with
  | [] => ([], false)
  | line :: rest =>
      if JS.startsWith line "data: " then
        let data := JS.drop 6 line in
        if String.eqb data "[DONE]" then ([doneChunk], true)
        else
          let '(yielded, returned) := readLines rest in
          match JS.truthyStr (content data) with
          | Some content => (deltaChunk content :: yielded, returned)
          | None => (yielded, returned)
          end
      else readLines rest
  end.

(** The [for await (const chunk of stream)] loop, over the chunks the
    body delivers. *)
Fixpoint readChunks (chunks : list string) : list StreamChunk * bool :=
  match chunks with
  | [] => ([], false)
  | chunk :: rest =>
      let '(yielded, returned) := readLines (JS.split LF chunk) in
      if returned then (yielded, true)
      else
        let '(more, returned) := readChunks rest in
        (yielded ++ more, returned)
  end.

(** What the generator did: the chunks it yielded, the value it threw
    at the end if any, the number of requests sent and the pauses taken. *)
Record Run := {
  yielded : list StreamChunk;
  thrown : option Thrown;
  attempts : nat;
  delays : list Z
}.

(** The [for (let attempt = 1; attempt <= maxRetries; attempt++)] loop
    and the two statements after it. *)
Fixpoint attemptLoop (config : OpenRouterClient.OpenRouterConfig) (upstream : Upstream)
    (maxRetries : Z) (remaining : nat) (attempt : Z) (calls : nat)
    (slept : list Z) (lastError : option VisionBridgeError) : Run :=
  match remaining with
  | O =>
      match lastError with
      | Some lastError =>
          {| yielded := [errorChunk (message lastError)];
             thrown := Some (ThrownObject lastError);
             attempts := calls; delays := slept |}
      | None =>
          (* [lastError!.message] on [undefined] *)
          {| yielded := [];
             thrown := Some (ThrownError
                               "Cannot read properties of undefined (reading 'message')"
                               false);
             attempts := calls; delays := slept |}
      end
  | S remaining' =>
      match upstream calls with
      | Delivers chunks failure =>
          let '(deltas, returned) := readChunks chunks in
          if returned then
            {| yielded := deltas; thrown := None; attempts := S calls; delays := slept |}
          else
            match failure with
            | None =>
                {| yielded := deltas ++ [doneChunk]; thrown := None;
                   attempts := S calls; delays := slept |}
            | Some (message, hasCode) =>
                (* an error of the body has no [retryable] property *)
                {| yielded := deltas ++ [errorChunk message];
                   thrown := Some (ThrownError message hasCode);
                   attempts := S calls; delays := slept |}
            end
      | Refused rejection =>
          let lastError := OpenRouterClient.handleError config rejection in
          if negb (retryable lastError) || (attempt =? maxRetries) then
            {| yielded := [errorChunk (message lastError)];
               thrown := Some (ThrownObject lastError);
               attempts := S calls; delays := slept |}
          else
            let delay := OpenRouterClient.backoffDelay config lastError attempt in
            attemptLoop config upstream maxRetries remaining' (attempt + 1)
                        (S calls) (slept ++ [delay]) (Some lastError)
      end
  end.

Definition streamChatCompletion (config : OpenRouterClient.OpenRouterConfig)
    (upstream : Upstream) : Run :=
  let maxRetries := OpenRouterClient.effectiveMaxRetries config in
  attemptLoop config upstream maxRetries (Z.to_nat maxRetries) 1 0 [] None.

(** The generator as the consumer sees it: the chunks yielded, then the
    exception. *)
Definition items (run : Run) : list StreamItem :=
  map Yields (yielded run)
  ++ match thrown run with
     | Some e => [Throws (thrownMessage e)]
     | None => []
     end.

End Reading.

(** A chunk that carries text. *)
Definition carriesText (chunk : StreamChunk) : Prop :=
  type chunk = delta /\ exists text, data chunk = Some text /\ text <> "".

(** The request numbered [j] was refused with an error that allows a
    retry. *)
Definition refusedRetryably (config : OpenRouterClient.OpenRouterConfig)
    (upstream : Upstream) (j : nat) : Prop :=
  exists rejection,
    upstream j = Refused rejection /\
    retryable (OpenRouterClient.handleError config rejection) = true.

(** The message with which the transformer reports an [error] chunk:
    [chunk.error || 'Streaming error occurred']. *)
Definition reported (message : string) : VisionResponse :=
  createErrorResponse (default "Streaming error occurred" (JS.truthyStr (Some message))).

(** A body that is cut after its first line, behind a provider that
    first answers 500. *)
Definition cutBody : Upstream :=
  fun k => match k with
           | O => Refused Retry.serverError
           | S _ => Delivers ["data: hello" +:+ String LF "data: world"]
                             (Some ("socket hang up", true))
           end.

(** A reader of [data:] lines that takes the text of the line as the
    content. *)
Definition plainText : string -> option string := Some.

End ChatStream.

(** ** [sanitizeForLogging] ([integrations/openrouter/utils.ts]) *)

Module Logging.

(** The values handed to the logger: primitives (for which [typeof] is
    not ['object']), [null], arrays and plain objects, an object being
    the list of its entries in the order of [Object.entries]. *)
Inductive Primitive :=
| Str (s : string)
| Number (n : Z)
| Boolean (b : bool)
| Undefined.

Local Unset Elimination Schemes.

Inductive Value :=
| Prim (p : Primitive)
| Null
| Array (items : list Value)
| Object (entries : list (string * Value)).

Local Set Elimination Schemes.

Definition sensitiveKeys : list string :=
  ["apiKey"; "password"; "token"; "secret"; "key"; "authorization"].

(** [sensitiveKeys.some(sensitive => key.toLowerCase().includes(sensitive))] *)
Definition isSensitive (key : string) : bool :=
  existsb (λ sensitive, JS.includes (JS.toLowerCase key) sensitive) sensitiveKeys.

Definition REDACTED : Value := Prim (Str "[REDACTED]").

(** [sanitizeForLogging].  A value stands for its own entries, which is
    what [Object.entries] and the logger read.  The keys of an array
    are its indices, which contain no letter, so that its items are
    never redacted as such.  The assignment [sanitized[key] = ...] with
    the key ["__proto__"] adds no entry: it calls the setter that
    [sanitized] inherits, which makes an object or [null] the prototype
    of [sanitized] and ignores any other value; prototypes are not part
    of a [Value]. *)
Fixpoint sanitizeForLogging (data : Value) : Value :=
  match data with
  | Prim _ | Null => data
  | Array items =>
      Array (map (λ value,
                    match value with
                    | Prim _ => value
                    | _ => sanitizeForLogging value
                    end) items)
  | Object entries =>
      Object (filter (λ entry, fst entry ≠ "__proto__")
                (map (λ entry,
                        match entry with
                        | (key, value) =>
                            if isSensitive key then (key, REDACTED)
                            else match value with
                                 | Prim _ => (key, value)
                                 | _ => (key, sanitizeForLogging value)
                                 end
                        end) entries))
  end.

(** No entry, at any depth, has a sensitive key and a value other than
    the redaction mark. *)
Fixpoint redacted (data : Value) : bool :=
  match data with
  | Prim _ | Null => true
  | Array items => forallb redacted items
  | Object entries =>
      forallb (λ entry,
                 match entry with
                 | (key, value) =>
                     if isSensitive key
                     then match value with
                          | Prim (Str "[REDACTED]") => true
                          | _ => false
                          end
                     else redacted value
                 end) entries
  end.

(** No object, at any depth, has an own key ["__proto__"]. *)
Fixpoint withoutPrototypeKey (data : Value) : bool :=
  match data with
  | Prim _ | Null => true
  | Array items => forallb withoutPrototypeKey items
  | Object entries =>
      forallb (λ entry,
                 match entry with
                 | (key, value) =>
                     bool_decide (key ≠ "__proto__") && withoutPrototypeKey value
                 end) entries
  end.

(** The keys of an object, in order; the indices of an array are not
    listed. *)
Definition keys (data : Value) : list string :=
  match data with
  | Object entries => map fst entries
  | _ => []
  end.

(** Induction on values, through the items of arrays and the entries of
    objects. *)
Section Induction.

Variable P : Value -> Prop.
Hypothesis onPrim : forall p, P (Prim p).
Hypothesis onNull : P Null.
Hypothesis onArray : forall items, Forall P items -> P (Array items).
Hypothesis onObject :
  forall entries, Forall (λ entry, P (snd entry)) entries -> P (Object entries).

Fixpoint Value_induction (data : Value) : P data :=
  match data with
  | Prim p => onPrim p
  | Null => onNull
  | Array items =>
      onArray items
        ((fix all (l : list Value) : Forall P l :=
            match l with
            | [] => List.Forall_nil P
            | value :: rest =>
                @List.Forall_cons _ P value rest (Value_induction value) (all rest)
            end) items)
  | Object entries =>
      onObject entries
        ((fix all (l : list (string * Value)) : Forall (λ entry, P (snd entry)) l :=
            match l with
            | [] => List.Forall_nil _
            | (key, value) :: rest =>
                @List.Forall_cons _ (λ entry, P (snd entry)) (key, value) rest
                                  (Value_induction value) (all rest)
            end) entries)
  end.

End Induction.

End Logging.

(** ** [formatMessages] ([integrations/openrouter/utils.ts]) *)

Module Messages.

Inductive Role := user | assistant | system.

Record ChatMessage := {
  role : Role;
  content : MessageContent
}.


(** The texts of a message: its string content, or the [text] fields of
    its text parts. *)
Definition texts (message : ChatMessage) : list string :=
  match content message with
  | ContentString s => [s]
  | ContentArray parts =>
      omap (λ part, match part with TextPart text => text | ImagePart _ => None end) parts
  | ContentOther => []
  end.

(** The image URLs of a message. *)
Definition images (message : ChatMessage) : list string :=
  match content message with
  | ContentArray parts =>
      omap (λ part, match part with ImagePart url => Some url | TextPart _ => None end) parts
  | _ => []
  end.

(** No white space at either end. *)
Definition trimmed (s : string) : Prop :=
  (forall c rest, s = String c rest -> JS.isWhiteSpace c = false) /\
  (forall front c, s = front +:+ String c EmptyString -> JS.isWhiteSpace c = false).

End Messages.

(** ** [validateImageSize] ([integrations/openrouter/utils.ts]) *)

Module ImageSize.

Record SizeValidation := {
  valid : bool;
  size : option Z;
  error : option string
}.

(** The value the promise resolves with. *)
Definition validateImageSize (imageUrl : string) (maxSize : Z) : SizeValidation :=
  if negb (JS.startsWith imageUrl "http://") && negb (JS.startsWith imageUrl "https://") then
    let base64Size :=
      JS.ceilThreeQuarters (JS.len imageUrl - JS.indexOf imageUrl "," - 1) in
    {| valid := base64Size <=? maxSize;
       size := Some base64Size;
       error :=
         if maxSize <? base64Size
         then Some ("Image size (" +:+ JS.showZ base64Size +:+ " bytes) exceeds limit ("
                    +:+ JS.showZ maxSize +:+ " bytes)")
         else None |}
  else {| valid := true; size := None; error := None |}.

End ImageSize.

(** ** The tool handlers ([server/mcp-server.ts]) *)

Module MCPVisionServer.

(** [modelSelection.model] *)
Definition selectedModel (modelSelection : ModelSelection) : string :=
  model modelSelection.


Record ChatCompletionRequest := {
  requestModel : string;
  messages : list Messages.ChatMessage;
  requestMaxTokens : option Z;        (* the [max_tokens] field *)
  requestTemperature : option Q       (* the [temperature] field *)
}.

(** The components of the server and what they talk to: the image
    processor with its collaborators, the model router, the client and
    the provider behind it, which answers a request attempt by attempt. *)
Record Server := {
  models : ModelConfig;                                  (* [this.config.models] *)
  images : ImageProcessor.Environment;
  imageOptions : ImageProcessor.Options;
  modelRouter : ModelRouter.t;
  openRouter : OpenRouterClient.OpenRouterConfig;
  provider : ChatCompletionRequest -> OpenRouterClient.Upstream
}.

(** What a handler did: the value it returned or threw ([inl None] for
    [undefined]), the router afterwards, the calls made for the image,
    and the request sent with the run of the client. *)
Record Handled := {
  outcome : option Thrown + ResponseTransformer.ToolResponse;
  routerAfter : ModelRouter.t;
  imageCalls : list ImageProcessor.Event;
  exchange : option (ChatCompletionRequest * OpenRouterClient.Run)
}.

(** [createError]: a plain object. *)
Definition createError (code message : string) : Thrown :=
  ThrownObject {| code := code; message := message;
                  retryable := false; retryAfter := None |}.






(** The routing request [{ hasImage: true, ... }]. *)
Definition imageRequest (requiresHighQuality : bool) (maxTokens : option Z)
    (preferredModel : option string) : RoutingRequest.t :=
  {| RoutingRequest.hasImage := true;
     RoutingRequest.requiresHighQuality := requiresHighQuality;
     RoutingRequest.requiresFastResponse := false;
     RoutingRequest.maxTokens := maxTokens;
     RoutingRequest.preferredModel := preferredModel;
     RoutingRequest.costSensitive := false;
     RoutingRequest.fallbackAllowed := false |}.



(** A handler that throws before anything else happens. *)
Definition rejected (s : Server) (thrown : Thrown) : Handled :=
  {| outcome := inl (Some thrown); routerAfter := modelRouter s;
     imageCalls := []; exchange := None |}.






End MCPVisionServer.

Module Calls.

Import MCPVisionServer.






End Calls.

(** ** The request tracker ([integrations/openrouter/utils.ts]) *)

Module RequestTracker.

Record Tokens := {
  prompt : Z;
  completion : Z;
  total : Z
}.

Record RequestMetrics := {
  startTime : Z;
  endTime : option Z;
  tokens : option Tokens;
  model : option string;
  success : option bool;
  error : option string
}.

(** The [metrics] map.  Only lookups by id are modelled, not the order
    of [getAllMetrics]. *)
Definition t := gmap string RequestMetrics.

Definition new : t := ∅.





End RequestTracker.

(** * Properties *)

(** ** Error classification *)

Section Classification.

Import OpenRouterClient.

Lemma unmapped_status (s : Z) :
  s ∉ mappedStatuses ->
  (s =? 400) = false /\ (s =? 401) = false /\ (s =? 403) = false /\
  (s =? 404) = false /\ (s =? 429) = false /\ (s =? 500) = false /\
  (s =? 502) = false /\ (s =? 503) = false /\ (s =? 504) = false.
Proof.
  intros H. repeat split; apply Z.eqb_neq; intros ->; apply H;
    apply list_elem_of_In; cbn; tauto.
Qed.

Lemma server_status (s : Z) :
  s ∈ [500; 502; 503; 504] -> s = 500 \/ s = 502 \/ s = 503 \/ s = 504.
Proof. intros H. apply list_elem_of_In in H. cbn in H. intuition congruence. Qed.

Lemma code_listed (c : string) : In c errorCodes -> c ∈ errorCodes.
Proof. apply list_elem_of_In. Qed.

End Classification.

(** C7. [handleError] is a function from every failure axios can report
    to one of eight error codes: a failure without a response is
    [NETWORK_ERROR] and retryable; 400, 401, 403 and 404 map to four
    non-retryable codes; 429 maps to [RATE_LIMITED], retryable, with
    [retryAfter] equal to a thousand times the integer read from the
    [retry-after] header (60 when the header is missing or empty); 500,
    502, 503 and 504 map to [SERVER_ERROR], retryable; any other status
    maps to [UNKNOWN_ERROR], retryable exactly when the status is at
    least 500. *)
Theorem handleError_classifies_every_failure
    (config : OpenRouterClient.OpenRouterConfig) (error : OpenRouterClient.AxiosError) :
  let e := OpenRouterClient.handleError config error in
  code e ∈ errorCodes /\
  match OpenRouterClient.response error with
  | None => code e = "NETWORK_ERROR" /\ retryable e = true
  | Some r =>
      let s := OpenRouterClient.status r in
      (s = 400 -> code e = "BAD_REQUEST" /\ retryable e = false) /\
      (s = 401 -> code e = "AUTHENTICATION_ERROR" /\ retryable e = false) /\
      (s = 403 -> code e = "AUTHORIZATION_ERROR" /\ retryable e = false) /\
      (s = 404 -> code e = "MODEL_NOT_FOUND" /\ retryable e = false) /\
      (s = 429 ->
         code e = "RATE_LIMITED" /\ retryable e = true /\
         retryAfter e =
           Some (JS.mulNum
                   (JS.parseInt
                      (default "60"
                         (JS.truthyStr (OpenRouterClient.headers r !! "retry-after"))))
                   1000)) /\
      (s ∈ [500; 502; 503; 504] -> code e = "SERVER_ERROR" /\ retryable e = true) /\
      (s ∉ mappedStatuses ->
         code e = "UNKNOWN_ERROR" /\ retryable e = (500 <=? s))
  end.
Proof.
  unfold OpenRouterClient.handleError.
  destruct (OpenRouterClient.response error) as [r|]; cbn zeta.
  2: { split; [apply code_listed; cbn; tauto | done]. }
  set (s := OpenRouterClient.status r).
  split.
  - repeat (match goal with
            | |- context [if ?b then _ else _] => destruct b
            end; [apply code_listed; cbn; tauto |]).
    apply code_listed; cbn; tauto.
  - repeat split;
      match goal with
      | H : s = _ |- _ => rewrite H; reflexivity
      | H : s ∈ _ |- _ =>
          apply server_status in H;
          destruct H as [H | [H | [H | H]]]; rewrite H; reflexivity
      | H : s ∉ mappedStatuses |- _ =>
          apply unmapped_status in H;
          destruct H as (H1 & H2 & H3 & H4 & H5 & H6 & H7 & H8 & H9);
          rewrite H1, H2, H3, H4, H5, H6, H7, H8, H9; reflexivity
      end.
Qed.

(** ** The retry loop *)

Section RetryLoop.

Import OpenRouterClient Retry.

Variable config : OpenRouterConfig.
Variable upstream : Upstream.
Variable N : Z.

(** One iteration of the loop. *)
Lemma attemptLoop_step (remaining : nat) (attempt : Z) (c : nat) (slept : list Z)
    (lastError : option VisionBridgeError) :
  attemptLoop config upstream N (S remaining) attempt c slept lastError =
  match post config (upstream c) with
  | inr data => {| outcome := inr data; attempts := S c; delays := slept |}
  | inl e =>
      if negb (retryable e) || (attempt =? N) then
        {| outcome := inl (Some e); attempts := S c; delays := slept |}
      else
        attemptLoop config upstream N remaining (attempt + 1) (S c)
                    (slept ++ [backoffDelay config e attempt]) (Some e)
  end.
Proof. reflexivity. Qed.

(** Where the loop stops, for a loop entered with its guard true. *)
Lemma attemptLoop_stops (remaining c : nat) (slept : list Z)
    (lastError : option VisionBridgeError) :
  Z.of_nat (S remaining) = N - Z.of_nat c ->
  let r := attemptLoop config upstream N (S remaining) (Z.of_nat c + 1) c slept lastError in
  exists k : nat,
    (c <= k)%nat /\ Z.of_nat (S k) <= N /\
    attempts r = S k /\
    (forall j, (c <= j < k)%nat -> failsRetryably config upstream j) /\
    delays r = slept ++ map (delayAfter config upstream) (seq c (k - c)) /\
    match post config (upstream k) with
    | inr data => outcome r = inr data
    | inl e => outcome r = inl (Some e) /\ (retryable e = false \/ Z.of_nat (S k) = N)
    end.
Proof.
  revert c slept lastError.
  induction remaining as [|remaining IH]; intros c slept lastError Hrem r; subst r;
    rewrite attemptLoop_step; destruct (post config (upstream c)) as [e|data] eqn:Hpost.
  - (* last permitted attempt, failed *)
    replace (Z.of_nat c + 1 =? N) with true by (symmetry; apply Z.eqb_eq; lia).
    rewrite orb_true_r. exists c. cbn [attempts delays outcome].
    rewrite Nat.sub_diag, Hpost. cbn [seq map]. rewrite app_nil_r.
    repeat split; lia.
  - exists c. cbn [attempts delays outcome].
    rewrite Nat.sub_diag, Hpost. cbn [seq map]. rewrite app_nil_r. repeat split; lia.
  - destruct (retryable e) eqn:Hretry; cbn [negb orb].
    + replace (Z.of_nat c + 1 =? N) with false by (symmetry; apply Z.eqb_neq; lia).
      replace (Z.of_nat c + 1 + 1) with (Z.of_nat (S c) + 1) by lia.
      destruct (IH (S c) (slept ++ [backoffDelay config e (Z.of_nat c + 1)]) (Some e))
        as (k & Hk & HkN & Hatt & Hfail & Hdel & Hout); [lia|].
      exists k. repeat split; try lia; try assumption.
      * intros j Hj. destruct (decide (j = c)) as [->|Hne].
        -- exists e. done.
        -- apply Hfail. lia.
      * rewrite Hdel, <- app_assoc. f_equal.
        replace (k - c)%nat with (S (k - S c)) by lia.
        cbn [seq map app]. unfold delayAfter at 2. by rewrite Hpost.
    + exists c. cbn [attempts delays outcome].
    rewrite Nat.sub_diag, Hpost. cbn [seq map]. rewrite app_nil_r.
      repeat split; try lia. left; exact Hretry.
  - exists c. cbn [attempts delays outcome].
    rewrite Nat.sub_diag, Hpost. cbn [seq map]. rewrite app_nil_r. repeat split; lia.
Qed.

(** The stopping attempt is the first one that does not fail retryably,
    capped by the attempt limit. *)
Lemma stop_unique (k k' : nat) :
  (forall j, (j < k)%nat -> failsRetryably config upstream j) ->
  (forall j, (j < k')%nat -> failsRetryably config upstream j) ->
  Z.of_nat (S k) <= N -> Z.of_nat (S k') <= N ->
  match post config (upstream k) with
  | inr _ => True
  | inl e => retryable e = false \/ Z.of_nat (S k) = N
  end ->
  match post config (upstream k') with
  | inr _ => True
  | inl e => retryable e = false \/ Z.of_nat (S k') = N
  end ->
  k = k'.
Proof.
  intros Hk Hk' HN HN' Hstop Hstop'.
  destruct (Nat.lt_trichotomy k k') as [Hlt | [-> | Hlt]]; [|done|].
  - destruct (Hk' k Hlt) as (e & He & Hr). rewrite He in Hstop.
    destruct Hstop; [congruence | lia].
  - destruct (Hk k' Hlt) as (e & He & Hr). rewrite He in Hstop'.
    destruct Hstop'; [congruence | lia].
Qed.

End RetryLoop.

(** The base of the backoff: the error's [retryAfter] unless it is
    missing, [NaN] or zero; then the configured [retryDelay] unless it is
    missing, [NaN] or zero; then 1000. *)
Lemma backoffDelay_base (config : OpenRouterClient.OpenRouterConfig)
    (e : VisionBridgeError) (attempt : Z) :
  OpenRouterClient.backoffDelay config e attempt =
  match JS.truthyNum (retryAfter e), JS.truthyNum (OpenRouterClient.retryDelay config) with
  | Some after, _ => after
  | None, Some base => base
  | None, None => 1000
  end * 2 ^ (attempt - 1).
Proof.
  unfold OpenRouterClient.backoffDelay.
  destruct (JS.truthyNum (retryAfter e)), (JS.truthyNum (OpenRouterClient.retryDelay config));
    reflexivity.
Qed.

(** The scenario of the specification: two 500 answers, then a success. *)
Example retry_after_two_server_errors :
  let r := OpenRouterClient.createChatCompletion Retry.unconfigured Retry.failsTwice in
  OpenRouterClient.outcome r = inr Retry.emptyResponse /\
  OpenRouterClient.attempts r = 3%nat /\
  OpenRouterClient.delays r = [1000; 2000].
Proof. repeat split; vm_compute; reflexivity. Qed.

(** A configured [maxRetries] of zero is replaced by three. *)
Example zero_maxRetries_means_three :
  let config := OpenRouterClient.new
                  {| OpenRouterClient.apiKey := "key";
                     OpenRouterClient.timeout := None;
                     OpenRouterClient.maxRetries := Some (JS.Fin 0);
                     OpenRouterClient.retryDelay := None |} in
  OpenRouterClient.attempts
    (OpenRouterClient.createChatCompletion config (fun _ => OpenRouterClient.Rejects Retry.serverError))
  = 3%nat.
Proof. vm_compute. reflexivity. Qed.

(** C2, as stated, fails: a 429 answer carrying [Retry-After: 0] is
    classified with [retryAfter = 0], which is present, yet the pause
    taken before the second attempt is the base delay of 1000 ms and not
    [0 * 2^0]. *)
Lemma retry_pause_not_as_stated :
  retryAfter (OpenRouterClient.handleError Retry.unconfigured Retry.rateLimitedNow)
    = Some (JS.Fin 0) /\
  OpenRouterClient.delays
    (OpenRouterClient.createChatCompletion Retry.unconfigured Retry.rateLimitedOnce)
    = [1000] /\
  ~ Retry.pausesAsStated Retry.unconfigured Retry.rateLimitedOnce.
Proof.
  split; [vm_compute; reflexivity|].
  split; [vm_compute; reflexivity|].
  intros H.
  specialize (H 0%nat _ ltac:(vm_compute; lia) eq_refl).
  vm_compute in H. discriminate H.
Qed.

(** C2, amended. [createChatCompletion] sends at most [N] requests, where
    [N] is the configured [maxRetries], or 3 when that is missing or
    zero.  A request is followed by another one only when it failed with
    a retryable error, and then after a pause of [backoffDelay]: the
    error's [retryAfter] (the configured [retryDelay] when that is
    missing or zero, 1000 when both are) times [2^(attempt-1)].  The
    first success is returned, the first non-retryable error is thrown
    with no further request, and the error of the [N]-th request is
    thrown whatever it is. *)
Theorem createChatCompletion_retry_policy
    (config : OpenRouterClient.OpenRouterConfig) (upstream : OpenRouterClient.Upstream) :
  let N := OpenRouterClient.effectiveMaxRetries config in
  let r := OpenRouterClient.createChatCompletion config upstream in
  let earlierFailRetryably (k : nat) :=
    forall j, (j < k)%nat -> Retry.failsRetryably config upstream j in
  Z.of_nat (OpenRouterClient.attempts r) <= Z.max 0 N /\
  length (OpenRouterClient.delays r) = pred (OpenRouterClient.attempts r) /\
  (forall k, (S k < OpenRouterClient.attempts r)%nat ->
     exists e, OpenRouterClient.post config (upstream k) = inl e /\
               retryable e = true /\
               OpenRouterClient.delays r !! k
                 = Some (OpenRouterClient.backoffDelay config e (Z.of_nat k + 1))) /\
  (forall k data, Z.of_nat k < N -> earlierFailRetryably k ->
     OpenRouterClient.post config (upstream k) = inr data ->
     OpenRouterClient.outcome r = inr data /\ OpenRouterClient.attempts r = S k) /\
  (forall k e, Z.of_nat k < N -> earlierFailRetryably k ->
     OpenRouterClient.post config (upstream k) = inl e -> retryable e = false ->
     OpenRouterClient.outcome r = inl (Some e) /\ OpenRouterClient.attempts r = S k) /\
  (forall k e, Z.of_nat (S k) = N -> earlierFailRetryably k ->
     OpenRouterClient.post config (upstream k) = inl e ->
     OpenRouterClient.outcome r = inl (Some e) /\ OpenRouterClient.attempts r = S k).
Proof.
  intros N r earlier.
  destruct (Z_le_gt_dec N 0) as [Hle | Hgt].
  - (* the guard fails at once *)
    assert (Hr : r = {| OpenRouterClient.outcome := inl None;
                        OpenRouterClient.attempts := 0;
                        OpenRouterClient.delays := [] |}).
    { subst r. unfold OpenRouterClient.createChatCompletion. fold N.
      replace (Z.to_nat N) with 0%nat by lia. reflexivity. }
    rewrite Hr. cbn. repeat split; intros; lia.
  - destruct (Z.to_nat N) as [|remaining] eqn:HN; [lia|].
    destruct (attemptLoop_stops config upstream N remaining 0 [] None ltac:(lia))
      as (k & _ & HkN & Hatt & Hfail & Hdel & Hout).
    change (OpenRouterClient.attemptLoop config upstream N (S remaining) (Z.of_nat 0 + 1) 0 [] None)
      with (OpenRouterClient.attemptLoop config upstream N (S remaining) 1 0 [] None)
      in Hatt, Hdel, Hout.
    assert (Hr : r = OpenRouterClient.attemptLoop config upstream N (S remaining) 1 0 [] None).
    { subst r. unfold OpenRouterClient.createChatCompletion. fold N. by rewrite HN. }
    rewrite <- Hr in Hatt, Hdel, Hout. clear Hr HN.
    rewrite Nat.sub_0_r in Hdel. cbn [app] in Hdel.
    assert (Hearly : earlier k) by (intros j Hj; apply Hfail; lia).
    assert (Hstop : match OpenRouterClient.post config (upstream k) with
                    | inl e => retryable e = false \/ Z.of_nat (S k) = N
                    | inr _ => True
                    end).
    { destruct (OpenRouterClient.post config (upstream k)); [tauto | exact I]. }
    split; [lia|].
    split; [rewrite Hdel, Hatt, length_map, length_seq; reflexivity|].
    split; [|split; [|split]].
    + intros j Hj. rewrite Hatt in Hj.
      destruct (Hfail j ltac:(lia)) as (e & He & Hretry).
      exists e. split; [exact He|]. split; [exact Hretry|].
      rewrite Hdel, list_lookup_fmap, lookup_seq_lt by lia.
      cbn. unfold Retry.delayAfter. by rewrite He.
    + intros k' data Hk' Hearly' Hpost.
      assert (k = k') as <-.
      { apply (stop_unique config upstream N); try assumption; try lia.
        by rewrite Hpost. }
      rewrite Hpost in Hout. by split.
    + intros k' e Hk' Hearly' Hpost Hretry.
      assert (k = k') as <-.
      { apply (stop_unique config upstream N); try assumption; try lia.
        rewrite Hpost. by left. }
      rewrite Hpost in Hout. by destruct Hout.
    + intros k' e Hk' Hearly' Hpost.
      assert (k = k') as <-.
      { apply (stop_unique config upstream N); try assumption; try lia.
        rewrite Hpost. by right. }
      rewrite Hpost in Hout. by destruct Hout.
Qed.

(** ** The circuit breaker *)

Section BreakerProofs.

Import CircuitBreaker Breaker.

Variable p : Params.
Hypothesis threshold_positive : 1 <= failureThreshold p.

Lemma settled_new : settled p new.
Proof.
  unfold settled, new. cbn.
  destruct (Z.leb_spec (failureThreshold p) 0); [lia | reflexivity].
Qed.

Lemma run_cons (c : Call) (calls : list Call) (cw : t * World) :
  run p (c :: calls) cw =
  let '(cb, w, r) := execute p (operation c) (fst cw, elapse (idle c) (snd cw)) in
  let '(cw', rs) := run p calls (cb, w) in
  (cw', r :: rs).
Proof. reflexivity. Qed.

(** One call keeps the breaker settled and moves the failure count as
    [streak] says. *)
Lemma execute_settled (op : Operation) (cb : t) (w : World) :
  settled p cb ->
  let '(cb', _, r) := execute p op (cb, w) in
  settled p cb' /\ failures cb' = streak (failures cb) [r].
Proof.
  unfold settled, execute, gate, invoke, onSuccess, onFailure. intros Hs.
  destruct (Z.leb_spec (failureThreshold p) (failures cb)) as [Hge | Hlt];
    rewrite Hs.
  - destruct (recoveryTimeout p <? now w - lastFailureTime cb);
      [destruct (resolves op)|]; cbn.
    + destruct (Z.leb_spec (failureThreshold p) 0); [lia | done].
    + destruct (Z.leb_spec (failureThreshold p) (failures cb + 1)); [done | lia].
    + rewrite Hs. destruct (Z.leb_spec (failureThreshold p) (failures cb)); [done | lia].
  - destruct (resolves op); cbn.
    + destruct (Z.leb_spec (failureThreshold p) 0); [lia | done].
    + rewrite Hs. destruct (Z.leb_spec (failureThreshold p) (failures cb + 1)); done.
Qed.

Lemma streak_app (f : Z) (rs rs' : list Result) :
  streak f (rs ++ rs') = streak (streak f rs) rs'.
Proof.
  revert f. induction rs as [|r rs IH]; intros f; [reflexivity|].
  destruct r; cbn; apply IH.
Qed.

(** The invariant along a sequence of calls. *)
Lemma run_settled (calls : list Call) (cb : t) (w : World) :
  settled p cb ->
  let '(cb', _, rs) := run p calls (cb, w) in
  settled p cb' /\ failures cb' = streak (failures cb) rs.
Proof.
  revert cb w. induction calls as [|c calls IH]; intros cb w Hs.
  - cbn. done.
  - rewrite run_cons. cbn [fst snd].
    pose proof (execute_settled (operation c) cb (elapse (idle c) w) Hs) as Hstep.
    destruct (execute p (operation c) (cb, elapse (idle c) w)) as [[cb1 w1] r].
    destruct Hstep as [Hs1 Hf1].
    specialize (IH cb1 w1 Hs1).
    destruct (run p calls (cb1, w1)) as [[cb2 w2] rs].
    destruct IH as [Hs2 Hf2]. split; [exact Hs2|].
    rewrite Hf2, Hf1. change (r :: rs) with ([r] ++ rs). by rewrite streak_app.
Qed.

(** Under failing operations the count never goes down, and goes up by
    one whenever the breaker is closed. *)
Lemma run_all_failing (calls : list Call) (cb : t) (w : World) :
  settled p cb ->
  (forall c, c ∈ calls -> resolves (operation c) = false) ->
  let '(cb', _, _) := run p calls (cb, w) in
  Z.min (failureThreshold p) (failures cb + Z.of_nat (length calls)) <= failures cb'
  /\ failures cb' <= failures cb + Z.of_nat (length calls).
Proof.
  revert cb w. induction calls as [|c calls IH]; intros cb w Hs Hfail.
  - cbn. lia.
  - rewrite run_cons. cbn [fst snd].
    pose proof (execute_settled (operation c) cb (elapse (idle c) w) Hs) as Hstep.
    assert (Hc : resolves (operation c) = false) by (apply Hfail; apply list_elem_of_here).
    assert (Hfirst :
      let '(cb1, _, _) := execute p (operation c) (cb, elapse (idle c) w) in
      failures cb <= failures cb1 <= failures cb + 1 /\
      (failures cb < failureThreshold p -> failures cb1 = failures cb + 1)).
    { unfold execute, gate, invoke, onFailure. rewrite Hc, Hs.
      destruct (Z.leb_spec (failureThreshold p) (failures cb)).
      - destruct (recoveryTimeout p <? _); cbn; lia.
      - cbn. lia. }
    destruct (execute p (operation c) (cb, elapse (idle c) w)) as [[cb1 w1] r].
    destruct Hstep as [Hs1 _]. destruct Hfirst as [Hrange Hup].
    specialize (IH cb1 w1 Hs1 ltac:(intros c' Hc'; apply Hfail; by apply list_elem_of_further)).
    destruct (run p calls (cb1, w1)) as [[cb2 w2] rs].
    cbn [length]. lia.
Qed.

(** Every call reports one result, and the breaker remembers the time
    of the last operation that failed. *)
Lemma run_clock (calls : list Call) (cb : t) (w : World) :
  let '(cb', _, rs) := run p calls (cb, w) in
  length rs = length calls /\
  lastFailureTime cb' = lastFailureAt calls rs (now w) (lastFailureTime cb).
Proof.
  revert cb w. induction calls as [|c calls IH]; intros cb w.
  - cbn. done.
  - rewrite run_cons. cbn [fst snd].
    assert (Hstep :
      let '(cb1, w1, r) := execute p (operation c) (cb, elapse (idle c) w) in
      match r with
      | BreakerOpen => now w1 = now w + idle c /\ lastFailureTime cb1 = lastFailureTime cb
      | Fulfilled =>
          now w1 = now w + idle c + duration (operation c) /\
          lastFailureTime cb1 = lastFailureTime cb
      | Rejected =>
          now w1 = now w + idle c + duration (operation c) /\
          lastFailureTime cb1 = now w + idle c + duration (operation c)
      end).
    { unfold execute, gate, invoke, onSuccess, onFailure, elapse.
      destruct (state cb); [| destruct (recoveryTimeout p <? _) |];
        try destruct (resolves (operation c)); cbn; done. }
    destruct (execute p (operation c) (cb, elapse (idle c) w)) as [[cb1 w1] r].
    specialize (IH cb1 w1).
    destruct (run p calls (cb1, w1)) as [[cb2 w2] rs].
    destruct IH as [Hlen Hlast]. cbn [length lastFailureAt].
    split; [by rewrite Hlen|].
    rewrite Hlast. destruct r, Hstep as [-> ->]; reflexivity.
Qed.

End BreakerProofs.

(** C3. The breaker is created closed.  After any sequence of calls its
    failure count is the number of consecutive failed operations, it is
    open exactly when that number has reached [failureThreshold] and
    closed otherwise; under operations that all fail it is open exactly
    from the [failureThreshold]-th call on.  For the call that follows:
    an open breaker whose last failure is at most [recoveryTimeout] old
    rejects with the breaker-open error, invokes nothing and is left as it
    was; once more than [recoveryTimeout] has passed the breaker turns
    half-open and the operation is invoked; a success leaves it closed
    with a failure count of zero; a failure of that trial call leaves it
    open with [lastFailureTime] set to the time of the failure.
    Throughout, [lastFailureTime] is the time at which the last failed
    operation returned, so that the cooldown starts with the failure
    that opens the breaker.  Whenever the breaker is closed, or open
    for more than [recoveryTimeout], the operation is invoked once and
    its outcome is what [execute] reports: if it resolves the breaker is
    closed, its failure count zero and [lastFailureTime] as before; if
    it rejects the failure count grows by one, [lastFailureTime] is the
    time of the rejection, and the breaker is open exactly when the
    count has reached [failureThreshold]. *)
Theorem circuit_breaker_lifecycle
    (p : CircuitBreaker.Params) (calls : list CircuitBreaker.Call)
    (w0 : CircuitBreaker.World) (next : CircuitBreaker.Call) :
  1 <= CircuitBreaker.failureThreshold p ->
  let '(cb, w, results) := CircuitBreaker.run p calls (CircuitBreaker.new, w0) in
  let w1 := CircuitBreaker.elapse (CircuitBreaker.idle next) w in
  let '(cb', w', result) :=
    CircuitBreaker.execute p (CircuitBreaker.operation next) (cb, w1) in
  let elapsed := CircuitBreaker.now w1 - CircuitBreaker.lastFailureTime cb in
  CircuitBreaker.state CircuitBreaker.new = CircuitBreaker.closed /\
  CircuitBreaker.failures cb = Breaker.consecutiveFailures results /\
  (CircuitBreaker.state cb = CircuitBreaker.open <->
     CircuitBreaker.failureThreshold p <= Breaker.consecutiveFailures results) /\
  (CircuitBreaker.state cb = CircuitBreaker.closed <->
     Breaker.consecutiveFailures results < CircuitBreaker.failureThreshold p) /\
  ((forall c, c ∈ calls ->
      CircuitBreaker.resolves (CircuitBreaker.operation c) = false) ->
   (CircuitBreaker.state cb = CircuitBreaker.open <->
      CircuitBreaker.failureThreshold p <= Z.of_nat (length calls))) /\
  (CircuitBreaker.state cb = CircuitBreaker.open ->
   elapsed <= CircuitBreaker.recoveryTimeout p ->
   result = CircuitBreaker.BreakerOpen /\ cb' = cb /\ w' = w1) /\
  (CircuitBreaker.state cb = CircuitBreaker.open ->
   CircuitBreaker.recoveryTimeout p < elapsed ->
   CircuitBreaker.gate p w1 cb = Some (Breaker.halfOpened cb) /\
   CircuitBreaker.invocations w' = S (CircuitBreaker.invocations w1) /\
   result <> CircuitBreaker.BreakerOpen) /\
  (result = CircuitBreaker.Fulfilled ->
   CircuitBreaker.state cb' = CircuitBreaker.closed /\ CircuitBreaker.failures cb' = 0) /\
  (CircuitBreaker.state cb = CircuitBreaker.open ->
   result = CircuitBreaker.Rejected ->
   CircuitBreaker.state cb' = CircuitBreaker.open /\
   CircuitBreaker.lastFailureTime cb' = CircuitBreaker.now w') /\
  length results = length calls /\
  CircuitBreaker.lastFailureTime cb
  = Breaker.lastFailureAt calls results (CircuitBreaker.now w0) 0 /\
  (CircuitBreaker.state cb = CircuitBreaker.closed
   \/ CircuitBreaker.recoveryTimeout p < elapsed ->
   CircuitBreaker.invocations w' = S (CircuitBreaker.invocations w1) /\
   CircuitBreaker.now w'
   = CircuitBreaker.now w1 + CircuitBreaker.duration (CircuitBreaker.operation next) /\
   (CircuitBreaker.resolves (CircuitBreaker.operation next) = true ->
    result = CircuitBreaker.Fulfilled /\
    cb' = {| CircuitBreaker.failures := 0;
             CircuitBreaker.lastFailureTime := CircuitBreaker.lastFailureTime cb;
             CircuitBreaker.state := CircuitBreaker.closed |}) /\
   (CircuitBreaker.resolves (CircuitBreaker.operation next) = false ->
    result = CircuitBreaker.Rejected /\
    CircuitBreaker.failures cb' = CircuitBreaker.failures cb + 1 /\
    CircuitBreaker.lastFailureTime cb' = CircuitBreaker.now w' /\
    (CircuitBreaker.state cb' = CircuitBreaker.open <->
       CircuitBreaker.failureThreshold p <= CircuitBreaker.failures cb + 1) /\
    (CircuitBreaker.state cb' = CircuitBreaker.closed <->
       CircuitBreaker.failures cb + 1 < CircuitBreaker.failureThreshold p))).
Proof.
  intros Hthr.
  pose proof (run_settled p Hthr calls CircuitBreaker.new w0 (settled_new p Hthr)) as Hinv.
  pose proof (run_all_failing p Hthr calls CircuitBreaker.new w0 (settled_new p Hthr)) as Hfail.
  pose proof (run_clock p calls CircuitBreaker.new w0) as Hclock.
  destruct (CircuitBreaker.run p calls (CircuitBreaker.new, w0)) as [[cb w] results].
  destruct Hinv as [Hs Hf]. destruct Hclock as [Hlen Hlast]. unfold Breaker.settled in Hs.
  change (Breaker.streak (CircuitBreaker.failures CircuitBreaker.new) results)
    with (Breaker.consecutiveFailures results) in Hf.
  cbn zeta.
  set (w1 := CircuitBreaker.elapse (CircuitBreaker.idle next) w).
  destruct (CircuitBreaker.execute p (CircuitBreaker.operation next) (cb, w1))
    as [[cb' w'] result] eqn:Hexec.
  unfold CircuitBreaker.execute, CircuitBreaker.gate, CircuitBreaker.invoke,
    CircuitBreaker.onSuccess, CircuitBreaker.onFailure in Hexec.
  rewrite <- Hf.
  split; [reflexivity|]. split; [reflexivity|].
  split.
  { rewrite Hs. destruct (Z.leb_spec (CircuitBreaker.failureThreshold p) (CircuitBreaker.failures cb));
      split; intros; (done || lia). }
  split.
  { rewrite Hs. destruct (Z.leb_spec (CircuitBreaker.failureThreshold p) (CircuitBreaker.failures cb));
      split; intros; (done || lia). }
  split.
  { intros Hall. specialize (Hfail Hall). cbn in Hfail. rewrite Hs.
    destruct (Z.leb_spec (CircuitBreaker.failureThreshold p) (CircuitBreaker.failures cb));
      split; intros; (done || lia). }
  split.
  { intros Hopen Hwithin. unfold CircuitBreaker.gate. rewrite Hopen in Hexec.
    replace (CircuitBreaker.recoveryTimeout p <? CircuitBreaker.now w1 - CircuitBreaker.lastFailureTime cb)
      with false in Hexec by (symmetry; apply Z.ltb_ge; lia).
    by simplify_eq. }
  split.
  { intros Hopen Hpast. unfold CircuitBreaker.gate. rewrite Hopen in Hexec |- *.
    replace (CircuitBreaker.recoveryTimeout p <? CircuitBreaker.now w1 - CircuitBreaker.lastFailureTime cb)
      with true in Hexec |- * by (symmetry; apply Z.ltb_lt; lia).
    split; [reflexivity|].
    destruct (CircuitBreaker.resolves (CircuitBreaker.operation next));
      simplify_eq; done. }
  split.
  { intros ->.
    destruct (CircuitBreaker.state cb);
      [| destruct (CircuitBreaker.recoveryTimeout p <? _) |];
      try destruct (CircuitBreaker.resolves (CircuitBreaker.operation next));
      simplify_eq; done. }
  split.
  { intros Hopen ->. rewrite Hopen in Hexec, Hs.
    destruct (Z.leb_spec (CircuitBreaker.failureThreshold p) (CircuitBreaker.failures cb));
      [|discriminate Hs].
    destruct (CircuitBreaker.recoveryTimeout p <? _); [|discriminate Hexec].
    destruct (CircuitBreaker.resolves (CircuitBreaker.operation next));
      [discriminate Hexec|].
    simplify_eq. cbn.
    destruct (Z.leb_spec (CircuitBreaker.failureThreshold p) (CircuitBreaker.failures cb + 1));
      [done | lia]. }
  split; [exact Hlen|]. split; [exact Hlast|].
  intros Hruns.
  assert (Hgate :
    CircuitBreaker.gate p w1 cb
    = Some {| CircuitBreaker.failures := CircuitBreaker.failures cb;
              CircuitBreaker.lastFailureTime := CircuitBreaker.lastFailureTime cb;
              CircuitBreaker.state :=
                if CircuitBreaker.failureThreshold p <=? CircuitBreaker.failures cb
                then CircuitBreaker.half_open else CircuitBreaker.closed |}).
  { unfold CircuitBreaker.gate. rewrite Hs.
    destruct (Z.leb_spec (CircuitBreaker.failureThreshold p) (CircuitBreaker.failures cb)).
    - destruct Hruns as [Hclosed | Hpast]; [rewrite Hs in Hclosed; discriminate Hclosed|].
      replace (CircuitBreaker.recoveryTimeout p
               <? CircuitBreaker.now w1 - CircuitBreaker.lastFailureTime cb)
        with true by (symmetry; apply Z.ltb_lt; lia).
      reflexivity.
    - destruct cb as [f l st]. cbn in *. by subst. }
  fold (CircuitBreaker.gate p w1 cb) in Hexec. rewrite Hgate in Hexec.
  destruct (CircuitBreaker.resolves (CircuitBreaker.operation next)); simplify_eq; cbn.
  - repeat split; done.
  - split; [reflexivity|]. split; [reflexivity|].
    split; [discriminate|]. intros _.
    split; [reflexivity|]. split; [reflexivity|]. split; [reflexivity|].
    destruct (Z.leb_spec (CircuitBreaker.failureThreshold p) (CircuitBreaker.failures cb));
      destruct (Z.leb_spec (CircuitBreaker.failureThreshold p) (CircuitBreaker.failures cb + 1));
      split; split; intros; (done || lia).
Qed.

Lemma circuit_breaker_lifecycle_witness :
  1 <= CircuitBreaker.failureThreshold Breaker.threeStrikes /\
  CircuitBreaker.state
    (fst (fst (CircuitBreaker.run Breaker.threeStrikes
                 [Breaker.failingCall; Breaker.failingCall; Breaker.failingCall]
                 (CircuitBreaker.new, Breaker.startOfDay))))
  = CircuitBreaker.open.
Proof.
  assert (Hthr : 1 <= CircuitBreaker.failureThreshold Breaker.threeStrikes)
    by (cbn; lia).
  split; [exact Hthr|].
  pose proof (circuit_breaker_lifecycle Breaker.threeStrikes
                [Breaker.failingCall; Breaker.failingCall; Breaker.failingCall]
                Breaker.startOfDay Breaker.failingCall Hthr) as H.
  destruct (CircuitBreaker.run Breaker.threeStrikes _ _) as [[cb w] results].
  cbn zeta in H.
  destruct (CircuitBreaker.execute Breaker.threeStrikes _ _) as [[cb' w'] result].
  destruct H as (_ & _ & _ & _ & Hfailing & _).
  cbn [fst]. apply Hfailing.
  - intros c Hc. apply list_elem_of_In in Hc. cbn in Hc.
    destruct Hc as [<- | [<- | [<- | []]]]; reflexivity.
  - cbn. lia.
Defined.

(** ** Model selection *)

Section SelectionProofs.

Import RoutingRequest ModelManager.

Lemma firstPriority_elem (order models : list string) (x : string) :
  firstPriority order models = Some x -> x ∈ models.
Proof.
  induction order as [|o order IH]; cbn; [discriminate|].
  case_bool_decide; [|exact IH]. by intros [= <-].
Qed.

Lemma selectBestModel_elem (models : list string) (x : string) :
  selectBestModel models = inr x -> x ∈ models.
Proof.
  destruct models as [|first rest]; unfold selectBestModel; [discriminate|].
  destruct (firstPriority priorityOrder (first :: rest)) as [y|] eqn:Hy;
    cbn [default from_option id]; intros Hx; injection Hx as <-.
  - by apply firstPriority_elem in Hy.
  - apply list_elem_of_here.
Qed.

Lemma selectBestModel_returns (models : list string) :
  models <> [] -> exists x, selectBestModel models = inr x.
Proof. destruct models; [done|]. intros _. unfold selectBestModel. eauto. Qed.

Lemma selectBestModel_throws (models : list string) (e : Thrown) :
  selectBestModel models = inl e -> models = [].
Proof. destruct models; [done|]. discriminate. Qed.

Lemma available_isModelAvailable (m : t) (x : string) :
  x ∈ getAvailableModels m -> isModelAvailable m x = true /\ x <> "".
Proof.
  unfold getAvailableModels, isModelAvailable.
  rewrite list_elem_of_filter, elem_of_cons. intros [Hne [-> | Hin]]; split; try done.
  - by rewrite bool_decide_eq_true_2.
  - rewrite (bool_decide_eq_true_2 (x ∈ _)) by done. apply orb_true_r.
Qed.

Lemma isModelAvailable_available (m : t) (x : string) :
  isModelAvailable m x = true -> x <> "" -> x ∈ getAvailableModels m.
Proof.
  unfold getAvailableModels, isModelAvailable. intros Hav Hne.
  apply list_elem_of_filter. split; [done|].
  apply orb_true_iff in Hav as [H | H]; apply bool_decide_eq_true in H.
  - subst. apply list_elem_of_here.
  - by apply list_elem_of_further.
Qed.

Lemma filteredCandidates_available (m : t) (request : RoutingRequest.t) (x : string) :
  x ∈ filteredCandidates m request -> x ∈ getAvailableModels m.
Proof.
  unfold filteredCandidates.
  destruct (JS.truthyZ (RoutingRequest.maxTokens request)) as [mt|];
    [destruct (2000 <? mt)|]; destruct (hasImage request);
    rewrite ?list_elem_of_filter; tauto.
Qed.

Lemma filteredCandidates_image (m : t) (request : RoutingRequest.t) (x : string) :
  hasImage request = true ->
  x ∈ filteredCandidates m request -> imageCapable m x = true.
Proof.
  unfold filteredCandidates. intros ->.
  destruct (JS.truthyZ (RoutingRequest.maxTokens request)) as [mt|];
    [destruct (2000 <? mt)|];
    rewrite ?list_elem_of_filter; tauto.
Qed.

Lemma imageCapable_entry (m : t) (x : string) :
  imageCapable m x = true <->
  exists caps, capabilities m !! x = Some caps /\ supportsImages caps = true.
Proof.
  unfold imageCapable. destruct (capabilities m !! x) as [caps|]; cbn.
  - split; [eauto | by intros (? & [= <-] & ?)].
  - split; [done | by intros (? & ? & ?)].
Qed.

Lemma truthyStr_nonempty (o : option string) (s : string) :
  JS.truthyStr o = Some s -> o = Some s /\ s <> "".
Proof. destruct o as [[|c s']|]; cbn; intros [= <-]; done. Qed.

Lemma preferredAccepted_iff (m : t) (request : RoutingRequest.t) (p : string) :
  preferredAccepted m request = Some p <->
  JS.truthyStr (preferredModel request) = Some p /\
  isModelAvailable m p = true /\
  exists caps, capabilities m !! p = Some caps /\
               (hasImage request = true -> supportsImages caps = true).
Proof.
  unfold preferredAccepted.
  destruct (JS.truthyStr (preferredModel request)) as [q|];
    [|split; [discriminate | intros [Hq _]; discriminate Hq]].
  destruct (isModelAvailable m q) eqn:Hav.
  2: { split; [done|]. intros ([= ->] & ? & _). congruence. }
  destruct (capabilities m !! q) as [caps|] eqn:Hcaps.
  2: { split; [done|]. intros ([= ->] & _ & caps & ? & _). congruence. }
  destruct (hasImage request), (supportsImages caps) eqn:Hsi; cbn.
  all: split; [intros [= <-]; naive_solver | intros ([= ->] & _ & caps' & Hc & Himg)].
  all: try done.
  rewrite Hcaps in Hc. injection Hc as <-. rewrite Hsi in Himg. by specialize (Himg eq_refl).
Qed.

(** The score computed for a model with a capability entry. *)
Lemma calculateConfidence_entry (m : t) (x : string) (request : RoutingRequest.t)
    (caps : ModelCapabilities) :
  capabilities m !! x = Some caps ->
  hasImage request = true ->
  if supportsImages caps
  then (0.8 <= calculateConfidence m x request)%Q
  else (calculateConfidence m x request <= 0.2)%Q.
Proof.
  intros Hcaps Himg. unfold calculateConfidence. rewrite Hcaps, Himg.
  destruct (supportsImages caps), (requiresHighQuality request);
    try destruct (JS.includes x "gpt-4o" || JS.includes x "claude-3-5-sonnet");
    vm_compute; discriminate.
Qed.

Lemma calculateConfidence_no_entry (m : t) (x : string) (request : RoutingRequest.t) :
  capabilities m !! x = None -> calculateConfidence m x request = 0.5%Q.
Proof. intros H. unfold calculateConfidence. by rewrite H. Qed.

(** A computed score of one needs an image request and an image-capable
    model. *)
Lemma calculateConfidence_one (m : t) (x : string) (request : RoutingRequest.t) :
  (calculateConfidence m x request == 1)%Q ->
  exists caps, capabilities m !! x = Some caps /\ supportsImages caps = true.
Proof.
  unfold calculateConfidence.
  destruct (capabilities m !! x) as [caps|]; [|vm_compute; discriminate].
  intros H. exists caps. split; [done|]. revert H.
  destruct (hasImage request), (supportsImages caps), (requiresHighQuality request);
    try destruct (JS.includes x "gpt-4o" || JS.includes x "claude-3-5-sonnet");
    try reflexivity; vm_compute; discriminate.
Qed.

Lemma selectFromCandidates_elem (m : t) (request : RoutingRequest.t) (sel : ModelSelection) :
  selectFromCandidates m request = inr sel ->
  confidence sel = calculateConfidence m (model sel) request /\
  match filteredCandidates m request with
  | [] => model sel ∈ getAvailableModels m
  | _ => model sel ∈ filteredCandidates m request
  end.
Proof.
  unfold selectFromCandidates.
  destruct (selectBestModel _) as [e|x] eqn:Hbest; [discriminate|].
  intros [= <-]. cbn. split; [reflexivity|].
  apply selectBestModel_elem in Hbest.
  by destruct (filteredCandidates m request).
Qed.

Lemma selectFromCandidates_returns (m : t) (request : RoutingRequest.t) :
  getAvailableModels m <> [] -> exists sel, selectFromCandidates m request = inr sel.
Proof.
  intros Hav. unfold selectFromCandidates.
  destruct (selectBestModel_returns
              (match filteredCandidates m request with
               | [] => getAvailableModels m
               | _ => filteredCandidates m request
               end)) as [x Hx].
  - by destruct (filteredCandidates m request).
  - rewrite Hx. eauto.
Qed.

Lemma selectFromCandidates_throws (m : t) (request : RoutingRequest.t) (e : Thrown) :
  selectFromCandidates m request = inl e -> getAvailableModels m = [].
Proof.
  unfold selectFromCandidates.
  destruct (selectBestModel _) as [e'|x] eqn:Hbest; [|discriminate].
  intros _. apply selectBestModel_throws in Hbest.
  by destruct (filteredCandidates m request).
Qed.

Lemma selectModel_throws_iff (m : t) (request : RoutingRequest.t) :
  (exists e, selectModel m request = inl e) <-> getAvailableModels m = [].
Proof.
  unfold selectModel. split.
  - intros [e He]. destruct (preferredAccepted m request); [discriminate|].
    by apply selectFromCandidates_throws in He.
  - intros Hnone.
    destruct (preferredAccepted m request) as [p|] eqn:Hp.
    + apply preferredAccepted_iff in Hp as (Ht & Hav & _).
      apply truthyStr_nonempty in Ht as [_ Hne].
      pose proof (isModelAvailable_available m p Hav Hne) as Hin.
      rewrite Hnone in Hin. by apply not_elem_of_nil in Hin.
    + unfold selectFromCandidates, filteredCandidates. rewrite Hnone.
      assert (Hf : forall P `{!forall x : string, Decision (P x)}, filter P (@nil string) = [])
        by reflexivity.
      destruct (JS.truthyZ _) as [mt|]; [destruct (2000 <? mt)|];
        destruct (hasImage request); cbn; eauto.
Qed.

End SelectionProofs.

(** C1, as stated, fails: with a single configured model that has no
    capability entry, an image request is answered with that model, which
    is not known to support images, at confidence 0.5. *)
Lemma image_request_soft_degradation_scores_half :
  exists sel,
    ModelManager.selectModel Selection.textOnly Selection.imageRequest = inr sel /\
    ModelManager.imageCapable Selection.textOnly (model sel) = false /\
    ~ (confidence sel <= 0.3)%Q.
Proof.
  eexists. split; [vm_compute; reflexivity|].
  split; [vm_compute; reflexivity|].
  vm_compute. intros H. apply H. reflexivity.
Qed.

(** C1, amended.  For a request with an image, [selectModel] returns a
    selection whenever some model is available.  A selected model that
    has a capability entry either supports images, or was taken from the
    unfiltered pool because the filters left no candidate and then its
    confidence is at most 0.3.  A selected model that has no capability
    entry was taken from the unfiltered pool as well, and its confidence
    is 0.5. *)
Theorem selectModel_image_requirement
    (m : ModelManager.t) (request : RoutingRequest.t) :
  RoutingRequest.hasImage request = true ->
  (ModelManager.getAvailableModels m <> [] ->
   exists sel, ModelManager.selectModel m request = inr sel) /\
  forall sel, ModelManager.selectModel m request = inr sel ->
    match ModelManager.capabilities m !! model sel with
    | Some caps =>
        ModelManager.supportsImages caps = true \/
        (ModelManager.filteredCandidates m request = [] /\ (confidence sel <= 0.3)%Q)
    | None =>
        ModelManager.filteredCandidates m request = [] /\ confidence sel = 0.5%Q
    end.
Proof.
  intros Himg. split.
  - intros Hav. unfold ModelManager.selectModel.
    destruct (ModelManager.preferredAccepted m request); [eauto|].
    by apply selectFromCandidates_returns.
  - intros sel. unfold ModelManager.selectModel.
    destruct (ModelManager.preferredAccepted m request) as [p|] eqn:Hp.
    + intros [= <-]. cbn [model].
      apply preferredAccepted_iff in Hp as (_ & _ & caps & -> & Hsi). left. by apply Hsi.
    + intros Hsel. apply selectFromCandidates_elem in Hsel as [Hconf Hin].
      destruct (ModelManager.filteredCandidates m request) as [|c cs] eqn:Hf.
      * destruct (ModelManager.capabilities m !! model sel) as [caps|] eqn:Hcaps.
        -- pose proof (calculateConfidence_entry m (model sel) request caps Hcaps Himg) as Hc.
           rewrite <- Hconf in Hc.
           destruct (ModelManager.supportsImages caps); [by left | right].
           split; [done|]. eapply Qle_trans; [exact Hc | vm_compute; discriminate].
        -- split; [done|]. rewrite Hconf. by apply calculateConfidence_no_entry.
      * rewrite <- Hf in Hin.
        apply (filteredCandidates_image m request _ Himg), imageCapable_entry in Hin
          as (caps & -> & Hsi).
        by left.
Qed.

Lemma selectModel_image_requirement_witness :
  RoutingRequest.hasImage Selection.imageRequest = true /\
  exists sel,
    ModelManager.selectModel Selection.gpt4oOnly Selection.imageRequest = inr sel /\
    ModelManager.imageCapable Selection.gpt4oOnly (model sel) = true.
Proof.
  split; [reflexivity|].
  destruct (selectModel_image_requirement Selection.gpt4oOnly Selection.imageRequest eq_refl)
    as [Hreturns Hentry].
  destruct Hreturns as [sel Hsel]; [vm_compute; discriminate|].
  exists sel. split; [exact Hsel|].
  specialize (Hentry sel Hsel).
  apply imageCapable_entry.
  destruct (ModelManager.capabilities Selection.gpt4oOnly !! model sel) as [caps|];
    [exists caps; split; [reflexivity|] | ].
  - destruct Hentry as [Hsi | [Hnone _]]; [exact Hsi | vm_compute in Hnone; discriminate Hnone].
  - destruct Hentry as [Hnone _]. vm_compute in Hnone. discriminate Hnone.
Defined.

(** C5, as stated, fails: a preferred [openai/gpt-4o], whose capability
    entry allows 4000 output tokens, is returned with confidence 1.0 for a
    request of 8000 tokens. *)
Lemma preferred_model_ignores_token_budget :
  ModelManager.selectModel Selection.gpt4oOnly Selection.longRequest
    = inr {| model := "openai/gpt-4o"; confidence := 1.0;
             reason := "Preferred model specified and available" |} /\
  ~ Selection.statedPreferredCondition Selection.gpt4oOnly Selection.longRequest
      "openai/gpt-4o".
Proof.
  split; [vm_compute; reflexivity|].
  intros (_ & _ & Htokens). specialize (Htokens 8000 eq_refl).
  vm_compute in Htokens. by apply Htokens.
Qed.

(** C5, amended.  When [preferredModel] is set (and not the empty
    string), [selectModel] returns it with confidence 1.0 exactly when it
    is configured as primary or fallback, has a capability entry, and
    supports images if the request has one; the token budget is not
    looked at.  Otherwise the selection is the one made from the filtered
    candidate set. *)
Theorem selectModel_preferred
    (m : ModelManager.t) (request : RoutingRequest.t) (preferred : string) :
  JS.truthyStr (RoutingRequest.preferredModel request) = Some preferred ->
  let accepted :=
    ModelManager.isModelAvailable m preferred = true /\
    exists caps, ModelManager.capabilities m !! preferred = Some caps /\
                 (RoutingRequest.hasImage request = true ->
                  ModelManager.supportsImages caps = true) in
  ((exists sel, ModelManager.selectModel m request = inr sel /\
                model sel = preferred /\ (confidence sel == 1)%Q)
   <-> accepted) /\
  (accepted ->
   ModelManager.selectModel m request
     = inr {| model := preferred; confidence := 1.0;
              reason := "Preferred model specified and available" |}) /\
  (~ accepted ->
   ModelManager.selectModel m request = ModelManager.selectFromCandidates m request).
Proof.
  intros Hset accepted.
  assert (Hacc : accepted <-> ModelManager.preferredAccepted m request = Some preferred).
  { rewrite preferredAccepted_iff. subst accepted. tauto. }
  assert (Hyes : accepted ->
                 ModelManager.selectModel m request
                 = inr {| model := preferred; confidence := 1.0;
                          reason := "Preferred model specified and available" |}).
  { intros H. apply Hacc in H. unfold ModelManager.selectModel. by rewrite H. }
  assert (Hno : ~ accepted ->
                ModelManager.selectModel m request
                = ModelManager.selectFromCandidates m request).
  { intros H. unfold ModelManager.selectModel.
    destruct (ModelManager.preferredAccepted m request) as [q|] eqn:Hq; [|reflexivity].
    exfalso. apply H, Hacc. f_equal.
    apply preferredAccepted_iff in Hq as (Hq & _). congruence. }
  split; [|split; assumption].
  split.
  - intros (sel & Hsel & Hmodel & Hconf).
    destruct (ModelManager.preferredAccepted m request) as [q|] eqn:Hq.
    + apply Hacc. f_equal.
      apply preferredAccepted_iff in Hq as (Hq' & _). congruence.
    + unfold ModelManager.selectModel in Hsel. rewrite Hq in Hsel.
      apply selectFromCandidates_elem in Hsel as [Hc Hin].
      rewrite Hc in Hconf.
      apply calculateConfidence_one in Hconf as (caps & Hcaps & Hsi).
      rewrite Hmodel in Hcaps, Hin.
      split; [|by exists caps].
      apply available_isModelAvailable.
      destruct (ModelManager.filteredCandidates m request) eqn:Hf; [exact Hin|].
      rewrite <- Hf in Hin. by apply filteredCandidates_available in Hin.
  - intros H. eexists. split; [exact (Hyes H)|]. split; reflexivity.
Qed.

Lemma selectModel_preferred_witness :
  JS.truthyStr (RoutingRequest.preferredModel Selection.longRequest) = Some "openai/gpt-4o" /\
  ModelManager.selectModel Selection.gpt4oOnly Selection.longRequest
    = inr {| model := "openai/gpt-4o"; confidence := 1.0;
             reason := "Preferred model specified and available" |}.
Proof.
  split; [reflexivity|].
  apply (selectModel_preferred Selection.gpt4oOnly Selection.longRequest "openai/gpt-4o" eq_refl).
  split; [reflexivity|].
  eexists. split; [vm_compute; reflexivity|]. discriminate.
Defined.

(** ** The router *)

Section RouterProofs.

Import ModelRouter.

Lemma firstValid_spec (r : t) (request : RoutingRequest.t) (candidates : list string) :
  match firstValid r request candidates with
  | Some x =>
      x ∈ candidates /\
      ModelManager.valid
        (ModelManager.validateModel (modelManager r) x (requirementsOf request)) = true
  | None =>
      forall x, x ∈ candidates ->
        ModelManager.valid
          (ModelManager.validateModel (modelManager r) x (requirementsOf request)) = false
  end.
Proof.
  induction candidates as [|c cs IH]; cbn [firstValid].
  - intros x Hx. by apply not_elem_of_nil in Hx.
  - destruct (ModelManager.valid _) eqn:Hv.
    + split; [apply list_elem_of_here | exact Hv].
    + destruct (firstValid r request cs) as [x|].
      * destruct IH. split; [by apply list_elem_of_further | done].
      * intros x [-> | Hx]%elem_of_cons; [exact Hv | by apply IH].
Qed.

(** The candidate that the loop returns is the first that passes: the
    list it was filtered from splits around it, and nothing before it
    is both a candidate and valid. *)
Lemma firstValid_first (r : t) (request : RoutingRequest.t)
    (candidate : string -> Prop) `{!forall x, Decision (candidate x)}
    (models : list string) (x : string) :
  firstValid r request (filter candidate models) = Some x ->
  exists before after,
    models = before ++ x :: after /\
    forall y, y ∈ before ->
      ~ candidate y
      \/ ModelManager.valid
           (ModelManager.validateModel (modelManager r) y (requirementsOf request)) = false.
Proof.
  induction models as [|m models IH]; [discriminate|].
  rewrite filter_cons. destruct (decide (candidate m)) as [Hc | Hc].
  - cbn [firstValid]. destruct (ModelManager.valid _) eqn:Hv.
    + intros [= <-]. exists [], models. split; [reflexivity|].
      intros y Hy. by apply not_elem_of_nil in Hy.
    + intros Hrest. destruct (IH Hrest) as (before & after & -> & Hbefore).
      exists (m :: before), after. split; [reflexivity|].
      intros y [-> | Hy]%elem_of_cons; [by right | by apply Hbefore].
  - intros Hrest. destruct (IH Hrest) as (before & after & -> & Hbefore).
    exists (m :: before), after. split; [reflexivity|].
    intros y [-> | Hy]%elem_of_cons; [by left | by apply Hbefore].
Qed.

End RouterProofs.

(** C9, as stated, fails: with [openai/gpt-4o] as the only model, a
    request for 8000 tokens first selects [openai/gpt-4o], validation
    rejects it, and [selectFallbackModel] returns [openai/gpt-4o] again. *)
Lemma fallback_returns_rejected_primary :
  exists first,
    ModelManager.selectModel (ModelRouter.modelManager Selection.gpt4oRouter)
                             Selection.longRequest = inr first /\
    let validation :=
      ModelManager.validateModel (ModelRouter.modelManager Selection.gpt4oRouter)
        (model first) (ModelRouter.requirementsOf Selection.longRequest) in
    ModelManager.valid validation = false /\
    model (ModelRouter.selectFallbackModel Selection.gpt4oRouter Selection.longRequest
             (ModelManager.issues validation))
    = model first.
Proof.
  eexists. split; [vm_compute; reflexivity|].
  split; vm_compute; reflexivity.
Qed.

(** C9, amended.  [selectFallbackModel] returns, with confidence 0.7, the
    first available model other than the configured primary that passes
    validation for the request: the list of available models splits
    around it, and every model before it is the primary or fails
    validation.  It is hence never a model that validation rejects for
    the request; when there is none it returns the configured primary
    with confidence 0.3, whether or not the primary was the model just
    rejected.  A rejected model is thus returned again only as that last
    resort. *)
Theorem selectFallbackModel_excludes_rejected
    (r : ModelRouter.t) (request : RoutingRequest.t) (issues : list string) :
  let sel := ModelRouter.selectFallbackModel r request issues in
  let passes (x : string) :=
    ModelManager.valid
      (ModelManager.validateModel (ModelRouter.modelManager r) x
                                  (ModelRouter.requirementsOf request)) in
  ((passes (model sel) = true /\
    model sel <> primary (ModelRouter.config r) /\
    model sel ∈ ModelManager.getAvailableModels (ModelRouter.modelManager r) /\
    confidence sel = 0.7%Q /\
    exists before after,
      ModelManager.getAvailableModels (ModelRouter.modelManager r)
      = before ++ model sel :: after /\
      forall x, x ∈ before ->
        x = primary (ModelRouter.config r) \/ passes x = false)
   \/
   (model sel = primary (ModelRouter.config r) /\
    confidence sel = 0.3%Q /\
    forall x, x ∈ ModelManager.getAvailableModels (ModelRouter.modelManager r) ->
              x <> primary (ModelRouter.config r) -> passes x = false)) /\
  (forall rejected, passes rejected = false -> model sel = rejected ->
     rejected = primary (ModelRouter.config r) /\ confidence sel = 0.3%Q).
Proof.
  intros sel passes.
  assert (Hcases :
    (passes (model sel) = true /\
     model sel <> primary (ModelRouter.config r) /\
     model sel ∈ ModelManager.getAvailableModels (ModelRouter.modelManager r) /\
     confidence sel = 0.7%Q /\
     exists before after,
       ModelManager.getAvailableModels (ModelRouter.modelManager r)
       = before ++ model sel :: after /\
       forall x, x ∈ before ->
         x = primary (ModelRouter.config r) \/ passes x = false)
    \/
    (model sel = primary (ModelRouter.config r) /\
     confidence sel = 0.3%Q /\
     forall x, x ∈ ModelManager.getAvailableModels (ModelRouter.modelManager r) ->
               x <> primary (ModelRouter.config r) -> passes x = false)).
  { subst sel. unfold ModelRouter.selectFallbackModel.
    match goal with
    | |- context [ModelRouter.firstValid r request ?cs] =>
        pose proof (firstValid_spec r request cs) as Hfirst;
        destruct (ModelRouter.firstValid r request cs) as [x|] eqn:Hloop
    end; cbn [model confidence].
    - left. destruct Hfirst as [Hin Hvalid].
      apply list_elem_of_filter in Hin as [[Hne _] Hin].
      split; [exact Hvalid|]. split; [exact Hne|]. split; [exact Hin|].
      split; [reflexivity|].
      apply firstValid_first in Hloop as (before & after & Hsplit & Hbefore).
      exists before, after. split; [exact Hsplit|].
      intros y Hy. destruct (Hbefore y Hy) as [Hnot | Hfails]; [|by right].
      left. destruct (decide (y = primary (ModelRouter.config r))) as [|Hne']; [done|].
      destruct Hnot. split; [exact Hne'|].
      apply available_isModelAvailable. rewrite Hsplit.
      apply elem_of_app. by left.
    - right. split; [reflexivity|]. split; [reflexivity|].
      intros x Hin Hne. apply Hfirst, list_elem_of_filter.
      split; [|exact Hin]. split; [exact Hne|].
      by apply available_isModelAvailable. }
  split; [exact Hcases|].
  intros rejected Hrej Hsame.
  destruct Hcases as [(Hpass & _) | (Hprim & Hconf & _)].
  - rewrite Hsame in Hpass. congruence.
  - split; [congruence | exact Hconf].
Qed.

(** C10.  [ModelRouter.selectModel] returns a selection for every router
    and request.  The selection made inside its [try] block throws
    exactly when no model is available; whenever the [try] block throws,
    the result is the configured primary model with confidence 0.1 and
    the reason ['Fallback due to selection error'], and the request is
    counted in the metrics all the same. *)
Theorem router_selectModel_never_throws
    (r : ModelRouter.t) (request : RoutingRequest.t) (timestamp : Z) :
  let '(sel, r') := ModelRouter.selectModel r request timestamp in
  let counted := ModelRouter.withMetrics r ModelRouter.countRequest in
  ((exists e, ModelManager.selectModel (ModelRouter.modelManager r) request = inl e)
   <-> ModelManager.getAvailableModels (ModelRouter.modelManager r) = []) /\
  ((exists e, ModelRouter.selectModelTry counted request timestamp = inl e)
   <-> ModelManager.getAvailableModels (ModelRouter.modelManager r) = []) /\
  (ModelManager.getAvailableModels (ModelRouter.modelManager r) = [] ->
   sel = Selection.lastResort r /\
   r' = ModelRouter.updateMetrics counted (Selection.lastResort r) timestamp) /\
  (ModelManager.getAvailableModels (ModelRouter.modelManager r) <> [] ->
   ModelRouter.selectModelTry counted request timestamp = inr (sel, r')) /\
  ModelRouter.totalRequests (ModelRouter.metrics r')
    = ModelRouter.totalRequests (ModelRouter.metrics r) + 1 /\
  ModelRouter.lastSelection (ModelRouter.metrics r') = Some (sel, timestamp).
Proof.
  destruct (ModelRouter.selectModel r request timestamp) as [sel r'] eqn:Hsel.
  cbn zeta.
  set (counted := ModelRouter.withMetrics r ModelRouter.countRequest).
  unfold ModelRouter.selectModel in Hsel. fold counted in Hsel.
  pose proof (selectModel_throws_iff (ModelRouter.modelManager r) request) as Hthrows.
  assert (Htry : (exists e, ModelRouter.selectModelTry counted request timestamp = inl e)
                 <-> ModelManager.getAvailableModels (ModelRouter.modelManager r) = []).
  { rewrite <- Hthrows. unfold ModelRouter.selectModelTry. cbn [ModelRouter.modelManager counted ModelRouter.withMetrics].
    destruct (ModelManager.selectModel (ModelRouter.modelManager r) request) as [e|s].
    - split; eauto.
    - split; intros [e He]; [|discriminate He].
      destruct (negb _) in He; discriminate He. }
  split; [exact Hthrows|]. split; [exact Htry|].
  destruct (ModelRouter.selectModelTry counted request timestamp) as [e|[s rs]] eqn:Hbody.
  - (* the try block threw *)
    injection Hsel as <- <-.
    split; [intros _; split; reflexivity|].
    split; [intros Hav; exfalso; apply Hav, Htry; eauto|].
    split; reflexivity.
  - injection Hsel as <- <-.
    split; [intros Hnone; apply Htry in Hnone as [e He]; discriminate He|].
    split; [reflexivity|].
    unfold ModelRouter.selectModelTry in Hbody.
    destruct (ModelManager.selectModel (ModelRouter.modelManager counted) request) as [e|s0];
      [discriminate Hbody|].
    destruct (negb _) in Hbody; injection Hbody as <- <-; split; reflexivity.
Qed.

(** The internal-error case at a router that has no model at all. *)
Example router_without_models :
  fst (ModelRouter.selectModel Selection.noModelRouter Selection.plainRequest 0)
  = {| model := ""; confidence := 0.1; reason := "Fallback due to selection error" |}.
Proof. vm_compute. reflexivity. Qed.

(** ** The image processor *)

Section ImageProofs.

Import ImageProcessor.

Variable env : Environment.
Variable options : Options.

(** [optimizeImage] returns either its input or what [sharp] encoded. *)
Lemma optimizeImage_result (buffer : Buffer) (format : string) :
  exists log optimized,
    optimizeImage env options buffer format = (log, inr optimized) /\
    (optimized = buffer \/
     exists resize encoder,
       sharpToBuffer env buffer resize encoder (quality options) = inr optimized).
Proof.
  unfold optimizeImage, emit, mbind, M_bind, mret, M_ret.
  destruct (sharpMetadata env buffer) as [err|metadata]; [eauto 6|].
  destruct (encoderFor format) as [encoder|]; [|eauto 6].
  match goal with
  | |- context [sharpToBuffer env buffer ?resize encoder (quality options)] =>
      destruct (sharpToBuffer env buffer resize encoder (quality options)) eqn:Henc
  end; cbn; eauto 8.
Qed.

(** The [try] block once the payload is loaded. *)
Lemma processImageTry_loaded (imageUrl : string) (log0 : list Event)
    (buffer : Buffer) (format : string) :
  valid (validateImageInput env imageUrl) = true ->
  loadImage env imageUrl (type (validateImageInput env imageUrl))
    = (log0, inr (buffer, format)) ->
  processImageTry env options imageUrl =
  if maxSize options <? byteLength buffer then
    (log0, inl (createError "IMAGE_TOO_LARGE"
                  ("Image size (" +:+ JS.showZ (byteLength buffer)
                   +:+ " bytes) exceeds limit ("
                   +:+ JS.showZ (maxSize options) +:+ " bytes)")))
  else if negb (bool_decide (JS.toLowerCase format ∈ allowedFormats options)) then
    (log0, inl (createError "UNSUPPORTED_FORMAT"
                  ("Image format '" +:+ format +:+ "' is not supported")))
  else
    let '(log1, r) := optimizeImage env options buffer format in
    (log0 ++ log1,
     match r with
     | inl e => inl e
     | inr optimizedBuffer =>
         inr {| imageUrl := "data:" +:+ getMimeType (JS.toLowerCase format)
                            +:+ ";base64," +:+ toBase64 env optimizedBuffer;
                imageFormat := JS.toLowerCase format;
                size := byteLength optimizedBuffer;
                base64Data := Some (toBase64 env optimizedBuffer) |}
     end).
Proof.
  intros Hvalid Hload. unfold processImageTry. rewrite Hvalid. cbn [negb].
  unfold mbind at 1. unfold M_bind at 1. rewrite Hload.
  destruct (maxSize options <? byteLength buffer).
  { unfold throw. by rewrite app_nil_r. }
  destruct (negb (bool_decide _)).
  { unfold throw. by rewrite app_nil_r. }
  unfold mbind, M_bind, mret, M_ret.
  destruct (optimizeImage env options buffer format) as [log1 [e|optimized]];
    [reflexivity|].
  by rewrite app_nil_r.
Qed.

End ImageProofs.

(** C4, as stated, fails twice over.  With a ceiling of four bytes, a
    four-byte inline image that the encoder turns into eight bytes is
    returned with size 8; and an eight-byte inline image is rejected, but
    the error that leaves [processImage] carries the code
    [PROCESSING_ERROR], the too-large error having been wrapped by the
    [catch] block. *)
Lemma size_policy_not_enforced_twice :
  (exists log img,
     ImageProcessor.processImage Images.growingEncoder Images.tinyCeiling Images.fourBytes
       = (log, inr img) /\
     ImageProcessor.maxSize Images.tinyCeiling < ImageProcessor.size img) /\
  (exists log thrown,
     ImageProcessor.processImage Images.growingEncoder Images.tinyCeiling Images.eightBytes
       = (log, inl thrown) /\
     ~ Images.isTooLarge thrown).
Proof.
  split.
  - eexists _, _. split; [vm_compute; reflexivity|]. vm_compute. reflexivity.
  - eexists _, _. split; [vm_compute; reflexivity|]. cbn. discriminate.
Qed.

(** C4, amended.  Once the payload of a valid input is loaded,
    [processImage] compares its byte size with [maxSize] before
    [optimizeImage] runs: a larger payload makes it throw with nothing
    added to the log of calls, which for an inline payload holds no call
    to [sharp] at all.  The size is not compared again: the image
    returned has the size of what [optimizeImage] produced, which is the
    payload itself or the output of [sharp], so it is within [maxSize]
    whenever [sharp] does not produce more bytes than it was given. *)
Theorem processImage_size_policy
    (env : ImageProcessor.Environment) (options : ImageProcessor.Options)
    (imageUrl : string) (log0 : list ImageProcessor.Event)
    (buffer : ImageProcessor.Buffer) (format : string) :
  let validation := ImageProcessor.validateImageInput env imageUrl in
  ImageProcessor.valid validation = true ->
  ImageProcessor.loadImage env imageUrl (ImageProcessor.type validation)
    = (log0, inr (buffer, format)) ->
  let '(log, result) := ImageProcessor.processImage env options imageUrl in
  (ImageProcessor.maxSize options < ImageProcessor.byteLength buffer ->
   (exists thrown, result = inl thrown) /\ log = log0 /\
   (ImageProcessor.type validation = ImageProcessor.base64 -> ~ Images.decodes log)) /\
  (forall img, result = inr img ->
     ImageProcessor.byteLength buffer <= ImageProcessor.maxSize options /\
     exists log1 optimized,
       ImageProcessor.optimizeImage env options buffer format = (log1, inr optimized) /\
       log = log0 ++ log1 /\
       ImageProcessor.size img = ImageProcessor.byteLength optimized /\
       (optimized = buffer \/
        exists resize encoder,
          ImageProcessor.sharpToBuffer env buffer resize encoder
            (ImageProcessor.quality options) = inr optimized)) /\
  (forall img, result = inr img ->
     (forall resize encoder output,
        ImageProcessor.sharpToBuffer env buffer resize encoder
          (ImageProcessor.quality options) = inr output ->
        ImageProcessor.byteLength output <= ImageProcessor.byteLength buffer) ->
     ImageProcessor.size img <= ImageProcessor.maxSize options).
Proof.
  intros validation Hvalid Hload.
  unfold ImageProcessor.processImage.
  rewrite (processImageTry_loaded env options imageUrl log0 buffer format Hvalid Hload).
  destruct (Z.ltb_spec (ImageProcessor.maxSize options) (ImageProcessor.byteLength buffer))
    as [Hbig | Hfits].
  - (* too large: thrown before anything else happens *)
    cbn. rewrite app_nil_r.
    split; [|split; intros img [=]].
    intros _. split; [eauto|]. split; [reflexivity|].
    intros Hinline (ev & Hev & Hsharp).
    unfold ImageProcessor.loadImage in Hload. fold validation in Hload.
    rewrite Hinline in Hload. injection Hload as <- _ _.
    by apply not_elem_of_nil in Hev.
  - destruct (negb (bool_decide _)).
    { cbn. rewrite app_nil_r. split; [lia|]. split; intros img [=]. }
    destruct (optimizeImage_result env options buffer format)
      as (log1 & optimized & Hopt & Horigin).
    rewrite Hopt. cbn.
    split; [lia|].
    assert (Hsize : forall img : ImageProcessor.ImageData,
              (inr {| ImageProcessor.imageUrl :=
                        "data:" +:+ ImageProcessor.getMimeType (JS.toLowerCase format)
                        +:+ ";base64," +:+ ImageProcessor.toBase64 env optimized;
                      ImageProcessor.imageFormat := JS.toLowerCase format;
                      ImageProcessor.size := ImageProcessor.byteLength optimized;
                      ImageProcessor.base64Data :=
                        Some (ImageProcessor.toBase64 env optimized) |}
               : Thrown + ImageProcessor.ImageData) = inr img ->
              ImageProcessor.size img = ImageProcessor.byteLength optimized)
      by (intros img [= <-]; reflexivity).
    split.
    + intros img Himg. split; [exact Hfits|].
      exists log1, optimized. split; [reflexivity|]. split; [reflexivity|].
      split; [by apply Hsize | exact Horigin].
    + intros img Himg Hshrinks. rewrite (Hsize img Himg).
      destruct Horigin as [-> | (resize & encoder & Henc)]; [exact Hfits|].
      specialize (Hshrinks resize encoder optimized Henc). lia.
Qed.

Lemma processImage_size_policy_witness :
  ImageProcessor.valid
    (ImageProcessor.validateImageInput Images.growingEncoder Images.eightBytes) = true /\
  exists thrown,
    ImageProcessor.processImage Images.growingEncoder Images.tinyCeiling Images.eightBytes
    = ([], inl thrown).
Proof.
  split; [reflexivity|].
  pose proof (processImage_size_policy Images.growingEncoder Images.tinyCeiling
                Images.eightBytes [] (repeat Byte.x00 8) "png" eq_refl eq_refl) as H.
  destruct (ImageProcessor.processImage Images.growingEncoder Images.tinyCeiling
              Images.eightBytes) as [log result].
  destruct H as [Hlarge _].
  destruct Hlarge as ([thrown ->] & -> & _); [vm_compute; reflexivity|].
  by exists thrown.
Defined.

(** ** Strings *)

Section StringFacts.

Lemma take_length (n : nat) (s : string) :
  String.length (JS.take n s) = Nat.min n (String.length s).
Proof.
  revert s. induction n as [|n IH]; intros [|c s]; cbn; try reflexivity.
  by rewrite IH.
Qed.

Lemma take_all (n : nat) (s : string) :
  (String.length s <= n)%nat -> JS.take n s = s.
Proof.
  revert s. induction n as [|n IH]; intros [|c s]; cbn; intros H; try reflexivity; try lia.
  rewrite IH; [reflexivity | lia].
Qed.

Lemma take_take (a b : nat) (s : string) :
  (a <= b)%nat -> JS.take a (JS.take b s) = JS.take a s.
Proof.
  revert b s. induction a as [|a IH]; intros [|b] [|c s] H; cbn; try reflexivity; try lia.
  rewrite IH; [reflexivity | lia].
Qed.

Lemma get_take (k n : nat) (s : string) :
  (k < n)%nat -> String.get k (JS.take n s) = String.get k s.
Proof.
  revert n s. induction k as [|k IH]; intros [|n] [|c s] H; cbn; try reflexivity; try lia.
  apply IH. lia.
Qed.

Lemma get_beyond (k : nat) (s : string) :
  (String.length s <= k)%nat -> String.get k s = None.
Proof.
  revert s. induction k as [|k IH]; intros [|c s] H; cbn in *; try reflexivity; try lia.
  apply IH. lia.
Qed.

Lemma append_cons (c : ascii) (s t : string) :
  String c s +:+ t = String c (s +:+ t).
Proof. reflexivity. Qed.

Lemma append_assoc (s1 s2 s3 : string) :
  (s1 +:+ s2) +:+ s3 = s1 +:+ (s2 +:+ s3).
Proof.
  induction s1 as [|c s1 IH]; [reflexivity|].
  rewrite !append_cons. f_equal. exact IH.
Qed.

(** [substring(0, n)] is the prefix of length [n]. *)
Lemma substring_prefix (s : string) (n : Z) :
  JS.substring s 0 n = JS.take (Z.to_nat n) s.
Proof.
  unfold JS.substring, JS.clamp, JS.len.
  replace (Z.min (Z.max 0 (Z.min 0 (Z.of_nat (String.length s))))
                 (Z.max 0 (Z.min n (Z.of_nat (String.length s))))) with 0 by lia.
  rewrite Z.sub_0_r. change (JS.drop (Z.to_nat 0) s) with s.
  replace (Z.max (Z.max 0 (Z.min 0 (Z.of_nat (String.length s))))
                 (Z.max 0 (Z.min n (Z.of_nat (String.length s)))))
    with (Z.max 0 (Z.min n (Z.of_nat (String.length s)))) by lia.
  destruct (Z_le_gt_dec n (Z.of_nat (String.length s))) as [Hle | Hgt].
  - f_equal. lia.
  - rewrite (take_all (Z.to_nat n)) by lia. apply take_all. lia.
Qed.

(** What [lastIndexOf] returns. *)
Lemma lastIndexFrom_spec (c : ascii) (s : string) (i found : Z) :
  let r := JS.lastIndexFrom c s i found in
  (r = found /\ forall k, String.get k s <> Some c)
  \/ (i <= r < i + JS.len s /\
      String.get (Z.to_nat (r - i)) s = Some c /\
      forall k, (Z.to_nat (r - i) < k)%nat -> String.get k s <> Some c).
Proof.
  revert i found. induction s as [|d s IH]; intros i found; cbn [JS.lastIndexFrom].
  - left. split; [reflexivity|]. intros k. by destruct k.
  - specialize (IH (i + 1) (if Ascii.eqb d c then i else found)).
    cbn zeta in IH. unfold JS.len in *. cbn [String.length].
    destruct IH as [[Hr Hnone] | (Hrange & Hget & Hlast)].
    + destruct (Ascii.eqb_spec d c) as [-> | Hne].
      * right. rewrite Hr, Z.sub_diag. cbn.
        split; [lia|]. split; [reflexivity|].
        intros [|k] Hk; [lia | apply Hnone].
      * left. split; [exact Hr|].
        intros [|k]; cbn; [congruence | apply Hnone].
    + right. split; [lia|].
      replace (Z.to_nat (JS.lastIndexFrom c s (i + 1) (if Ascii.eqb d c then i else found) - i))
        with (S (Z.to_nat (JS.lastIndexFrom c s (i + 1) (if Ascii.eqb d c then i else found) - (i + 1))))
        by lia.
      cbn. split; [exact Hget|].
      intros [|k] Hk; [lia | apply Hlast; lia].
Qed.

Lemma lastIndexOf_spec (s : string) (c : ascii) :
  let r := JS.lastIndexOf s c in
  (r = -1 /\ forall k, String.get k s <> Some c)
  \/ (0 <= r < JS.len s /\
      String.get (Z.to_nat r) s = Some c /\
      forall k, (Z.to_nat r < k)%nat -> String.get k s <> Some c).
Proof.
  pose proof (lastIndexFrom_spec c s 0 (-1)) as H. cbn zeta in H.
  unfold JS.lastIndexOf. rewrite Z.sub_0_r, Z.add_0_l in H. exact H.
Qed.

End StringFacts.

(** ** Truncation *)

(** ** The double product [n * 0.7] *)

Section DoubleProofs.
Import Double.

(** Rounding to 53 bits moves a positive integer by at most one part
    in [2^53]. *)
Lemma round53_spec (m : Z) :
  0 < m ->
  let '(mantissa, exponent) := round53 m in
  0 <= exponent /\ 0 < mantissa /\
  (mantissa * 2 ^ exponent - m) * 2 ^ 53 <= m /\
  (m - mantissa * 2 ^ exponent) * 2 ^ 53 <= m.
Proof.
  intros Hm. unfold round53.
  destruct (Z.leb_spec (Z.log2 m - 52) 0) as [Hsmall | Hbig].
  { change (2 ^ 0) with 1. lia. }
  set (e := Z.log2 m - 52) in *.
  rewrite Z.shiftr_div_pow2, Z.land_ones, Z.shiftl_1_l by lia.
  pose proof (Z.log2_spec m Hm) as [Hlow _].
  replace (Z.log2 m) with (e - 1 + 53) in Hlow by lia.
  rewrite Z.pow_add_r in Hlow by lia.
  assert (Hpow : 2 ^ e = 2 * 2 ^ (e - 1)).
  { replace e with (1 + (e - 1)) at 1 by lia. by rewrite Z.pow_add_r by lia. }
  assert (Hhalf : 0 < 2 ^ (e - 1)) by (apply Z.pow_pos_nonneg; lia).
  pose proof (Z.div_mod m (2 ^ e) ltac:(lia)) as Hdiv.
  pose proof (Z.mod_pos_bound m (2 ^ e) ltac:(lia)) as Hrest.
  set (half := 2 ^ (e - 1)) in *.
  set (kept := m / 2 ^ e) in *. set (rest := m mod 2 ^ e) in *.
  assert (Hkept : 0 < kept).
  { apply Z.div_str_pos. change (2 ^ 53) with 9007199254740992 in Hlow. lia. }
  change (2 ^ 53) with 9007199254740992 in *.
  assert (Hprod : 2 ^ e * kept = 2 * (half * kept)) by (rewrite Hpow; ring).
  destruct ((half <? rest) || ((rest =? half) && Z.odd kept)) eqn:Hup.
  - assert (half <= rest).
    { apply orb_true_iff in Hup as [H | H]; [apply Z.ltb_lt in H; lia|].
      apply andb_true_iff in H as [H _]. apply Z.eqb_eq in H. lia. }
    split; [lia|]. split; [lia|]. rewrite Hpow. nia.
  - apply orb_false_iff in Hup as [H _]. apply Z.ltb_ge in H.
    split; [lia|]. split; [lia|]. rewrite Hpow. nia.
Qed.

(** The product is positive and within one part in [2^53] of
    [n * sevenTenths]. *)
Lemma timesSevenTenths_spec (n : Z) :
  0 < n ->
  0 < timesSevenTenths n /\
  (timesSevenTenths n - n * sevenTenths) * 2 ^ 53 <= n * sevenTenths /\
  (n * sevenTenths - timesSevenTenths n) * 2 ^ 53 <= n * sevenTenths.
Proof.
  intros Hn. unfold timesSevenTenths.
  rewrite Z.abs_eq, (Z.sgn_pos n) by lia.
  pose proof (round53_spec (n * sevenTenths) ltac:(unfold sevenTenths; lia)) as H.
  destruct (round53 (n * sevenTenths)) as [mantissa exponent].
  destruct H as (He & Hq & Hup & Hdown).
  rewrite Z.shiftl_mul_pow2 by lia.
  assert (0 < 2 ^ exponent) by (apply Z.pow_pos_nonneg; lia).
  split; [nia|]. split; [|]; rewrite Z.mul_1_l; assumption.
Qed.

Lemma exceedsSevenTenths_positive (k n : Z) :
  0 < n -> exceedsSevenTenths k n = true -> 0 < k.
Proof.
  intros Hn H. unfold exceedsSevenTenths in H. apply Z.ltb_lt in H.
  pose proof (timesSevenTenths_spec n Hn) as [Hpos _].
  change (2 ^ 53) with 9007199254740992 in H. lia.
Qed.

(** Away from the exact seven tenths the rounding does not show. *)
Lemma exceedsSevenTenths_apart (k n : Z) :
  0 < n < 2 ^ 49 ->
  (7 * n < 10 * k -> exceedsSevenTenths k n = true) /\
  (10 * k < 7 * n -> exceedsSevenTenths k n = false).
Proof.
  intros Hn. unfold exceedsSevenTenths.
  pose proof (timesSevenTenths_spec n ltac:(lia)) as (_ & Hup & Hdown).
  unfold sevenTenths in *.
  change (2 ^ 53) with 9007199254740992 in *.
  change (2 ^ 49) with 562949953421312 in *.
  split; intros H.
  - apply Z.ltb_lt. lia.
  - apply Z.ltb_ge. lia.
Qed.

(** On every limit from -500 to 4499, and cut-offs around seven tenths
    of it, the comparison is the one the machine makes on its doubles. *)
Lemma exceedsSevenTenths_machine :
  forallb (λ n, forallb (λ k, Bool.eqb (exceedsSevenTenths k n)
                                          (machineExceedsSevenTenths k n))
                        [-1; 0; n * 7 / 10 - 1; n * 7 / 10; n * 7 / 10 + 1; n])
          (range (-500) 5000) = true.
Proof. vm_compute. reflexivity. Qed.

End DoubleProofs.

Section TruncationProofs.

Import ResponseTransformer.

(** The cut-off computed by [truncateResponse] on the text it kept. *)
Lemma boundary_cutoff (window : string) :
  let cutoff := Z.max (JS.lastIndexOf window ".") (JS.lastIndexOf window LF) in
  -1 <= cutoff < JS.len window /\
  (0 <= cutoff ->
   (String.get (Z.to_nat cutoff) window = Some "."%char
    \/ String.get (Z.to_nat cutoff) window = Some LF) /\
   forall k, (Z.to_nat cutoff < k)%nat ->
     String.get k window <> Some "."%char /\ String.get k window <> Some LF).
Proof.
  pose proof (lastIndexOf_spec window ".") as Ha.
  pose proof (lastIndexOf_spec window LF) as Hb.
  cbn zeta in *.
  set (a := JS.lastIndexOf window ".") in *.
  set (b := JS.lastIndexOf window LF) in *.
  assert (Hlen : 0 <= JS.len window) by (unfold JS.len; lia).
  destruct Ha as [[Ha Hna] | (Hra & Hga & Hla)], Hb as [[Hb Hnb] | (Hrb & Hgb & Hlb)].
  - split; [lia|]. intros. lia.
  - split; [lia|]. intros _. replace (Z.max a b) with b by lia.
    split; [by right|]. intros k Hk. split; [apply Hna | by apply Hlb].
  - split; [lia|]. intros _. replace (Z.max a b) with a by lia.
    split; [by left|]. intros k Hk. split; [by apply Hla | apply Hnb].
  - split; [lia|]. intros _.
    destruct (Z.max_spec a b) as [[Hlt ->] | [Hge ->]].
    + split; [by right|]. intros k Hk. split; [apply Hla; lia | by apply Hlb].
    + split; [by left|]. intros k Hk. split; [by apply Hla | apply Hlb; lia].
Qed.

(** A full stop in the last position of the kept text is the cut-off. *)
Lemma cutoff_at_end (window : string) (n : nat) :
  String.length window = S n ->
  String.get n window = Some "."%char ->
  Z.max (JS.lastIndexOf window ".") (JS.lastIndexOf window LF) = Z.of_nat n.
Proof.
  intros Hlen Hget.
  pose proof (lastIndexOf_spec window ".") as Ha.
  pose proof (boundary_cutoff window) as [Hrange _].
  cbn zeta in *. unfold JS.len in *. rewrite Hlen in *.
  destruct Ha as [[_ Hnone] | (Hra & _ & Hlast)].
  - by destruct (Hnone n).
  - destruct (Z_lt_ge_dec (JS.lastIndexOf window ".") (Z.of_nat n)) as [Hlt | Hge]; [|lia].
    destruct (Hlast n); [lia | exact Hget].
Qed.

End TruncationProofs.

(** C8, as stated, fails: a text of 120 characters whose only sentence
    boundary is at index 60, formatted with a limit of 100, comes out as
    its first 50 characters followed by ["..."] and the marker: it is not
    cut at its last boundary before the limit, whatever is taken for the
    marker. *)
Lemma truncation_not_at_last_boundary :
  JS.len Truncation.oneSentence = 120 /\
  Truncation.lastBoundaryBefore Truncation.oneSentence 100 = 60 /\
  ResponseTransformer.formatResponseText Truncation.oneSentence (Truncation.limitedTo 100)
    = ResponseTransformer.repeatChar 50 "a" +:+ "..."
      +:+ ResponseTransformer.truncationMarker /\
  ~ Truncation.cutAsStated Truncation.oneSentence 100
      (ResponseTransformer.formatResponseText Truncation.oneSentence
         (Truncation.limitedTo 100)).
Proof.
  split; [vm_compute; reflexivity|].
  split; [vm_compute; reflexivity|].
  split; [vm_compute; reflexivity|].
  intros [marker H]. vm_compute in H. discriminate H.
Qed.

(** A full stop at index 3950, one character further than in
    [longAnswer], falls outside the first 3950 characters that are
    searched: the cut is made just before it. *)
Example full_stop_at_index_3950_is_missed :
  let text := ResponseTransformer.repeatChar 3950 "a" +:+ "."
              +:+ ResponseTransformer.repeatChar 1049 "b" in
  JS.len text = 5000 /\
  ResponseTransformer.formatResponseText text (Truncation.limitedTo 4000)
  = ResponseTransformer.repeatChar 3950 "a" +:+ "..."
    +:+ ResponseTransformer.truncationMarker.
Proof. split; vm_compute; reflexivity. Qed.

(** At exactly seven tenths of the limit the rounding of the product
    decides.  [170 * 0.7] is 118.99999999999999: a text of 200
    characters whose only boundary is at index 119, limited to 170, is
    cut at that boundary.  [200 * 0.7] is 140: a text of 250 characters
    whose only boundary is at index 140, limited to 200, is cut after
    its first 150 characters. *)
Example boundary_at_seven_tenths :
  ResponseTransformer.aboveSeventyPercent 119 170 = true /\
  ResponseTransformer.formatResponseText Truncation.sevenTenthsOf170
    (Truncation.limitedTo 170)
  = ResponseTransformer.repeatChar 119 "a" +:+ "."
    +:+ ResponseTransformer.truncationMarker /\
  ResponseTransformer.aboveSeventyPercent 140 200 = false /\
  ResponseTransformer.formatResponseText Truncation.sevenTenthsOf200
    (Truncation.limitedTo 200)
  = ResponseTransformer.repeatChar 140 "a" +:+ "."
    +:+ ResponseTransformer.repeatChar 9 "b" +:+ "..."
    +:+ ResponseTransformer.truncationMarker.
Proof. repeat split; vm_compute; reflexivity. Qed.

(** C8, amended.  When the formatted text is longer than a non-zero
    [maxResponseLength], the output always ends with the marker
    ["\n\n[Response truncated]"].  Let the cut-off be the index of the
    last ['.'] or line feed among the first [maxResponseLength - 50]
    characters.  If it is greater than the double
    [maxResponseLength * 0.7], the output is the text up to and
    including that boundary, then the marker; otherwise it is the first
    [maxResponseLength - 50] characters, then ["..."], then the marker.
    For a limit below [2^49] the cut-off is greater than that double
    whenever it is more than seven tenths of the limit, and is not
    whenever it is less; when it is exactly seven tenths the rounding of
    the product decides ([boundary_at_seven_tenths]).  In particular a
    text of 5000 characters whose 3950th character is a full stop,
    limited to 4000, is cut right after that full stop. *)
Theorem formatResponseText_truncation
    (content : string) (options : ResponseTransformer.TransformOptions) (maxLength : Z) :
  ResponseTransformer.maxResponseLength options = Some maxLength ->
  maxLength <> 0 ->
  let text := ResponseTransformer.normalizeResponseText content options in
  maxLength < JS.len text ->
  let window := JS.substring text 0 (maxLength - 50) in
  let cutoff := Z.max (JS.lastIndexOf window ".")
                      (JS.lastIndexOf window ResponseTransformer.LF) in
  let out := ResponseTransformer.formatResponseText content options in
  out = ResponseTransformer.truncateResponse text maxLength /\
  (exists kept, out = kept +:+ ResponseTransformer.truncationMarker) /\
  (ResponseTransformer.aboveSeventyPercent cutoff maxLength = true ->
   out = JS.take (Z.to_nat (cutoff + 1)) text +:+ ResponseTransformer.truncationMarker /\
   (0 < maxLength ->
    (String.get (Z.to_nat cutoff) text = Some "."%char
     \/ String.get (Z.to_nat cutoff) text = Some ResponseTransformer.LF) /\
    forall j, cutoff < j < maxLength - 50 ->
      String.get (Z.to_nat j) text <> Some "."%char /\
      String.get (Z.to_nat j) text <> Some ResponseTransformer.LF)) /\
  (ResponseTransformer.aboveSeventyPercent cutoff maxLength = false ->
   out = JS.take (Z.to_nat (maxLength - 50)) text +:+ "..."
         +:+ ResponseTransformer.truncationMarker) /\
  (0 < maxLength < 2 ^ 49 ->
   (7 * maxLength < 10 * cutoff ->
    ResponseTransformer.aboveSeventyPercent cutoff maxLength = true) /\
   (10 * cutoff < 7 * maxLength ->
    ResponseTransformer.aboveSeventyPercent cutoff maxLength = false)) /\
  (JS.len text = 5000 -> maxLength = 4000 ->
   String.get 3949 text = Some "."%char ->
   out = JS.take 3950 text +:+ ResponseTransformer.truncationMarker).
Proof.
  intros Hmax Hne text Hlong window cutoff out.
  assert (Hout : out = ResponseTransformer.truncateResponse text maxLength).
  { subst out. unfold ResponseTransformer.formatResponseText. fold text.
    rewrite Hmax. cbn [JS.truthyZ].
    destruct (Z.eqb_spec maxLength 0); [done|].
    destruct (Z.ltb_spec maxLength (JS.len text)); [reflexivity | lia]. }
  assert (Hwindow : window = JS.take (Z.to_nat (maxLength - 50)) text)
    by apply substring_prefix.
  pose proof (boundary_cutoff window) as [Hrange Hboundary]. fold cutoff in Hrange, Hboundary.
  assert (Hwlen : JS.len window <= Z.of_nat (Z.to_nat (maxLength - 50))).
  { unfold JS.len. rewrite Hwindow, take_length. lia. }
  assert (Hcut : ResponseTransformer.aboveSeventyPercent cutoff maxLength = true ->
                 out = JS.take (Z.to_nat (cutoff + 1)) text
                       +:+ ResponseTransformer.truncationMarker).
  { intros Habove. rewrite Hout. unfold ResponseTransformer.truncateResponse.
    destruct (Z.leb_spec (JS.len text) maxLength); [lia|].
    fold window. fold cutoff. rewrite Habove.
    rewrite substring_prefix, Hwindow, take_take by lia. reflexivity. }
  assert (Hdots : ResponseTransformer.aboveSeventyPercent cutoff maxLength = false ->
                  out = JS.take (Z.to_nat (maxLength - 50)) text +:+ "..."
                        +:+ ResponseTransformer.truncationMarker).
  { intros Hbelow. rewrite Hout. unfold ResponseTransformer.truncateResponse.
    destruct (Z.leb_spec (JS.len text) maxLength); [lia|].
    fold window. fold cutoff. rewrite Hbelow, Hwindow. reflexivity. }
  split; [exact Hout|].
  split.
  { destruct (ResponseTransformer.aboveSeventyPercent cutoff maxLength) eqn:Habove.
    - eexists. by apply Hcut.
    - exists (JS.take (Z.to_nat (maxLength - 50)) text +:+ "...").
      rewrite append_assoc. by apply Hdots. }
  split.
  { intros Habove. split; [by apply Hcut|].
    intros Hpos.
    pose proof (exceedsSevenTenths_positive cutoff maxLength Hpos Habove) as Hfound.
    destruct Hboundary as [Hat Hafter]; [lia|].
    rewrite Hwindow in Hat, Hafter.
    rewrite get_take in Hat by lia.
    split; [exact Hat|].
    intros j Hj. specialize (Hafter (Z.to_nat j) ltac:(lia)).
    rewrite get_take in Hafter by lia. exact Hafter. }
  split; [exact Hdots|].
  split; [apply exceedsSevenTenths_apart|].
  intros Hlen -> Hstop.
  assert (Hc : cutoff = 3949).
  { subst cutoff. rewrite (cutoff_at_end window 3949); [reflexivity | |].
    - rewrite Hwindow, take_length. unfold JS.len in Hlen. lia.
    - rewrite Hwindow, get_take by lia. exact Hstop. }
  rewrite Hcut; [by rewrite Hc | by rewrite Hc].
Qed.

Lemma formatResponseText_truncation_witness :
  ResponseTransformer.maxResponseLength (Truncation.limitedTo 4000) = Some 4000 /\
  4000 <> 0 /\
  4000 < JS.len (ResponseTransformer.normalizeResponseText Truncation.longAnswer
                   (Truncation.limitedTo 4000)) /\
  ResponseTransformer.formatResponseText Truncation.longAnswer (Truncation.limitedTo 4000)
  = JS.take 3950 (ResponseTransformer.normalizeResponseText Truncation.longAnswer
                    (Truncation.limitedTo 4000))
    +:+ ResponseTransformer.truncationMarker.
Proof.
  assert (Hne : 4000 <> 0) by discriminate.
  assert (Hlen : JS.len (ResponseTransformer.normalizeResponseText Truncation.longAnswer
                           (Truncation.limitedTo 4000)) = 5000)
    by (vm_compute; reflexivity).
  split; [reflexivity|]. split; [exact Hne|]. split; [rewrite Hlen; reflexivity|].
  apply (formatResponseText_truncation Truncation.longAnswer (Truncation.limitedTo 4000)
           4000 eq_refl Hne).
  - rewrite Hlen. reflexivity.
  - exact Hlen.
  - reflexivity.
  - vm_compute. reflexivity.
Defined.

(** ** The streaming transformer *)

Section StreamingProofs.

Import ResponseTransformer Streaming.

Variable opts : TransformOptions.

Lemma shouldProcessChunk_large (chunk : string) :
  threshold opts <= JS.len chunk -> shouldProcessChunk chunk opts = true.
Proof.
  intros H. unfold shouldProcessChunk. fold (threshold opts).
  destruct (Z.leb_spec (threshold opts) (JS.len chunk)); [reflexivity | lia].
Qed.

Lemma shouldProcessChunk_small (chunk : string) :
  JS.len chunk < threshold opts ->
  shouldProcessChunk chunk opts =
  matchesSomeSuffix
    (λ t, match t with
          | String c rest => isSentenceEnd c && ImageProcessor.allChars JS.isWhiteSpace rest
          | EmptyString => false
          end) chunk
  || matchesSomeSuffix
       (λ t, match t with
             | String c rest => Ascii.eqb c LF && ImageProcessor.allChars JS.isWhiteSpace rest
             | EmptyString => false
             end) chunk.
Proof.
  intros H. unfold shouldProcessChunk. fold (threshold opts).
  destruct (Z.leb_spec (threshold opts) (JS.len chunk)); [lia|].
  destruct (matchesSomeSuffix _ chunk); [reflexivity|].
  destruct (matchesSomeSuffix _ chunk); reflexivity.
Qed.

(** A chunk ending a sentence is processed whatever the threshold. *)
Lemma shouldProcessChunk_sentence (chunk : string) :
  matchesSomeSuffix
    (λ t, match t with
          | String c rest => isSentenceEnd c && ImageProcessor.allChars JS.isWhiteSpace rest
          | EmptyString => false
          end) chunk = true ->
  shouldProcessChunk chunk opts = true.
Proof.
  intros H. unfold shouldProcessChunk. rewrite H.
  by destruct (_ <=? _).
Qed.

(** The two ways the loop handles a non-empty delta. *)
Lemma forAwait_processed (text : string) (rest : list StreamItem) (st : Locals) :
  JS.truthyStr (Some text) = Some text ->
  shouldProcessChunk (chunkBuffer st +:+ text) opts = true ->
  forAwait opts (deltaChunk text :: rest) st =
  let accumulated :=
    accumulatedText st +:+ processChunk (chunkBuffer st +:+ text) opts in
  let analysis :=
    if negb (hasImageAnalysis st) && isImageAnalysis accumulated
    then true else hasImageAnalysis st in
  let '(yielded, exit) :=
    forAwait opts rest
      {| accumulatedText := accumulated; chunkBuffer := ""; hasImageAnalysis := analysis |} in
  (createIntermediateResponse accumulated analysis opts :: yielded, exit).
Proof.
  intros Htext Hshould. unfold deltaChunk. cbn [forAwait type data].
  rewrite Htext, Hshould. reflexivity.
Qed.

Lemma forAwait_buffered (text : string) (rest : list StreamItem) (st : Locals) :
  JS.truthyStr (Some text) = Some text ->
  shouldProcessChunk (chunkBuffer st +:+ text) opts = false ->
  forAwait opts (deltaChunk text :: rest) st =
  forAwait opts rest
    {| accumulatedText := accumulatedText st;
       chunkBuffer := chunkBuffer st +:+ text;
       hasImageAnalysis := hasImageAnalysis st |}.
Proof.
  intros Htext Hshould. unfold deltaChunk. cbn [forAwait type data].
  rewrite Htext, Hshould. reflexivity.
Qed.

(** One delta of the loop, according to what [shouldProcessChunk] says
    of the buffer it completes. *)
Ltac next_locals :=
  cbn zeta; cbn [accumulatedText chunkBuffer hasImageAnalysis].

Ltac processed_by_size n :=
  rewrite forAwait_processed;
  [ next_locals
  | reflexivity
  | apply shouldProcessChunk_large;
    match goal with |- ?t <= _ => change (t <= n) end; lia ].

Ltac processed_by_sentence :=
  rewrite forAwait_processed;
  [ next_locals
  | reflexivity
  | apply shouldProcessChunk_sentence; reflexivity ].

Ltac buffered n :=
  rewrite forAwait_buffered;
  [ next_locals
  | reflexivity
  | rewrite shouldProcessChunk_small;
    [ reflexivity | match goal with |- _ < ?t => change (n < t) end; lia ] ].

(** The loop over the four chunks: some intermediate responses, all of
    them partial, then the final response made of [" Hello world."], and
    an empty buffer. *)
Lemma forAwait_hello :
  exists intermediates st,
    forAwait opts helloStream
      {| accumulatedText := ""; chunkBuffer := ""; hasImageAnalysis := false |}
    = (intermediates ++ [createFinalResponse " Hello world." opts], inr st) /\
    Forall (λ r, partialFlag r = Some true) intermediates /\
    chunkBuffer st = "".
Proof.
  unfold helloStream.
  assert (Hpartial : forall text analysis,
            partialFlag (createIntermediateResponse text analysis opts) = Some true)
    by reflexivity.
  destruct (Z_le_gt_dec (threshold opts) 5) as [H5 | H5].
  - (* every delta is processed on arrival *)
    processed_by_size 5. processed_by_size 6. processed_by_sentence.
    eexists [_; _; _], _. split; [reflexivity|]. split; [|reflexivity].
    repeat constructor.
  - destruct (Z_le_gt_dec (threshold opts) 11) as [H11 | H11].
    + (* "Hello" waits for " world" *)
      buffered 5. processed_by_size 11. processed_by_sentence.
      eexists [_; _], _. split; [reflexivity|]. split; [|reflexivity].
      repeat constructor.
    + (* nothing is processed before the full stop *)
      buffered 5. buffered 11. processed_by_sentence.
      eexists [_], _. split; [reflexivity|]. split; [|reflexivity].
      repeat constructor.
Qed.

(** Formatting starts by trimming. *)
Lemma formatResponseText_trim (a b : string) :
  JS.trim a = JS.trim b -> formatResponseText a opts = formatResponseText b opts.
Proof.
  intros H. unfold formatResponseText, normalizeResponseText. by rewrite H.
Qed.

(** The single-shot path formats the extracted content. *)
Lemma transformVisionResponse_content (defaults options : TransformOptions)
    (response : ChatCompletionResponse) (text : string) (elapsed : Z) :
  extractContent response = inr text ->
  content (transformVisionResponse defaults response options elapsed)
  = [formatResponseText text (spread defaults options)].
Proof.
  intros Hcontent. unfold transformVisionResponse, extractMetadata, estimateConfidence.
  rewrite Hcontent.
  destruct (truthy (includeConfidence (spread defaults options))); reflexivity.
Qed.

(** Partial responses are not final ones. *)
Lemma no_final_among_partial (rs : list VisionResponse) :
  Forall (λ r, partialFlag r = Some true) rs ->
  filter (λ r, partialFlag r = Some false) rs = [].
Proof.
  induction 1 as [|r rs Hr _ IH]; [reflexivity|].
  rewrite filter_cons, IH. case_decide; [congruence | reflexivity].
Qed.

(** The text ["Hello world."] passes through formatting unchanged when it
    is not truncated. *)
Lemma formatResponseText_hello :
  match JS.truthyZ (maxResponseLength opts) with
  | Some limit => 12 <= limit
  | None => True
  end ->
  formatResponseText "Hello world." opts = "Hello world.".
Proof.
  intros Hlimit. unfold formatResponseText.
  assert (Hnorm : normalizeResponseText "Hello world." opts = "Hello world.").
  { unfold normalizeResponseText.
    destruct (truthy (addAnalysisPrefix opts)), (truthy (preserveFormatting opts));
      reflexivity. }
  rewrite Hnorm.
  destruct (JS.truthyZ (maxResponseLength opts)) as [limit|]; [|reflexivity].
  change (JS.len "Hello world.") with 12.
  destruct (Z.ltb_spec limit 12); [lia | reflexivity].
Qed.

End StreamingProofs.

(** C6.  Fed the deltas ["Hello"], [" world"], ["."] and then [done],
    [transformStreamingResponse] yields some partial responses followed by
    one response with [partial = false], the only one.  The text of that
    response is the text the single-shot path produces, under the same
    options, for a response whose content is ["Hello world."]: both are
    [formatResponseText] of that content, prefix and truncation included.
    It is ["Hello world."] itself unless [maxResponseLength] is set below
    its twelve characters. *)
Theorem streaming_hello_world
    (defaults options : ResponseTransformer.TransformOptions)
    (response : ChatCompletionResponse) (elapsed : Z) :
  ResponseTransformer.extractContent response = inr "Hello world." ->
  let opts := ResponseTransformer.spread defaults options in
  let out :=
    ResponseTransformer.transformStreamingResponse defaults Streaming.helloStream options in
  exists intermediates final,
    out = intermediates ++ [final] /\
    Forall (λ r, Streaming.partialFlag r = Some true) intermediates /\
    Streaming.partialFlag final = Some false /\
    length (filter (λ r, Streaming.partialFlag r = Some false) out) = 1%nat /\
    ResponseTransformer.content final
      = ResponseTransformer.content
          (ResponseTransformer.transformVisionResponse defaults response options elapsed) /\
    ResponseTransformer.content final
      = [ResponseTransformer.formatResponseText "Hello world." opts] /\
    (match JS.truthyZ (ResponseTransformer.maxResponseLength opts) with
     | Some limit => 12 <= limit
     | None => True
     end ->
     ResponseTransformer.content final = ["Hello world."]).
Proof.
  intros Hcontent opts out.
  destruct (forAwait_hello opts) as (intermediates & st & Hloop & Hpartial & Hbuffer).
  exists intermediates, (ResponseTransformer.createFinalResponse " Hello world." opts).
  assert (Hout : out = intermediates
                       ++ [ResponseTransformer.createFinalResponse " Hello world." opts]).
  { subst out. unfold ResponseTransformer.transformStreamingResponse. fold opts.
    rewrite Hloop, Hbuffer. reflexivity. }
  assert (Hsame : ResponseTransformer.formatResponseText " Hello world." opts
                  = ResponseTransformer.formatResponseText "Hello world." opts)
    by (apply formatResponseText_trim; reflexivity).
  split; [exact Hout|]. split; [exact Hpartial|]. split; [reflexivity|].
  split.
  { rewrite Hout, filter_app, length_app, (no_final_among_partial _ Hpartial).
    reflexivity. }
  cbn [ResponseTransformer.createFinalResponse ResponseTransformer.content].
  rewrite Hsame.
  split.
  { rewrite (transformVisionResponse_content defaults options response "Hello world."
               elapsed Hcontent).
    reflexivity. }
  split; [reflexivity|].
  intros Hlimit. by rewrite (formatResponseText_hello opts Hlimit).
Qed.

Lemma streaming_hello_world_witness :
  ResponseTransformer.extractContent (Streaming.answer "Hello world.") = inr "Hello world." /\
  exists intermediates final,
    ResponseTransformer.transformStreamingResponse ResponseTransformer.defaultOptions
      Streaming.helloStream Streaming.noOptions
    = intermediates ++ [final] /\
    ResponseTransformer.content final = ["Hello world."].
Proof.
  split; [reflexivity|].
  destruct (streaming_hello_world ResponseTransformer.defaultOptions Streaming.noOptions
              (Streaming.answer "Hello world.") 0 eq_refl)
    as (intermediates & final & Hout & _ & _ & _ & _ & _ & Htext).
  exists intermediates, final. split; [exact Hout|].
  apply Htext. cbn. lia.
Defined.

(** * Further properties of the model manager and the router *)

Section ValidationFacts.

Import ModelManager.

Lemma truthyZ_Some (o : option Z) (z : Z) :
  JS.truthyZ o = Some z <-> o = Some z /\ z <> 0.
Proof.
  destruct o as [y|]; cbn; [|split; [discriminate | intros [[=] _]]].
  destruct (Z.eqb_spec y 0) as [-> | Hne]; split.
  - discriminate.
  - intros [[= <-] Hz]. done.
  - intros [= <-]. done.
  - intros [[= <-] _]. reflexivity.
Qed.

End ValidationFacts.

(** X1.  [validateModel] accepts a model exactly when it has a capability
    entry that supports images if the request has one, allows as many
    output tokens as are requested, and has the context length asked for;
    it reports no issue exactly when it accepts, a single issue for a
    model without entry, and never more than three. *)
Theorem validateModel_characterised
    (m : ModelManager.t) (modelId : string) (requirements : ModelManager.Requirements) :
  let v := ModelManager.validateModel m modelId requirements in
  (ModelManager.valid v = true <->
   exists caps,
     ModelManager.capabilities m !! modelId = Some caps /\
     (ModelManager.reqHasImage requirements = true ->
      ModelManager.supportsImages caps = true) /\
     (forall requested,
        JS.truthyZ (ModelManager.reqMaxTokens requirements) = Some requested ->
        requested <= ModelManager.maxTokens caps) /\
     (forall requested,
        JS.truthyZ (ModelManager.minContextLength requirements) = Some requested ->
        requested <= ModelManager.contextLength caps)) /\
  (ModelManager.valid v = true <-> ModelManager.issues v = []) /\
  (ModelManager.capabilities m !! modelId = None ->
   v = {| ModelManager.valid := false;
          ModelManager.issues := ["Model capabilities not known"] |}) /\
  (length (ModelManager.issues v) <= 3)%nat.
Proof.
  unfold ModelManager.validateModel.
  destruct (ModelManager.capabilities m !! modelId) as [caps|]; cbn zeta.
  2: { repeat split; try done; cbn; try lia.
       intros (caps & [=] & _). }
  set (image := if ModelManager.reqHasImage requirements
                   && negb (ModelManager.supportsImages caps)
                then ["Model does not support images"] else []).
  set (tokens := match JS.truthyZ (ModelManager.reqMaxTokens requirements) with
                 | Some requested =>
                     if ModelManager.maxTokens caps <? requested then [_] else []
                 | None => []
                 end).
  set (context := match JS.truthyZ (ModelManager.minContextLength requirements) with
                  | Some requested =>
                      if ModelManager.contextLength caps <? requested then [_] else []
                  | None => []
                  end).
  cbn [ModelManager.valid ModelManager.issues].
  assert (Himage : image = [] <->
                   (ModelManager.reqHasImage requirements = true ->
                    ModelManager.supportsImages caps = true)).
  { subst image.
    destruct (ModelManager.reqHasImage requirements), (ModelManager.supportsImages caps);
      cbn; split; intros H; try done; by specialize (H eq_refl). }
  assert (Htokens : tokens = [] <->
                    forall requested,
                      JS.truthyZ (ModelManager.reqMaxTokens requirements) = Some requested ->
                      requested <= ModelManager.maxTokens caps).
  { subst tokens.
    destruct (JS.truthyZ (ModelManager.reqMaxTokens requirements)) as [t|].
    - destruct (Z.ltb_spec (ModelManager.maxTokens caps) t); split.
      + intros [=].
      + intros H'. specialize (H' t eq_refl). lia.
      + intros _ ? [= <-]. lia.
      + reflexivity.
    - split; [intros _ ? [=] | reflexivity]. }
  assert (Hcontext : context = [] <->
                     forall requested,
                       JS.truthyZ (ModelManager.minContextLength requirements) = Some requested ->
                       requested <= ModelManager.contextLength caps).
  { subst context.
    destruct (JS.truthyZ (ModelManager.minContextLength requirements)) as [t|].
    - destruct (Z.ltb_spec (ModelManager.contextLength caps) t); split.
      + intros [=].
      + intros H'. specialize (H' t eq_refl). lia.
      + intros _ ? [= <-]. lia.
      + reflexivity.
    - split; [intros _ ? [=] | reflexivity]. }
  assert (Hall : (image ++ tokens ++ context = []) <->
                 image = [] /\ tokens = [] /\ context = []).
  { split.
    - intros H. apply app_eq_nil in H as [-> H]. apply app_eq_nil in H as [-> ->]. done.
    - intros (-> & -> & ->). reflexivity. }
  split; [|split; [|split]].
  - rewrite bool_decide_eq_true, Hall, Himage, Htokens, Hcontext.
    split.
    + intros (? & ? & ?). exists caps. done.
    + intros (caps' & [= <-] & ? & ? & ?). done.
  - apply bool_decide_eq_true.
  - discriminate.
  - rewrite !length_app.
    assert (length image <= 1)%nat
      by (subst image; destruct (_ && _); cbn; lia).
    assert (length tokens <= 1)%nat
      by (subst tokens;
          destruct (JS.truthyZ (ModelManager.reqMaxTokens requirements));
          [destruct (_ <? _)|]; cbn; lia).
    assert (length context <= 1)%nat
      by (subst context;
          destruct (JS.truthyZ (ModelManager.minContextLength requirements));
          [destruct (_ <? _)|]; cbn; lia).
    lia.
Qed.

(** X2.  [setModelCapabilities] followed by [getModelCapabilities]: the model
    updated has an entry whose fields are those given, the others being
    those of the entry it had, or the defaults when it had none; no other
    model's entry changes, and neither does the configuration; applying
    the same update a second time changes nothing. *)
Theorem setModelCapabilities_lookup
    (m : ModelManager.t) (modelId : string) (c : ModelManager.PartialCapabilities) :
  let m' := ModelManager.setModelCapabilities m modelId c in
  let before := default ModelManager.defaultCapabilities
                        (ModelManager.getModelCapabilities m modelId) in
  (exists caps,
     ModelManager.getModelCapabilities m' modelId = Some caps /\
     ModelManager.supportsImages caps
       = default (ModelManager.supportsImages before) (ModelManager.supportsImages' c) /\
     ModelManager.supportsStreaming caps
       = default (ModelManager.supportsStreaming before) (ModelManager.supportsStreaming' c) /\
     ModelManager.maxImageSize caps
       = default (ModelManager.maxImageSize before) (ModelManager.maxImageSize' c) /\
     ModelManager.supportedFormats caps
       = default (ModelManager.supportedFormats before) (ModelManager.supportedFormats' c) /\
     ModelManager.maxTokens caps
       = default (ModelManager.maxTokens before) (ModelManager.maxTokens' c) /\
     ModelManager.contextLength caps
       = default (ModelManager.contextLength before) (ModelManager.contextLength' c) /\
     ModelManager.pricing caps
       = default (ModelManager.pricing before) (ModelManager.pricing' c)) /\
  (forall other, other <> modelId ->
     ModelManager.getModelCapabilities m' other
     = ModelManager.getModelCapabilities m other) /\
  ModelManager.getAvailableModels m' = ModelManager.getAvailableModels m /\
  ModelManager.setModelCapabilities m' modelId c = m'.
Proof.
  unfold ModelManager.setModelCapabilities, ModelManager.getModelCapabilities. cbn zeta.
  cbn [ModelManager.capabilities ModelManager.config].
  split.
  { eexists. rewrite lookup_insert_eq. split; [reflexivity|]. cbn. repeat split. }
  split.
  { intros other Hne. by rewrite lookup_insert_ne. }
  split; [reflexivity|].
  rewrite lookup_insert_eq, insert_insert_eq. cbn [default from_option id].
  f_equal. f_equal.
  destruct c as [a1 a2 a3 a4 a5 a6 a7]; cbn.
  by destruct a1, a2, a3, a4, a5, a6, a7.
Qed.

Section ConfidenceFacts.

Import RoutingRequest ModelManager.

Lemma calculateConfidence_unit (m : t) (x : string) (request : RoutingRequest.t) :
  Registry.unitInterval (calculateConfidence m x request).
Proof.
  unfold calculateConfidence, Registry.unitInterval.
  destruct (capabilities m !! x) as [caps|]; [|split; vm_compute; discriminate].
  destruct (hasImage request), (supportsImages caps), (requiresHighQuality request);
    try destruct (JS.includes x "gpt-4o" || JS.includes x "claude-3-5-sonnet");
    split; vm_compute; discriminate.
Qed.

End ConfidenceFacts.

Lemma selectModel_configured
    (m : ModelManager.t) (request : RoutingRequest.t) (sel : ModelSelection) :
  ModelManager.selectModel m request = inr sel ->
  model sel ∈ ModelManager.getAvailableModels m /\
  (model sel = primary (ModelManager.config m)
   \/ model sel ∈ fallback (ModelManager.config m)) /\
  Registry.unitInterval (confidence sel).
Proof.
  intros Hsel.
  assert (Hin : model sel ∈ ModelManager.getAvailableModels m
                /\ Registry.unitInterval (confidence sel)).
  { unfold ModelManager.selectModel in Hsel.
    destruct (ModelManager.preferredAccepted m request) as [p|] eqn:Hp.
    - injection Hsel as <-. cbn.
      apply preferredAccepted_iff in Hp as (Ht & Hav & _).
      apply truthyStr_nonempty in Ht as [_ Hne].
      split; [by apply isModelAvailable_available|].
      split; vm_compute; discriminate.
    - apply selectFromCandidates_elem in Hsel as [-> Hin].
      split; [|apply calculateConfidence_unit].
      destruct (ModelManager.filteredCandidates m request) eqn:Hf; [exact Hin|].
      rewrite <- Hf in Hin. by apply filteredCandidates_available in Hin. }
  destruct Hin as [Hin Hunit]. split; [exact Hin|]. split; [|exact Hunit].
  unfold ModelManager.getAvailableModels in Hin.
  apply list_elem_of_filter in Hin as [_ Hin].
  apply elem_of_cons in Hin as [-> | Hin]; [by left | by right].
Qed.

(** X3.  [ModelManager.selectModel] never returns a model that is not
    configured: the model it selects is the primary or one of the
    fallbacks, and the confidence it reports lies between 0 and 1. *)
Theorem selectModel_returns_configured_model
    (m : ModelManager.t) (request : RoutingRequest.t) (sel : ModelSelection) :
  ModelManager.selectModel m request = inr sel ->
  model sel ∈ ModelManager.getAvailableModels m /\
  (model sel = primary (ModelManager.config m)
   \/ model sel ∈ fallback (ModelManager.config m)) /\
  Registry.unitInterval (confidence sel).
Proof. apply selectModel_configured. Qed.

Lemma selectModel_returns_configured_model_witness :
  ModelManager.selectModel Selection.gpt4oOnly Selection.imageRequest
    = inr {| model := "openai/gpt-4o"; confidence := (0.5 + 0.3)%Q;
             reason := "supports image processing, primary model" |} /\
  "openai/gpt-4o" ∈ ModelManager.getAvailableModels Selection.gpt4oOnly.
Proof.
  assert (H : ModelManager.selectModel Selection.gpt4oOnly Selection.imageRequest
              = inr {| model := "openai/gpt-4o"; confidence := (0.5 + 0.3)%Q;
                       reason := "supports image processing, primary model" |})
    by (vm_compute; reflexivity).
  split; [exact H|].
  exact (proj1 (selectModel_returns_configured_model _ _ _ H)).
Defined.

Lemma selectFallbackModel_cases
    (r : ModelRouter.t) (request : RoutingRequest.t) (issues : list string) :
  let sel := ModelRouter.selectFallbackModel r request issues in
  (ModelManager.valid
     (ModelManager.validateModel (ModelRouter.modelManager r) (model sel)
                                 (ModelRouter.requirementsOf request)) = true /\
   model sel <> primary (ModelRouter.config r) /\
   model sel ∈ ModelManager.getAvailableModels (ModelRouter.modelManager r) /\
   confidence sel = 0.7%Q)
  \/
  (model sel = primary (ModelRouter.config r) /\ confidence sel = 0.3%Q /\
   forall x, x ∈ ModelManager.getAvailableModels (ModelRouter.modelManager r) ->
             x <> primary (ModelRouter.config r) ->
             ModelManager.valid
               (ModelManager.validateModel (ModelRouter.modelManager r) x
                                           (ModelRouter.requirementsOf request)) = false).
Proof.
  cbn zeta. unfold ModelRouter.selectFallbackModel.
  match goal with
  | |- context [ModelRouter.firstValid r request ?cs] =>
      pose proof (firstValid_spec r request cs) as Hfirst;
      destruct (ModelRouter.firstValid r request cs) as [x|]
  end; cbn [model confidence].
  - left. destruct Hfirst as [Hin Hvalid].
    apply list_elem_of_filter in Hin as [[Hne _] Hin]. done.
  - right. split; [reflexivity|]. split; [reflexivity|].
    intros x Hin Hne. apply Hfirst, list_elem_of_filter.
    split; [|exact Hin]. split; [exact Hne|].
    by apply available_isModelAvailable.
Qed.

(** X4.  Whatever [ModelRouter.selectModel] returns with a confidence above
    0.3 passes [validateModel] for the request: the selection either
    validates, or is the configured primary returned as a last resort
    with confidence 0.3 (no other model validates) or 0.1 (selection
    threw).
    The confidence always lies between 0 and 1. *)
Theorem router_selection_validates_or_last_resort
    (r : ModelRouter.t) (request : RoutingRequest.t) (timestamp : Z) :
  let sel := fst (ModelRouter.selectModel r request timestamp) in
  (ModelManager.valid
     (ModelManager.validateModel (ModelRouter.modelManager r) (model sel)
                                 (ModelRouter.requirementsOf request)) = true
   \/ (model sel = primary (ModelRouter.config r) /\
       (confidence sel = 0.3%Q \/ confidence sel = 0.1%Q))) /\
  Registry.unitInterval (confidence sel).
Proof.
  unfold ModelRouter.selectModel, ModelRouter.selectModelTry.
  cbn [ModelRouter.modelManager ModelRouter.withMetrics ModelRouter.config].
  destruct (ModelManager.selectModel (ModelRouter.modelManager r) request)
    as [e|first] eqn:Hfirst.
  { cbn. split; [right; split; [reflexivity | by right]|].
    split; vm_compute; discriminate. }
  destruct (ModelManager.valid
              (ModelManager.validateModel (ModelRouter.modelManager r) (model first)
                 (ModelRouter.requirementsOf request))) eqn:Hvalid;
    cbn [negb fst].
  - split; [by left|].
    by apply (selectModel_configured _ _ _ Hfirst).
  - match goal with
    | |- context [ModelRouter.selectFallbackModel ?r' request ?issues] =>
        pose proof (selectFallbackModel_cases r' request issues) as Hcases
    end.
    cbn zeta in Hcases.
    cbn [ModelRouter.modelManager ModelRouter.withMetrics ModelRouter.config] in Hcases.
    destruct Hcases as [(Hpass & _ & _ & Hc) | (Hprim & Hc & _)].
    + split; [by left|]. rewrite Hc. split; vm_compute; discriminate.
    + split; [right; split; [exact Hprim | by left]|].
      rewrite Hc. split; vm_compute; discriminate.
Qed.

Section MetricsFacts.

Import ModelRouter.

Lemma plus_swap (a b c : UsageValue) : plus (plus a b) c = plus (plus a c) b.
Proof. destruct a, b, c; cbn; try reflexivity. f_equal. lia. Qed.

(** The total of the values of a plain object. *)
Lemma total_insert (counts : gmap string UsageValue) (k : string) (v : UsageValue) :
  counts !! k = None ->
  map_fold (λ _ value total, plus total value) (Count 0) (<[k := v]> counts)
  = plus (map_fold (λ (_ : string) value total, plus total value) (Count 0) counts) v.
Proof.
  intros Hk. rewrite map_fold_insert_L; [reflexivity | | exact Hk].
  intros. apply plus_swap.
Qed.

Lemma total_delete (counts : gmap string UsageValue) (k : string) (v : UsageValue) :
  counts !! k = Some v ->
  map_fold (λ _ value total, plus total value) (Count 0) counts
  = plus (map_fold (λ (_ : string) value total, plus total value) (Count 0)
            (delete k counts)) v.
Proof.
  intros Hk. rewrite (map_fold_delete_L _ _ k v counts); [reflexivity | | exact Hk].
  intros. apply plus_swap.
Qed.

Lemma total_replace (counts : gmap string UsageValue) (k : string) (v v' : UsageValue) :
  counts !! k = Some v ->
  map_fold (λ _ value total, plus total value) (Count 0) (<[k := v']> counts)
  = plus (map_fold (λ (_ : string) value total, plus total value) (Count 0)
            (delete k counts)) v'.
Proof.
  intros Hk. rewrite <- insert_delete_eq.
  apply total_insert, lookup_delete_eq.
Qed.

(** Counting a use of a model that is not named like an inherited
    property adds one to a numeric total. *)
Lemma used_total (counts : gmap string UsageValue) (id : string) (t : Z) :
  id ∉ objectPrototype ->
  map_fold (λ _ value total, plus total value) (Count 0) counts = Count t ->
  map_fold (λ _ value total, plus total value) (Count 0) (used counts id) = Count (t + 1).
Proof.
  intros Hplain Htotal. unfold used.
  destruct (counts !! id) as [[n|]|] eqn:Hid.
  - rewrite (total_replace _ _ _ _ Hid).
    rewrite (total_delete _ _ _ Hid) in Htotal.
    destruct (map_fold _ _ (delete id counts)); cbn in *; [|discriminate].
    f_equal. injection Htotal. lia.
  - rewrite (total_delete _ _ _ Hid) in Htotal.
    destruct (map_fold _ _ (delete id counts)); discriminate.
  - rewrite bool_decide_eq_false_2.
    + rewrite bool_decide_eq_false_2 by exact Hplain.
      rewrite (total_insert _ _ _ Hid), Htotal. reflexivity.
    + intros ->. apply Hplain. apply list_elem_of_In. cbn. tauto.
Qed.

(** The usage count of such a model. *)
Lemma used_lookup (counts : gmap string UsageValue) (id : string) :
  id ∉ objectPrototype ->
  (forall n, counts !! id = Some (Count n) -> used counts id !! id = Some (Count (n + 1))) /\
  (counts !! id = None -> used counts id !! id = Some (Count 1)).
Proof.
  intros Hplain. unfold used. split.
  - intros n ->. apply lookup_insert_eq.
  - intros ->. rewrite bool_decide_eq_false_2.
    + rewrite bool_decide_eq_false_2 by exact Hplain. apply lookup_insert_eq.
    + intros ->. apply Hplain. apply list_elem_of_In. cbn. tauto.
Qed.

Lemma used_others (counts : gmap string UsageValue) (id other : string) :
  other <> id -> used counts id !! other = counts !! other.
Proof.
  intros Hne. unfold used.
  destruct (counts !! id) as [[n|]|]; [by rewrite lookup_insert_ne ..|].
  destruct (bool_decide (id = "__proto__")); [reflexivity|].
  destruct (bool_decide (id ∈ objectPrototype)); by rewrite lookup_insert_ne.
Qed.

Lemma updateMetrics_total (r : t) (sel : ModelSelection) (timestamp : Z) (total : Z) :
  model sel ∉ objectPrototype ->
  loadBalancingTotal r = Count total ->
  loadBalancingTotal (updateMetrics r sel timestamp) = Count (total + 1).
Proof. unfold loadBalancingTotal, updateMetrics. cbn. apply used_total. Qed.

Lemma updateMetrics_history (r : t) (sel : ModelSelection) (timestamp : Z) :
  (length (confidenceHistory r) <= 100)%nat ->
  length (confidenceHistory (updateMetrics r sel timestamp))
  = Nat.min (length (confidenceHistory r) + 1) 100.
Proof.
  intros Hlen. unfold updateMetrics. cbn [confidenceHistory].
  pose proof (length_app (confidenceHistory r) [confidence sel]) as Happ.
  cbn [length] in Happ.
  destruct (Nat.ltb_spec 100 (length (confidenceHistory r ++ [confidence sel]))) as [H|H].
  - destruct (confidenceHistory r ++ [confidence sel]); cbn [tail length] in *; lia.
  - lia.
Qed.

(** What one [selectModel] call does to the router. *)
Lemma selectModel_accounting (r : t) (request : RoutingRequest.t) (timestamp : Z) :
  let r' := snd (selectModel r request timestamp) in
  let sel := fst (selectModel r request timestamp) in
  config r' = config r /\ modelManager r' = modelManager r /\
  totalRequests (metrics r') = totalRequests (metrics r) + 1 /\
  modelUsage (metrics r') = used (modelUsage (metrics r)) (model sel) /\
  ((successfulSelections (metrics r') = successfulSelections (metrics r) /\
    fallbackSelections (metrics r') = fallbackSelections (metrics r) /\
    ModelManager.getAvailableModels (modelManager r) = [])
   \/ (successfulSelections (metrics r') = successfulSelections (metrics r) + 1 /\
       fallbackSelections (metrics r') = fallbackSelections (metrics r) /\
       ModelManager.getAvailableModels (modelManager r) <> [])
   \/ (successfulSelections (metrics r') = successfulSelections (metrics r) /\
       fallbackSelections (metrics r') = fallbackSelections (metrics r) + 1 /\
       ModelManager.getAvailableModels (modelManager r) <> [])) /\
  ((length (confidenceHistory r) <= 100)%nat ->
   length (confidenceHistory r') = Nat.min (length (confidenceHistory r) + 1) 100).
Proof.
  cbn zeta. unfold selectModel, selectModelTry.
  cbn [modelManager withMetrics config].
  pose proof (selectModel_throws_iff (modelManager r) request) as Hthrows.
  destruct (ModelManager.selectModel (modelManager r) request) as [e|first] eqn:Hfirst.
  - assert (Hnone : ModelManager.getAvailableModels (modelManager r) = [])
      by (apply Hthrows; eauto).
    cbn [fst snd].
    split; [reflexivity|]. split; [reflexivity|]. split; [reflexivity|].
    split; [reflexivity|].
    split; [left; by cbn|].
    intros Hlen. by rewrite updateMetrics_history.
  - assert (Hsome : ModelManager.getAvailableModels (modelManager r) <> []).
    { intros Hnil. apply Hthrows in Hnil as [e He]. congruence. }
    destruct (ModelManager.valid _) eqn:Hvalid; cbn [negb fst snd].
    + split; [reflexivity|]. split; [reflexivity|]. split; [reflexivity|].
      split; [reflexivity|].
      split; [right; left; by cbn|].
      intros Hlen. by rewrite updateMetrics_history.
    + split; [reflexivity|]. split; [reflexivity|]. split; [reflexivity|].
      split; [reflexivity|].
      split; [right; right; by cbn|].
      intros Hlen. by rewrite updateMetrics_history.
Qed.

(** The model that [selectModel] returns is one of the models of the
    router's configuration, as long as the model manager names the
    same models; and it goes on doing so. *)
Lemma selectModel_routed (r : t) (request : RoutingRequest.t) (timestamp : Z) :
  Registry.sameModels r ->
  (model (fst (selectModel r request timestamp)) = primary (config r)
   \/ model (fst (selectModel r request timestamp)) ∈ fallback (config r)) /\
  config (snd (selectModel r request timestamp)) = config r /\
  Registry.sameModels (snd (selectModel r request timestamp)).
Proof.
  intros [Hp Hf].
  pose proof (selectModel_accounting r request timestamp) as (Hc & Hm & _).
  split; [|split; [exact Hc | unfold Registry.sameModels; by rewrite Hc, Hm]].
  unfold selectModel, selectModelTry.
  cbn [modelManager withMetrics config].
  destruct (ModelManager.selectModel (modelManager r) request)
    as [e|first] eqn:Hfirst; [by left|].
  destruct (ModelManager.valid _); cbn [negb fst].
  - rewrite <- Hp, <- Hf. by apply (selectModel_configured _ _ _ Hfirst).
  - match goal with
    | |- context [selectFallbackModel ?r' request ?issues] =>
        pose proof (selectFallbackModel_cases r' request issues) as Hcases
    end.
    cbn zeta in Hcases.
    cbn [modelManager withMetrics config] in Hcases.
    destruct Hcases as [(_ & _ & Hin & _) | (Hprim & _)]; [|by left].
    rewrite <- Hp, <- Hf.
    unfold ModelManager.getAvailableModels in Hin.
    apply list_elem_of_filter in Hin as [_ Hin].
    apply elem_of_cons in Hin as [-> | Hin]; [by left | by right].
Qed.

End MetricsFacts.

(** A model named ["__proto__"] is selected but never counted: after
    two requests [totalRequests] is 2, [modelUsage] has no entry and the
    total of [getLoadBalancingStats] is 0. *)
Example prototype_named_model_is_not_counted :
  let r := ModelRouter.selectModels Selection.protoRouter
             [(Selection.plainRequest, 1); (Selection.plainRequest, 2)] in
  ModelRouter.totalRequests (ModelRouter.metrics r) = 2 /\
  ModelRouter.modelUsage (ModelRouter.metrics r) = ∅ /\
  ModelRouter.loadBalancingTotal r = ModelRouter.Count 0 /\
  ModelRouter.lastSelection (ModelRouter.metrics r)
  = Some ({| model := "__proto__"; confidence := 0.3;
             reason := "All models failed validation. Issues: "
                       +:+ "Model capabilities not known" |}, 2).
Proof. repeat split. Qed.

(** X5.  The counters of the router after any series of [selectModel] calls
    on a router just constructed (or just reset): [totalRequests] is the
    number of calls; so is the total of [getLoadBalancingStats], the sum
    of the usage counts, provided no configured model is named like a
    property that plain objects inherit ([modelUsage] is a plain object,
    see [prototype_named_model_is_not_counted]); every call is counted
    as a successful or a fallback selection when a model is available,
    and as neither when none is; the confidence history holds one entry
    per call, up to 100; configuration and model manager are those of
    the start. *)
Theorem router_metrics_after_selections
    (config : ModelConfig) (manager : ModelManager.t)
    (requests : list (RoutingRequest.t * Z)) :
  let start := ModelRouter.new config manager in
  let r := ModelRouter.selectModels start requests in
  let n := Z.of_nat (length requests) in
  ModelRouter.selectModels (ModelRouter.resetMetrics r) requests = r /\
  ModelRouter.config r = config /\
  ModelRouter.modelManager r = ModelRouter.modelManager start /\
  ModelRouter.totalRequests (ModelRouter.metrics r) = n /\
  (Registry.plainlyNamed config ->
   ModelRouter.loadBalancingTotal r = ModelRouter.Count n) /\
  ModelRouter.successfulSelections (ModelRouter.metrics r)
  + ModelRouter.fallbackSelections (ModelRouter.metrics r)
  = (if ModelManager.getAvailableModels (ModelRouter.modelManager start)
     is [] then 0 else n) /\
  length (ModelRouter.confidenceHistory r) = Nat.min (length requests) 100.
Proof.
  cbn zeta.
  assert (Hreset : forall r, ModelRouter.config r = config ->
            ModelRouter.modelManager r
            = ModelRouter.modelManager (ModelRouter.new config manager) ->
            ModelRouter.resetMetrics r = ModelRouter.new config manager).
  { intros [c mm x h] Hc Hm. cbn in *. unfold ModelRouter.resetMetrics, ModelRouter.new.
    cbn. by subst. }
  assert (Hgen : forall r,
    let r' := ModelRouter.selectModels r requests in
    let n := Z.of_nat (length requests) in
    ModelRouter.config r' = ModelRouter.config r /\
    ModelRouter.modelManager r' = ModelRouter.modelManager r /\
    ModelRouter.totalRequests (ModelRouter.metrics r')
    = ModelRouter.totalRequests (ModelRouter.metrics r) + n /\
    (Registry.sameModels r -> Registry.plainlyNamed (ModelRouter.config r) ->
     forall total, ModelRouter.loadBalancingTotal r = ModelRouter.Count total ->
                   ModelRouter.loadBalancingTotal r' = ModelRouter.Count (total + n)) /\
    ModelRouter.successfulSelections (ModelRouter.metrics r')
    + ModelRouter.fallbackSelections (ModelRouter.metrics r')
    = ModelRouter.successfulSelections (ModelRouter.metrics r)
      + ModelRouter.fallbackSelections (ModelRouter.metrics r)
      + (if ModelManager.getAvailableModels (ModelRouter.modelManager r)
         is [] then 0 else n) /\
    ((length (ModelRouter.confidenceHistory r) <= 100)%nat ->
     length (ModelRouter.confidenceHistory r')
     = Nat.min (length (ModelRouter.confidenceHistory r) + length requests) 100)).
  { induction requests as [|[request timestamp] rest IH]; intros r; cbn zeta.
    - cbn [ModelRouter.selectModels length Z.of_nat].
      split; [reflexivity|]. split; [reflexivity|]. split; [lia|].
      split; [intros _ _ total ->; f_equal; lia|].
      split; [destruct (ModelManager.getAvailableModels _); lia | lia].
    - cbn [ModelRouter.selectModels].
      pose proof (selectModel_accounting r request timestamp) as Hone.
      pose proof (selectModel_routed r request timestamp) as Hrouted.
      cbn zeta in Hone.
      destruct Hone as (Hc & Hm & Ht & Hu & Hs & Hh).
      specialize (IH (snd (ModelRouter.selectModel r request timestamp))).
      cbn zeta in IH. destruct IH as (Hc' & Hm' & Ht' & Hl' & Hs' & Hh').
      rewrite Hc', Hm', Ht', Hs', Hc, Hm, Ht.
      cbn [length]. rewrite Nat2Z.inj_succ.
      split; [reflexivity|]. split; [reflexivity|].
      split; [lia|].
      split.
      + intros Hsame Hplain total Htotal.
        destruct (Hrouted Hsame) as (Hmodel & _ & Hsame').
        replace (total + Z.succ (Z.of_nat (length rest)))
          with (total + 1 + Z.of_nat (length rest)) by lia.
        apply Hl'; [exact Hsame' | by rewrite Hc |].
        unfold ModelRouter.loadBalancingTotal. rewrite Hu.
        apply used_total; [by apply Hplain | exact Htotal].
      + split.
        * destruct Hs as [(-> & -> & Hav) | [(-> & -> & Hav) | (-> & -> & Hav)]];
            destruct (ModelManager.getAvailableModels (ModelRouter.modelManager r));
            try done; lia.
        * intros Hlen. rewrite Hh' by (rewrite Hh by exact Hlen; lia).
          rewrite Hh by exact Hlen. lia. }
  specialize (Hgen (ModelRouter.new config manager)). cbn zeta in Hgen.
  destruct Hgen as (Hc & Hm & Ht & Hl & Hs & Hh).
  split; [by rewrite Hreset|].
  split; [exact Hc|]. split; [exact Hm|].
  split; [rewrite Ht; cbn; lia|].
  split; [intros Hplain; apply (Hl ltac:(by split) Hplain 0); reflexivity|].
  split; [rewrite Hs; cbn; lia|].
  rewrite Hh by (cbn; lia). cbn. lia.
Qed.

Lemma router_metrics_after_selections_witness :
  Registry.plainlyNamed (Selection.configOf "openai/gpt-4o" ["openai/gpt-4o-mini"]) /\
  ModelRouter.loadBalancingTotal
    (ModelRouter.selectModels
       (ModelRouter.new (Selection.configOf "openai/gpt-4o" ["openai/gpt-4o-mini"])
                        Selection.gpt4oOnly)
       [(Selection.plainRequest, 1); (Selection.longRequest, 2);
        (Selection.imageRequest, 3)])
  = ModelRouter.Count 3.
Proof.
  assert (Hplain : Registry.plainlyNamed
                     (Selection.configOf "openai/gpt-4o" ["openai/gpt-4o-mini"])).
  { intros id [-> | Hin].
    - intros H. apply list_elem_of_In in H. cbn in H. intuition discriminate.
    - apply list_elem_of_In in Hin. cbn in Hin. destruct Hin as [<- | []].
      intros H. apply list_elem_of_In in H. cbn in H. intuition discriminate. }
  split; [exact Hplain|].
  exact (proj1 (proj2 (proj2 (proj2 (proj2
           (router_metrics_after_selections
              (Selection.configOf "openai/gpt-4o" ["openai/gpt-4o-mini"])
              Selection.gpt4oOnly
              [(Selection.plainRequest, 1); (Selection.longRequest, 2);
               (Selection.imageRequest, 3)]))))) Hplain).
Defined.

(** X6.  [forceModelSelection] throws exactly for a model that is neither the
    configured primary nor one of the fallbacks, with a message naming
    the model.  Otherwise it returns that model with confidence 1.0 and
    records it as the last selection and in [modelUsage], but not as a
    request: [totalRequests] and the success and fallback counters keep
    their values.  For a model that is not named like a property that
    plain objects inherit, its usage count grows by one (from nothing
    to 1), the other entries stay, and a numeric total of
    [getLoadBalancingStats] grows by one; for a model named
    ["__proto__"] that has no entry, [modelUsage] does not change. *)
Theorem forceModelSelection_accounting
    (r : ModelRouter.t) (modelId reason : string) (timestamp : Z) :
  let configured :=
    modelId = primary (ModelManager.config (ModelRouter.modelManager r))
    \/ modelId ∈ fallback (ModelManager.config (ModelRouter.modelManager r)) in
  let forced :=
    {| model := modelId; confidence := 1.0;
       reason := "Forced selection: " +:+ reason |} in
  (~ configured ->
   ModelRouter.forceModelSelection r modelId reason timestamp
   = inl (ThrownError ("Model " +:+ modelId +:+ " is not available") false)) /\
  (configured ->
   exists r',
     ModelRouter.forceModelSelection r modelId reason timestamp = inr (forced, r') /\
     ModelRouter.totalRequests (ModelRouter.metrics r')
     = ModelRouter.totalRequests (ModelRouter.metrics r) /\
     ModelRouter.successfulSelections (ModelRouter.metrics r')
     = ModelRouter.successfulSelections (ModelRouter.metrics r) /\
     ModelRouter.fallbackSelections (ModelRouter.metrics r')
     = ModelRouter.fallbackSelections (ModelRouter.metrics r) /\
     ModelRouter.lastSelection (ModelRouter.metrics r') = Some (forced, timestamp) /\
     (forall other, other <> modelId ->
        ModelRouter.usageOf r' other = ModelRouter.usageOf r other) /\
     (modelId ∉ ModelRouter.objectPrototype ->
      (forall n, ModelRouter.usageOf r modelId = Some (ModelRouter.Count n) ->
                 ModelRouter.usageOf r' modelId = Some (ModelRouter.Count (n + 1))) /\
      (ModelRouter.usageOf r modelId = None ->
       ModelRouter.usageOf r' modelId = Some (ModelRouter.Count 1)) /\
      (forall total, ModelRouter.loadBalancingTotal r = ModelRouter.Count total ->
                     ModelRouter.loadBalancingTotal r' = ModelRouter.Count (total + 1))) /\
     (modelId = "__proto__" -> ModelRouter.usageOf r modelId = None ->
      ModelRouter.modelUsage (ModelRouter.metrics r')
      = ModelRouter.modelUsage (ModelRouter.metrics r))).
Proof.
  cbn zeta. unfold ModelRouter.forceModelSelection, ModelManager.isModelAvailable.
  split.
  - intros Hnot.
    rewrite bool_decide_eq_false_2 by (intros Heq; apply Hnot; by left).
    rewrite bool_decide_eq_false_2 by (intros Hin; apply Hnot; by right).
    reflexivity.
  - intros Hconf.
    assert (Hav : bool_decide
                    (primary (ModelManager.config (ModelRouter.modelManager r)) = modelId)
                  || bool_decide
                       (modelId ∈ fallback (ModelManager.config (ModelRouter.modelManager r)))
                  = true).
    { destruct Hconf as [-> | Hin].
      - by rewrite bool_decide_eq_true_2.
      - rewrite (bool_decide_eq_true_2 (modelId ∈ _)) by done. apply orb_true_r. }
    rewrite Hav. cbn [negb].
    eexists. split; [reflexivity|].
    split; [reflexivity|]. split; [reflexivity|]. split; [reflexivity|].
    split; [reflexivity|].
    unfold ModelRouter.usageOf, ModelRouter.loadBalancingTotal, ModelRouter.updateMetrics.
    cbn [ModelRouter.metrics ModelRouter.modelUsage model].
    split; [intros other Hne; by apply used_others|].
    split.
    + intros Hplain. pose proof (used_lookup (ModelRouter.modelUsage (ModelRouter.metrics r))
                                   modelId Hplain) as [Hcount Hnew].
      split; [exact Hcount|]. split; [exact Hnew|].
      intros total. by apply used_total.
    + intros -> Hnone. unfold ModelRouter.used. by rewrite Hnone.
Qed.

Lemma forceModelSelection_accounting_witness :
  exists r',
    ModelRouter.forceModelSelection Selection.gpt4oRouter "openai/gpt-4o" "test" 7
    = inr ({| model := "openai/gpt-4o"; confidence := 1.0;
              reason := "Forced selection: " +:+ "test" |}, r') /\
    ModelRouter.totalRequests (ModelRouter.metrics r') = 0 /\
    ModelRouter.usageOf r' "openai/gpt-4o" = Some (ModelRouter.Count 1) /\
    ModelRouter.loadBalancingTotal r' = ModelRouter.Count 1.
Proof.
  destruct (proj2 (forceModelSelection_accounting Selection.gpt4oRouter
                     "openai/gpt-4o" "test" 7) ltac:(by left))
    as (r' & Hforced & Htotal & _ & _ & _ & _ & Hplain & _).
  exists r'. split; [exact Hforced|]. split; [exact Htotal|].
  destruct Hplain as (_ & Hnew & Hsum).
  { intros H. apply list_elem_of_In in H. cbn in H. intuition discriminate. }
  split; [by apply Hnew | by apply (Hsum 0)].
Defined.

Section PerformanceFacts.

Import ModelRouter.

Lemma firstPerforming_spec (r : t) (request : RoutingRequest.t)
    (order availableModels : list string) :
  match firstPerforming r request order availableModels with
  | Some x =>
      x ∈ order /\ x ∈ availableModels /\
      ModelManager.valid
        (ModelManager.validateModel (modelManager r) x (requirementsOf request)) = true
  | None =>
      forall x, x ∈ order -> x ∈ availableModels ->
        ModelManager.valid
          (ModelManager.validateModel (modelManager r) x (requirementsOf request)) = false
  end.
Proof.
  induction order as [|c cs IH]; cbn [firstPerforming].
  - intros x Hx. by apply not_elem_of_nil in Hx.
  - destruct (bool_decide (c ∈ availableModels)) eqn:Hc; cbn [andb].
    + apply bool_decide_eq_true in Hc.
      destruct (ModelManager.valid _) eqn:Hv.
      * split; [apply list_elem_of_here | done].
      * destruct (firstPerforming r request cs availableModels) as [x|].
        -- destruct IH as (? & ? & ?). split; [by apply list_elem_of_further | done].
        -- intros x [-> | Hx]%elem_of_cons Hav; [exact Hv | by apply IH].
    + apply bool_decide_eq_false in Hc.
      destruct (firstPerforming r request cs availableModels) as [x|].
      * destruct IH as (? & ? & ?). split; [by apply list_elem_of_further | done].
      * intros x [-> | Hx]%elem_of_cons Hav; [done | by apply IH].
Qed.

End PerformanceFacts.

(** X7.  [selectPerformanceOptimizedModel] answers with confidence 0.9 only
    for a model of its priority list that is available and passes
    validation for the request.  Otherwise no available model of the
    list passes, and it answers with confidence 0.6 and the first
    available model, without validating it; that model is [undefined]
    exactly when no model is available. *)
Theorem selectPerformanceOptimizedModel_cases
    (r : ModelRouter.t) (request : RoutingRequest.t) :
  let s := ModelRouter.selectPerformanceOptimizedModel r request in
  let available := ModelManager.getAvailableModels (ModelRouter.modelManager r) in
  let passes (x : string) :=
    ModelManager.valid
      (ModelManager.validateModel (ModelRouter.modelManager r) x
                                  (ModelRouter.requirementsOf request)) in
  ((exists x, ModelRouter.looseModel s = Some x /\
              x ∈ ModelRouter.performancePriority /\ x ∈ available /\
              passes x = true) /\
   ModelRouter.looseConfidence s = 0.9%Q /\
   ModelRouter.looseReason s = "Performance-optimized selection")
  \/
  ((forall x, x ∈ ModelRouter.performancePriority -> x ∈ available -> passes x = false) /\
   ModelRouter.looseModel s = head available /\
   (ModelRouter.looseModel s = None <-> available = []) /\
   ModelRouter.looseConfidence s = 0.6%Q /\
   ModelRouter.looseReason s = "Performance-optimized fallback").
Proof.
  cbn zeta. unfold ModelRouter.selectPerformanceOptimizedModel.
  pose proof (firstPerforming_spec r request ModelRouter.performancePriority
                (ModelManager.getAvailableModels (ModelRouter.modelManager r))) as Hspec.
  destruct (ModelRouter.firstPerforming _ _ _ _) as [x|];
    generalize dependent (ModelManager.getAvailableModels (ModelRouter.modelManager r));
    intros available Hspec;
    cbn [ModelRouter.looseModel ModelRouter.looseConfidence ModelRouter.looseReason].
  - left. split; [|done]. exists x. done.
  - right. split; [exact Hspec|]. split; [reflexivity|].
    split; [|done].
    destruct available; cbn [head]; split; intros H; congruence.
Qed.

(** * The rate limiter *)

Section RateLimiterFacts.

Import RateLimiter Limits.

Lemma within_app (w now : Z) (xs ys : list Z) :
  within w now (xs ++ ys) = within w now xs ++ within w now ys.
Proof. apply filter_app. Qed.

Lemma within_length (w now : Z) (xs : list Z) :
  (length (within w now xs) <= length xs)%nat.
Proof. apply length_filter. Qed.

(** What has left the window does not come back. *)
Lemma within_within (w earlier now : Z) (xs : list Z) :
  earlier <= now -> within w now (within w earlier xs) = within w now xs.
Proof.
  intros Hle. unfold within. induction xs as [|x xs IH]; [reflexivity|].
  rewrite !filter_cons.
  destruct (decide (earlier - x < w)), (decide (now - x < w));
    rewrite ?filter_cons; try destruct (decide (now - x < w)); try lia;
    by rewrite IH.
Qed.

Lemma clientRequests_isAllowed (l : t) (clientId other : string) (now : Z) :
  clientRequests (snd (isAllowed l clientId now)) other
  = if bool_decide (clientId = other) && allowed (fst (isAllowed l clientId now))
    then validRequests l clientId now ++ [now]
    else clientRequests l other.
Proof.
  unfold isAllowed.
  destruct (maxRequests l <=? _); cbn [fst snd allowed].
  - by rewrite andb_false_r.
  - rewrite andb_true_r. unfold clientRequests at 1. cbn [requests].
    destruct (decide (clientId = other)) as [->|Hne].
    + by rewrite lookup_insert_eq, bool_decide_eq_true_2.
    + by rewrite lookup_insert_ne, bool_decide_eq_false_2.
Qed.

Lemma isAllowed_bounds (l : t) (clientId : string) (now : Z) :
  let l' := snd (isAllowed l clientId now) in
  maxRequests l' = maxRequests l /\ windowMs l' = windowMs l /\
  (allowed (fst (isAllowed l clientId now)) = true ->
   Z.of_nat (length (validRequests l clientId now)) + 1 <= maxRequests l).
Proof.
  cbn zeta. unfold isAllowed.
  destruct (Z.leb_spec (maxRequests l) (Z.of_nat (length (validRequests l clientId now))));
    cbn [fst snd allowed maxRequests windowMs]; repeat split; try done; lia.
Qed.

(** The invariant behind the window guarantee: for every client the
    times granted so far and the times the limiter holds agree on every
    window that ends at or after the last call, and the limiter never
    holds more than [maxRequests] times. *)
Lemma serve_invariant (calls : list (string * Z)) :
  forall (l : t) (last : Z) (past : string -> list Z) (clientId : string) (now : Z),
    (forall c t, last <= t ->
       within (windowMs l) t (past c) = within (windowMs l) t (clientRequests l c)) ->
    (forall c, Z.of_nat (length (clientRequests l c)) <= Z.max 0 (maxRequests l)) ->
    nondecreasing (last :: map snd calls ++ [now]) ->
    let '(log, l') := serve l calls in
    Z.of_nat (length (within (windowMs l) now (past clientId ++ granted clientId log)))
      <= Z.max 0 (maxRequests l) /\
    (forall c, Z.of_nat (length (clientRequests l' c)) <= Z.max 0 (maxRequests l)).
Proof.
  induction calls as [|[c0 t0] rest IH]; intros l last past clientId now Hpast Hlen Hclock.
  - cbn [serve granted]. rewrite app_nil_r. split; [|exact Hlen].
    cbn in Hclock. rewrite Hpast by lia.
    pose proof (within_length (windowMs l) now (clientRequests l clientId)).
    specialize (Hlen clientId). lia.
  - cbn [serve].
    pose proof (λ c, clientRequests_isAllowed l c0 c t0) as Hstored. cbn beta in Hstored.
    pose proof (isAllowed_bounds l c0 t0) as (Hmax & Hwin & Hroom).
    destruct (isAllowed l c0 t0) as [answer l1] eqn:Hanswer. cbn [fst snd] in *.
    cbn [map snd] in Hclock. destruct Hclock as [Hfirst Hclock].
    specialize (IH l1 t0
                  (λ c, past c ++ if bool_decide (c0 = c) && allowed answer
                                  then [t0] else [])
                  clientId now).
    rewrite Hmax, Hwin in IH.
    destruct (serve l1 rest) as [log l2].
    cbn [granted].
    assert (Hgranted :
      past clientId
      ++ (if bool_decide (c0 = clientId) && allowed answer
          then t0 :: granted clientId log else granted clientId log)
      = (past clientId ++ if bool_decide (c0 = clientId) && allowed answer
                          then [t0] else [])
        ++ granted clientId log).
    { destruct (bool_decide (c0 = clientId) && allowed answer);
        by rewrite <- app_assoc. }
    rewrite Hgranted. apply IH; [| |exact Hclock].
    + intros c t Ht. rewrite Hstored, within_app.
      destruct (bool_decide (c0 = c) && allowed answer) eqn:Hcase.
      * apply andb_true_iff in Hcase as [Hc _]. apply bool_decide_eq_true in Hc as <-.
        rewrite within_app. f_equal.
        unfold validRequests. fold (within (windowMs l) t0 (clientRequests l c0)).
        rewrite within_within by lia. apply Hpast. lia.
      * cbn. rewrite app_nil_r. apply Hpast. lia.
    + intros c. rewrite Hstored.
      destruct (bool_decide (c0 = c) && allowed answer) eqn:Hcase; [|apply Hlen].
      apply andb_true_iff in Hcase as [_ Hallowed].
      rewrite length_app. cbn [length]. specialize (Hroom Hallowed). lia.
Qed.

End RateLimiterFacts.

(** X8.  The sliding window of the rate limiter.  When the clock never goes
    back, then at any moment at or after the last call, the calls of one
    client that were let through less than [windowMs] ago number at most
    [maxRequests] (none when [maxRequests] is not positive); and the
    limiter never holds more than that many times for a client. *)
Theorem rate_limiter_window
    (maxRequests windowMs : Z) (calls : list (string * Z))
    (clientId : string) (now : Z) :
  Limits.nondecreasing (map snd calls ++ [now]) ->
  let '(log, l) := RateLimiter.serve (RateLimiter.new maxRequests windowMs) calls in
  Z.of_nat (length (Limits.within windowMs now (Limits.granted clientId log)))
    <= Z.max 0 maxRequests /\
  Z.of_nat (length (RateLimiter.clientRequests l clientId)) <= Z.max 0 maxRequests.
Proof.
  intros Hclock.
  pose proof (serve_invariant calls (RateLimiter.new maxRequests windowMs)
                (match calls with [] => now | (_, t) :: _ => t end)
                (λ _, []) clientId now) as Hinv.
  cbn [RateLimiter.windowMs RateLimiter.maxRequests RateLimiter.new app] in Hinv.
  destruct (RateLimiter.serve (RateLimiter.new maxRequests windowMs) calls) as [log l].
  destruct Hinv as [Hcount Hheld].
  - intros c t _. unfold RateLimiter.clientRequests. cbn. by rewrite lookup_empty.
  - intros c. unfold RateLimiter.clientRequests. cbn. rewrite lookup_empty. cbn. lia.
  - destruct calls as [|[c t] rest]; cbn [map snd app] in *.
    + cbn. lia.
    + cbn [Limits.nondecreasing]. split; [lia | exact Hclock].
  - split; [exact Hcount | apply Hheld].
Qed.

Lemma rate_limiter_window_witness :
  Z.of_nat (length (Limits.within 1000 20
                      (Limits.granted "a"
                         (fst (RateLimiter.serve Limits.twoPerSecond Limits.threeAtOnce)))))
  <= 2.
Proof.
  pose proof (rate_limiter_window 2 1000 Limits.threeAtOnce "a" 20) as H.
  cbn [map snd app Limits.threeAtOnce Limits.nondecreasing] in H.
  specialize (H ltac:(lia)).
  unfold Limits.twoPerSecond.
  destruct (RateLimiter.serve (RateLimiter.new 2 1000) Limits.threeAtOnce) as [log l].
  exact (proj1 H).
Defined.

Section RateLimiterAnswers.

Import RateLimiter Limits.

Lemma minimum_spec (xs : list Z) :
  match minimum xs with
  | Infinity => xs = []
  | At m => m ∈ xs /\ forall x, x ∈ xs -> m <= x
  end.
Proof.
  induction xs as [|x xs IH]; [reflexivity|]. cbn [minimum].
  destruct (minimum xs) as [|m].
  - subst. split; [apply list_elem_of_here|].
    intros y [-> | Hy]%elem_of_cons; [lia | by apply not_elem_of_nil in Hy].
  - destruct IH as [Hin Hmin]. split.
    + destruct (Z.min_spec x m) as [[_ ->] | [_ ->]];
        [apply list_elem_of_here | by apply list_elem_of_further].
    + intros y [-> | Hy]%elem_of_cons; [lia|]. specialize (Hmin y Hy). lia.
Qed.

Lemma within_all (w now : Z) (xs : list Z) :
  (forall x, x ∈ xs -> now - x < w) -> within w now xs = xs.
Proof.
  intros Hall. unfold within. induction xs as [|x xs IH]; [reflexivity|].
  rewrite filter_cons_True by (apply Hall, list_elem_of_here).
  f_equal. apply IH. intros y Hy. by apply Hall, list_elem_of_further.
Qed.

Lemma validRequests_within (l : t) (clientId : string) (now : Z) :
  validRequests l clientId now = within (windowMs l) now (clientRequests l clientId).
Proof. reflexivity. Qed.

Lemma allowed_iff (l : t) (clientId : string) (now : Z) :
  allowed (fst (isAllowed l clientId now))
  = negb (maxRequests l <=? Z.of_nat (length (validRequests l clientId now))).
Proof. unfold isAllowed. by destruct (maxRequests l <=? _). Qed.

End RateLimiterAnswers.

(** X9.  A refusal of the rate limiter and the reset time it announces.  In
    a state where the limiter holds at most [maxRequests] times for the
    client, as it does after any series of calls, a refusal leaves the
    limiter as it was; the client is refused again at every later moment
    before the announced reset time, and is let through at the reset
    time itself, which lies after the refusal. *)
Theorem rate_limiter_refused_until_reset
    (l : RateLimiter.t) (clientId : string) (now : Z) :
  Z.of_nat (length (RateLimiter.clientRequests l clientId)) <= RateLimiter.maxRequests l ->
  RateLimiter.allowed (fst (RateLimiter.isAllowed l clientId now)) = false ->
  let announced := RateLimiter.resetTime (fst (RateLimiter.isAllowed l clientId now)) in
  snd (RateLimiter.isAllowed l clientId now) = l /\
  (forall t, now <= t -> Limits.earlier t announced ->
     RateLimiter.allowed (fst (RateLimiter.isAllowed l clientId t)) = false) /\
  (forall r, announced = RateLimiter.At r ->
     now < r /\ RateLimiter.allowed (fst (RateLimiter.isAllowed l clientId r)) = true).
Proof.
  intros Hheld Hrefused. cbn zeta.
  rewrite allowed_iff in Hrefused. apply negb_false_iff, Z.leb_le in Hrefused.
  assert (Hanswer : RateLimiter.isAllowed l clientId now
            = ({| RateLimiter.allowed := false; RateLimiter.remaining := 0;
                  RateLimiter.resetTime :=
                    RateLimiter.plus
                      (RateLimiter.minimum (RateLimiter.validRequests l clientId now))
                      (RateLimiter.windowMs l) |}, l)).
  { unfold RateLimiter.isAllowed.
    destruct (Z.leb_spec (RateLimiter.maxRequests l)
                (Z.of_nat (length (RateLimiter.validRequests l clientId now))));
      [reflexivity | lia]. }
  rewrite Hanswer. cbn [fst snd RateLimiter.resetTime].
  pose proof (minimum_spec (RateLimiter.validRequests l clientId now)) as Hmin.
  split; [reflexivity|].
  destruct (RateLimiter.minimum (RateLimiter.validRequests l clientId now)) as [|m];
    cbn [RateLimiter.plus Limits.earlier].
  - split; [|intros r [=]].
    intros t _ _. rewrite allowed_iff. apply negb_false_iff, Z.leb_le.
    rewrite Hmin in Hrefused. cbn in Hrefused. lia.
  - destruct Hmin as [Hin Hleast].
    assert (Hm : now - m < RateLimiter.windowMs l).
    { rewrite validRequests_within in Hin. unfold Limits.within in Hin.
      by apply list_elem_of_filter in Hin as [? _]. }
    split.
    + intros t Hlater Hbefore. rewrite allowed_iff. apply negb_false_iff, Z.leb_le.
      assert (Hsame : RateLimiter.validRequests l clientId t
                      = RateLimiter.validRequests l clientId now).
      { rewrite !validRequests_within.
        rewrite <- (within_within _ now t) by lia.
        apply within_all. intros x Hx.
        rewrite <- validRequests_within in Hx. specialize (Hleast x Hx). lia. }
      rewrite Hsame. lia.
    + intros r [= <-]. split; [lia|].
      rewrite allowed_iff. apply negb_true_iff, Z.leb_gt.
      rewrite validRequests_within.
      rewrite <- (within_within _ now (m + RateLimiter.windowMs l)) by lia.
      rewrite validRequests_within in Hin.
      pose proof (length_filter_lt
                    (λ time, m + RateLimiter.windowMs l - time < RateLimiter.windowMs l)
                    _ m Hin ltac:(cbn beta; lia)) as Hless.
      pose proof (within_length (RateLimiter.windowMs l) now
                    (RateLimiter.clientRequests l clientId)) as Hsub.
      unfold Limits.within at 1. lia.
Qed.

Lemma rate_limiter_refused_until_reset_witness :
  RateLimiter.allowed (fst (RateLimiter.isAllowed Limits.usedUp "a" 999)) = false /\
  RateLimiter.allowed (fst (RateLimiter.isAllowed Limits.usedUp "a" 1000)) = true.
Proof.
  assert (Hheld : Z.of_nat (length (RateLimiter.clientRequests Limits.usedUp "a"))
                  <= RateLimiter.maxRequests Limits.usedUp) by (vm_compute; discriminate).
  assert (Hrefused : RateLimiter.allowed
                       (fst (RateLimiter.isAllowed Limits.usedUp "a" 20)) = false)
    by (vm_compute; reflexivity).
  pose proof (rate_limiter_refused_until_reset Limits.usedUp "a" 20 Hheld Hrefused)
    as (_ & Hbefore & Hat).
  split.
  - apply Hbefore; [lia|]. vm_compute. reflexivity.
  - apply (Hat 1000). vm_compute. reflexivity.
Defined.

(** X10.  The answers of the rate limiter agree with [getRemainingRequests].
    A client is let through exactly when [getRemainingRequests] is
    positive at that moment.  A refusal reports 0 remaining and changes
    nothing.  Being let through uses up one request: the answer reports
    one less than [getRemainingRequests] did, which is what
    [getRemainingRequests] returns right afterwards (for a positive
    window), and the counts of all other clients are unchanged.  After
    [reset] the client has the full allowance again. *)
Theorem rate_limiter_answers (l : RateLimiter.t) (clientId : string) (now : Z) :
  let answer := fst (RateLimiter.isAllowed l clientId now) in
  let l' := snd (RateLimiter.isAllowed l clientId now) in
  (RateLimiter.allowed answer = true
   <-> 0 < RateLimiter.getRemainingRequests l clientId now) /\
  (RateLimiter.allowed answer = false -> l' = l /\ RateLimiter.remaining answer = 0) /\
  (RateLimiter.allowed answer = true ->
   RateLimiter.remaining answer = RateLimiter.getRemainingRequests l clientId now - 1 /\
   RateLimiter.resetTime answer = RateLimiter.At (now + RateLimiter.windowMs l) /\
   (0 < RateLimiter.windowMs l ->
    RateLimiter.getRemainingRequests l' clientId now = RateLimiter.remaining answer)) /\
  (forall other t, other <> clientId ->
     RateLimiter.getRemainingRequests l' other t
     = RateLimiter.getRemainingRequests l other t) /\
  RateLimiter.getRemainingRequests (RateLimiter.reset l clientId) clientId now
  = Z.max 0 (RateLimiter.maxRequests l).
Proof.
  cbn zeta.
  pose proof (λ c, clientRequests_isAllowed l clientId c now) as Hstored.
  cbn beta in Hstored.
  pose proof (isAllowed_bounds l clientId now) as (Hmax & Hwin & _).
  rewrite allowed_iff in *.
  unfold RateLimiter.getRemainingRequests. rewrite Hmax.
  assert (Hvalid : forall c t,
            RateLimiter.validRequests (snd (RateLimiter.isAllowed l clientId now)) c t
            = Limits.within (RateLimiter.windowMs l) t
                (RateLimiter.clientRequests (snd (RateLimiter.isAllowed l clientId now)) c)).
  { intros c t. rewrite validRequests_within. by rewrite Hwin. }
  destruct (Z.leb_spec (RateLimiter.maxRequests l)
              (Z.of_nat (length (RateLimiter.validRequests l clientId now)))) as [Hfull|Hroom];
    cbn [negb].
  - split; [split; [done | lia]|].
    split.
    { intros _. unfold RateLimiter.isAllowed.
      destruct (Z.leb_spec (RateLimiter.maxRequests l)
                  (Z.of_nat (length (RateLimiter.validRequests l clientId now))));
        [done | lia]. }
    split; [done|].
    split.
    { intros other t Hne. rewrite Hvalid, Hstored.
      by rewrite bool_decide_eq_false_2 by done. }
    unfold RateLimiter.validRequests, RateLimiter.clientRequests, RateLimiter.reset.
    cbn [RateLimiter.requests RateLimiter.maxRequests]. rewrite lookup_delete_eq. cbn. lia.
  - split; [split; [lia | done]|].
    split; [done|].
    split.
    { intros _.
      assert (Hanswer : fst (RateLimiter.isAllowed l clientId now)
                = {| RateLimiter.allowed := true;
                     RateLimiter.remaining :=
                       RateLimiter.maxRequests l
                       - Z.of_nat (length (RateLimiter.validRequests l clientId now ++ [now]));
                     RateLimiter.resetTime := RateLimiter.At (now + RateLimiter.windowMs l) |}).
      { unfold RateLimiter.isAllowed.
        destruct (Z.leb_spec (RateLimiter.maxRequests l)
                    (Z.of_nat (length (RateLimiter.validRequests l clientId now))));
          [lia | reflexivity]. }
      rewrite Hanswer. cbn [RateLimiter.remaining RateLimiter.resetTime].
      rewrite length_app. cbn [length].
      split; [lia|]. split; [reflexivity|].
      intros Hwindow. rewrite Hvalid, Hstored.
      rewrite bool_decide_eq_true_2 by done. cbn [andb negb].
      rewrite within_app, validRequests_within, within_within by lia.
      unfold Limits.within at 2. rewrite filter_cons_True by lia.
      rewrite filter_nil, length_app. cbn [length].
      rewrite validRequests_within in Hroom. lia. }
    split.
    { intros other t Hne. rewrite Hvalid, Hstored.
      by rewrite bool_decide_eq_false_2 by done. }
    unfold RateLimiter.validRequests, RateLimiter.clientRequests, RateLimiter.reset.
    cbn [RateLimiter.requests RateLimiter.maxRequests]. rewrite lookup_delete_eq. cbn. lia.
Qed.

(** * The retry decorator *)

Section RetryingFacts.

Import Retrying.

Context {E R : Type}.
Variable fn : Operation E R.
Variables N delay backoff : Z.
Variable retries : E -> bool.

Lemma retrying_step (remaining : nat) (attempt : Z) (c : nat) (waited : list Z)
    (lastError : option E) :
  attemptLoop fn N delay backoff retries (S remaining) attempt c waited lastError =
  match fn c with
  | inr result => {| outcome := inr result; attempts := S c; waits := waited |}
  | inl error =>
      if (N <? attempt) || negb (retries error) then
        {| outcome := inl (Some error); attempts := S c; waits := waited |}
      else
        attemptLoop fn N delay backoff retries remaining (attempt + 1) (S c)
                    (waited ++ [delay * backoff ^ (attempt - 1)]) (Some error)
  end.
Proof. reflexivity. Qed.

Lemma retrying_stops (remaining c : nat) (waited : list Z) (lastError : option E) :
  Z.of_nat (S remaining) = N + 1 - Z.of_nat c ->
  let r := attemptLoop fn N delay backoff retries (S remaining) (Z.of_nat c + 1) c
                       waited lastError in
  exists k : nat,
    (c <= k)%nat /\ Z.of_nat k <= N /\
    attempts r = S k /\
    (forall j, (c <= j < k)%nat -> exists e, fn j = inl e /\ retries e = true) /\
    waits r = waited ++ map (λ j, delay * backoff ^ Z.of_nat j) (seq c (k - c)) /\
    match fn k with
    | inr result => outcome r = inr result
    | inl e => outcome r = inl (Some e) /\ (retries e = false \/ Z.of_nat k = N)
    end.
Proof.
  revert c waited lastError.
  induction remaining as [|remaining IH]; intros c waited lastError Hrem r; subst r;
    rewrite retrying_step; destruct (fn c) as [e|result] eqn:Hfn.
  - replace (N <? Z.of_nat c + 1) with true by (symmetry; apply Z.ltb_lt; lia).
    cbn [orb]. exists c. cbn [attempts waits outcome].
    rewrite Nat.sub_diag, Hfn. cbn [seq map]. rewrite app_nil_r.
    repeat split; lia.
  - exists c. cbn [attempts waits outcome].
    rewrite Nat.sub_diag, Hfn. cbn [seq map]. rewrite app_nil_r. repeat split; lia.
  - replace (N <? Z.of_nat c + 1) with false by (symmetry; apply Z.ltb_ge; lia).
    cbn [orb]. destruct (retries e) eqn:Hretry; cbn [negb].
    + replace (Z.of_nat c + 1 + 1) with (Z.of_nat (S c) + 1) by lia.
      destruct (IH (S c) (waited ++ [delay * backoff ^ (Z.of_nat c + 1 - 1)]) (Some e))
        as (k & Hk & HkN & Hatt & Hfail & Hwait & Hout); [lia|].
      exists k. split; [lia|]. split; [lia|]. split; [exact Hatt|].
      split; [|split; [|exact Hout]].
      * intros j Hj. destruct (decide (j = c)) as [->|Hne].
        -- exists e. done.
        -- apply Hfail. lia.
      * rewrite Hwait, <- app_assoc. f_equal.
        replace (k - c)%nat with (S (k - S c)) by lia.
        cbn [seq map app].
        by replace (Z.of_nat c + 1 - 1) with (Z.of_nat c) by lia.
    + exists c. cbn [attempts waits outcome].
      rewrite Nat.sub_diag, Hfn. cbn [seq map]. rewrite app_nil_r.
      repeat split; try lia. by left.
  - exists c. cbn [attempts waits outcome].
    rewrite Nat.sub_diag, Hfn. cbn [seq map]. rewrite app_nil_r. repeat split; lia.
Qed.

End RetryingFacts.

(** X11.  The function decorated by [withRetry] calls [fn] at most
    [maxRetries + 1] times ([maxRetries] is 3 only when the option is
    missing: a given 0 means no retry).  It calls again only after a
    failure that [retryCondition] accepts, having waited
    [delay * backoff^j] after the failure of call [j] (counted from 0);
    it returns the first result and throws the first failure that the
    condition rejects or that the last permitted call produced.  With a
    negative [maxRetries] it never calls [fn], and throws [undefined]. *)
Theorem withRetry_policy {E R : Type}
    (fn : Retrying.Operation E R) (options : Retrying.Options E) :
  let N := default 3 (Retrying.maxRetries options) in
  let delay := default 1000 (Retrying.delay options) in
  let backoff := default 2 (Retrying.backoff options) in
  let retries := default (λ _, true) (Retrying.retryCondition options) in
  let run := Retrying.withRetry fn options in
  (N < 0 ->
   run = {| Retrying.outcome := inl None; Retrying.attempts := 0;
            Retrying.waits := [] |}) /\
  (0 <= N ->
   exists k : nat,
     Retrying.attempts run = S k /\ Z.of_nat k <= N /\
     (forall j, (j < k)%nat -> exists e, fn j = inl e /\ retries e = true) /\
     Retrying.waits run = map (λ j, delay * backoff ^ Z.of_nat j) (seq 0 k) /\
     match fn k with
     | inr result => Retrying.outcome run = inr result
     | inl e =>
         Retrying.outcome run = inl (Some e) /\
         (retries e = false \/ Z.of_nat k = N)
     end).
Proof.
  cbn zeta. unfold Retrying.withRetry.
  set (N := default 3 (Retrying.maxRetries options)).
  split.
  - intros Hneg. replace (Z.to_nat (N + 1)) with 0%nat by lia. reflexivity.
  - intros Hpos.
    destruct (Z.to_nat (N + 1)) as [|remaining] eqn:Hrem; [lia|].
    destruct (retrying_stops fn N (default 1000 (Retrying.delay options))
                (default 2 (Retrying.backoff options))
                (default (λ _, true) (Retrying.retryCondition options))
                remaining 0 [] None ltac:(lia))
      as (k & _ & HkN & Hatt & Hfail & Hwait & Hout).
    change (Z.of_nat 0 + 1) with 1 in *.
    exists k. split; [exact Hatt|]. split; [exact HkN|].
    split; [intros j Hj; apply Hfail; lia|].
    split; [|exact Hout].
    rewrite Hwait, Nat.sub_0_r. reflexivity.
Qed.

(** * The streaming client *)

Section ChatStreamFacts.

Import ResponseTransformer ChatStream.

Variable content : string -> option string.

Lemma readLines_spec (lines : list string) :
  let '(ys, returned) := readLines content lines in
  if returned then exists ds, ys = ds ++ [doneChunk] /\ Forall carriesText ds
  else Forall carriesText ys.
Proof.
  induction lines as [|line rest IH]; cbn [readLines]; [constructor|].
  destruct (JS.startsWith line "data: "); [|exact IH].
  destruct (String.eqb (JS.drop 6 line) "[DONE]").
  { exists []. split; [reflexivity | constructor]. }
  destruct (readLines content rest) as [ys returned].
  destruct (JS.truthyStr (content (JS.drop 6 line))) as [text|] eqn:Htext; [|exact IH].
  assert (Hcarries : carriesText (deltaChunk text)).
  { split; [reflexivity|]. exists text. split; [reflexivity|].
    by apply truthyStr_nonempty in Htext as [_ ?]. }
  destruct returned.
  - destruct IH as (ds & -> & Hds). exists (deltaChunk text :: ds).
    split; [reflexivity | by constructor].
  - by constructor.
Qed.

Lemma readChunks_spec (chunks : list string) :
  let '(ys, returned) := readChunks content chunks in
  if returned then exists ds, ys = ds ++ [doneChunk] /\ Forall carriesText ds
  else Forall carriesText ys.
Proof.
  induction chunks as [|chunk rest IH]; cbn [readChunks]; [constructor|].
  pose proof (readLines_spec (JS.split LF chunk)) as Hlines.
  destruct (readLines content (JS.split LF chunk)) as [ys returned].
  destruct returned; [exact Hlines|].
  destruct (readChunks content rest) as [zs returned].
  destruct returned.
  - destruct IH as (ds & -> & Hds). exists (ys ++ ds).
    split; [by rewrite app_assoc | by apply Forall_app].
  - by apply Forall_app.
Qed.

Variable config : OpenRouterClient.OpenRouterConfig.
Variable upstream : Upstream.
Variable N : Z.

Lemma stream_step (remaining : nat) (attempt : Z) (c : nat) (slept : list Z)
    (lastError : option VisionBridgeError) :
  attemptLoop content config upstream N (S remaining) attempt c slept lastError =
  match upstream c with
  | Delivers chunks failure =>
      let '(deltas, returned) := readChunks content chunks in
      if returned then
        {| yielded := deltas; thrown := None; attempts := S c; delays := slept |}
      else
        match failure with
        | None =>
            {| yielded := deltas ++ [doneChunk]; thrown := None;
               attempts := S c; delays := slept |}
        | Some (message, hasCode) =>
            {| yielded := deltas ++ [errorChunk message];
               thrown := Some (ThrownError message hasCode);
               attempts := S c; delays := slept |}
        end
  | Refused rejection =>
      let lastError := OpenRouterClient.handleError config rejection in
      if negb (retryable lastError) || (attempt =? N) then
        {| yielded := [errorChunk (message lastError)];
           thrown := Some (ThrownObject lastError);
           attempts := S c; delays := slept |}
      else
        attemptLoop content config upstream N remaining (attempt + 1) (S c)
          (slept ++ [OpenRouterClient.backoffDelay config lastError attempt])
          (Some lastError)
  end.
Proof. reflexivity. Qed.

Lemma stream_stops (remaining c : nat) (slept : list Z)
    (lastError : option VisionBridgeError) :
  Z.of_nat (S remaining) = N - Z.of_nat c ->
  let r := attemptLoop content config upstream N (S remaining) (Z.of_nat c + 1) c
                       slept lastError in
  exists (k : nat) (deltas : list StreamChunk) (last : StreamChunk),
    (c <= k)%nat /\ Z.of_nat (S k) <= N /\ attempts r = S k /\
    (forall j, (c <= j < k)%nat -> refusedRetryably config upstream j) /\
    yielded r = deltas ++ [last] /\ Forall carriesText deltas /\
    ((last = doneChunk /\ thrown r = None)
     \/ exists e, thrown r = Some e /\ last = errorChunk (thrownMessage e)) /\
    (forall rejection, upstream k = Refused rejection ->
       deltas = [] /\
       thrown r = Some (ThrownObject (OpenRouterClient.handleError config rejection))) /\
    (forall chunks message hasCode,
       upstream k = Delivers chunks (Some (message, hasCode)) ->
       thrown r = None \/ thrown r = Some (ThrownError message hasCode)).
Proof.
  revert c slept lastError.
  induction remaining as [|remaining IH]; intros c slept lastError Hrem r; subst r;
    rewrite stream_step; destruct (upstream c) as [rejection|chunks failure] eqn:Hup.
  - (* the last permitted request, refused *)
    cbn zeta.
    replace (Z.of_nat c + 1 =? N) with true by (symmetry; apply Z.eqb_eq; lia).
    rewrite orb_true_r.
    exists c, [], (errorChunk (message (OpenRouterClient.handleError config rejection))).
    cbn [attempts yielded thrown app].
    split; [lia|]. split; [lia|]. split; [reflexivity|].
    split; [intros j Hj; lia|]. split; [reflexivity|]. split; [constructor|].
    split; [right; eexists; split; reflexivity|].
    split; [intros rejection' Hr; rewrite Hup in Hr; by injection Hr as <-|].
    intros chunks message hasCode Hd. rewrite Hup in Hd. discriminate Hd.
  - pose proof (readChunks_spec chunks) as Hread.
    destruct (readChunks content chunks) as [ys returned].
    destruct returned.
    + destruct Hread as (ds & -> & Hds).
      exists c, ds, doneChunk. cbn [attempts yielded thrown].
      split; [lia|]. split; [lia|]. split; [reflexivity|].
      split; [intros j Hj; lia|]. split; [reflexivity|]. split; [exact Hds|].
      split; [by left|].
      split; [intros rejection Hr; rewrite Hup in Hr; discriminate Hr|].
      intros; by left.
    + destruct failure as [[message hasCode]|].
      * exists c, ys, (errorChunk message). cbn [attempts yielded thrown].
        split; [lia|]. split; [lia|]. split; [reflexivity|].
        split; [intros j Hj; lia|]. split; [reflexivity|]. split; [exact Hread|].
        split; [right; eexists; split; reflexivity|].
        split; [intros rejection Hr; rewrite Hup in Hr; discriminate Hr|].
        intros chunks' message' hasCode' Hd. rewrite Hup in Hd.
        injection Hd as _ <- <-. by right.
      * exists c, ys, doneChunk. cbn [attempts yielded thrown].
        split; [lia|]. split; [lia|]. split; [reflexivity|].
        split; [intros j Hj; lia|]. split; [reflexivity|]. split; [exact Hread|].
        split; [by left|].
        split; [intros rejection Hr; rewrite Hup in Hr; discriminate Hr|].
        intros; by left.
  - cbn zeta.
    destruct (retryable (OpenRouterClient.handleError config rejection)) eqn:Hretry;
      cbn [negb orb].
    + replace (Z.of_nat c + 1 =? N) with false by (symmetry; apply Z.eqb_neq; lia).
      replace (Z.of_nat c + 1 + 1) with (Z.of_nat (S c) + 1) by lia.
      destruct (IH (S c)
                  (slept ++ [OpenRouterClient.backoffDelay config
                               (OpenRouterClient.handleError config rejection)
                               (Z.of_nat c + 1)])
                  (Some (OpenRouterClient.handleError config rejection)))
        as (k & deltas & last & Hk & HkN & Hatt & Hfail & Hrest); [lia|].
      exists k, deltas, last.
      split; [lia|]. split; [lia|]. split; [exact Hatt|].
      split; [|exact Hrest].
      intros j Hj. destruct (decide (j = c)) as [->|Hne].
      * exists rejection. done.
      * apply Hfail. lia.
    + exists c, [], (errorChunk (message (OpenRouterClient.handleError config rejection))).
      cbn [attempts yielded thrown app].
      split; [lia|]. split; [lia|]. split; [reflexivity|].
      split; [intros j Hj; lia|]. split; [reflexivity|]. split; [constructor|].
      split; [right; eexists; split; reflexivity|].
      split; [intros rejection' Hr; rewrite Hup in Hr; by injection Hr as <-|].
      intros chunks message hasCode Hd. rewrite Hup in Hd. discriminate Hd.
  - pose proof (readChunks_spec chunks) as Hread.
    destruct (readChunks content chunks) as [ys returned].
    destruct returned.
    + destruct Hread as (ds & -> & Hds).
      exists c, ds, doneChunk. cbn [attempts yielded thrown].
      split; [lia|]. split; [lia|]. split; [reflexivity|].
      split; [intros j Hj; lia|]. split; [reflexivity|]. split; [exact Hds|].
      split; [by left|].
      split; [intros rejection Hr; rewrite Hup in Hr; discriminate Hr|].
      intros; by left.
    + destruct failure as [[message hasCode]|].
      * exists c, ys, (errorChunk message). cbn [attempts yielded thrown].
        split; [lia|]. split; [lia|]. split; [reflexivity|].
        split; [intros j Hj; lia|]. split; [reflexivity|]. split; [exact Hread|].
        split; [right; eexists; split; reflexivity|].
        split; [intros rejection Hr; rewrite Hup in Hr; discriminate Hr|].
        intros chunks' message' hasCode' Hd. rewrite Hup in Hd.
        injection Hd as _ <- <-. by right.
      * exists c, ys, doneChunk. cbn [attempts yielded thrown].
        split; [lia|]. split; [lia|]. split; [reflexivity|].
        split; [intros j Hj; lia|]. split; [reflexivity|]. split; [exact Hread|].
        split; [by left|].
        split; [intros rejection Hr; rewrite Hup in Hr; discriminate Hr|].
        intros; by left.
Qed.

End ChatStreamFacts.

(** X12.  The protocol of [streamChatCompletion].  With a positive attempt
    limit [N] ([maxRetries], or 3 when that is missing or zero), the
    generator yields text chunks, each with a non-empty text, and then
    exactly one closing chunk, after which it yields nothing: [done],
    and it returns, or [error] carrying the message of the value it then
    throws.  It sends at most [N] requests and sends another one only
    after a refusal whose classified error is retryable; the request
    that is answered is the last one, so the text chunks all come from
    one body, and a body that fails midway is not requested again.
    With a negative [maxRetries] it sends nothing, yields nothing and
    throws on reading the message of an error that does not exist. *)
Theorem streamChatCompletion_protocol
    (content : string -> option string)
    (config : OpenRouterClient.OpenRouterConfig) (upstream : ChatStream.Upstream) :
  let N := OpenRouterClient.effectiveMaxRetries config in
  let run := ChatStream.streamChatCompletion content config upstream in
  (N < 1 ->
   run = {| ChatStream.yielded := [];
            ChatStream.thrown :=
              Some (ThrownError "Cannot read properties of undefined (reading 'message')"
                                false);
            ChatStream.attempts := 0; ChatStream.delays := [] |}) /\
  (1 <= N ->
   exists (k : nat) (deltas : list ResponseTransformer.StreamChunk)
          (last : ResponseTransformer.StreamChunk),
     ChatStream.attempts run = S k /\ Z.of_nat (S k) <= N /\
     (forall j, (j < k)%nat -> ChatStream.refusedRetryably config upstream j) /\
     ChatStream.yielded run = deltas ++ [last] /\
     Forall ChatStream.carriesText deltas /\
     ((last = ChatStream.doneChunk /\ ChatStream.thrown run = None)
      \/ exists e, ChatStream.thrown run = Some e /\
                   last = ChatStream.errorChunk (thrownMessage e)) /\
     (forall rejection, upstream k = ChatStream.Refused rejection ->
        deltas = [] /\
        ChatStream.thrown run
        = Some (ThrownObject (OpenRouterClient.handleError config rejection))) /\
     (forall chunks message hasCode,
        upstream k = ChatStream.Delivers chunks (Some (message, hasCode)) ->
        ChatStream.thrown run = None
        \/ ChatStream.thrown run = Some (ThrownError message hasCode))).
Proof.
  cbn zeta. unfold ChatStream.streamChatCompletion.
  set (N := OpenRouterClient.effectiveMaxRetries config).
  split.
  - intros Hneg. replace (Z.to_nat N) with 0%nat by lia. reflexivity.
  - intros Hpos.
    destruct (Z.to_nat N) as [|remaining] eqn:Hrem; [lia|].
    destruct (stream_stops content config upstream N remaining 0 [] None ltac:(lia))
      as (k & deltas & last & _ & HkN & Hatt & Hfail & Hrest).
    change (Z.of_nat 0 + 1) with 1 in *.
    exists k, deltas, last.
    split; [exact Hatt|]. split; [exact HkN|].
    split; [intros j Hj; apply Hfail; lia | exact Hrest].
Qed.

Section StreamEnd.

Import ResponseTransformer.

(** The loop of the transformer is left at the first [done] or [error]
    chunk. *)
Lemma forAwait_closing (opts : TransformOptions) (before after : list StreamItem)
    (closing : StreamChunk) (st : Locals) :
  type closing <> delta ->
  forAwait opts (before ++ Yields closing :: after) st
  = forAwait opts (before ++ [Yields closing]) st.
Proof.
  intros Hclosing. revert st.
  induction before as [|item before IH]; intros st; cbn [app forAwait].
  - by destruct (type closing).
  - destruct item as [chunk|message]; [|reflexivity].
    destruct (type chunk); try reflexivity.
    destruct (JS.truthyStr (data chunk)); [|apply IH].
    destruct (shouldProcessChunk _ opts); by rewrite IH.
Qed.

(** An [error] chunk is answered by the error response, whatever text
    chunks came before it. *)
Lemma forAwait_error (opts : TransformOptions) (deltas : list StreamChunk)
    (message : string) (after : list StreamItem) (st : Locals) :
  Forall (λ chunk, type chunk = delta) deltas ->
  exists partials st',
    forAwait opts (map Yields deltas ++ Yields (ChatStream.errorChunk message) :: after) st
    = (partials ++ [ChatStream.reported message], inr st').
Proof.
  intros Hdeltas. revert st.
  induction Hdeltas as [|chunk deltas Hchunk _ IH]; intros st; cbn [map app forAwait].
  - exists [], st. reflexivity.
  - rewrite Hchunk.
    destruct (JS.truthyStr (data chunk)); [|apply IH].
    destruct (shouldProcessChunk _ opts).
    + match goal with
      | |- context [forAwait opts _ ?st1] => destruct (IH st1) as (partials & st' & ->)
      end.
      eexists (_ :: partials), st'. reflexivity.
    + apply IH.
Qed.

End StreamEnd.

Lemma transformStreamingResponse_closing
    (defaults options : ResponseTransformer.TransformOptions)
    (before after : list ResponseTransformer.StreamItem)
    (closing : ResponseTransformer.StreamChunk) :
  ResponseTransformer.type closing <> ResponseTransformer.delta ->
  ResponseTransformer.transformStreamingResponse defaults
    (before ++ ResponseTransformer.Yields closing :: after) options
  = ResponseTransformer.transformStreamingResponse defaults
      (before ++ [ResponseTransformer.Yields closing]) options.
Proof.
  intros Hclosing. unfold ResponseTransformer.transformStreamingResponse.
  by rewrite forAwait_closing.
Qed.

Lemma streamChatCompletion_shape
    (content : string -> option string)
    (config : OpenRouterClient.OpenRouterConfig) (upstream : ChatStream.Upstream) :
  1 <= OpenRouterClient.effectiveMaxRetries config ->
  let run := ChatStream.streamChatCompletion content config upstream in
  exists deltas last,
    ChatStream.yielded run = deltas ++ [last] /\
    Forall ChatStream.carriesText deltas /\
    ((last = ChatStream.doneChunk /\ ChatStream.thrown run = None)
     \/ exists e, ChatStream.thrown run = Some e /\
                  last = ChatStream.errorChunk (thrownMessage e)).
Proof.
  intros Hpos. cbn zeta. unfold ChatStream.streamChatCompletion.
  destruct (Z.to_nat (OpenRouterClient.effectiveMaxRetries config))
    as [|remaining] eqn:Hrem; [lia|].
  destruct (stream_stops content config upstream
              (OpenRouterClient.effectiveMaxRetries config) remaining 0 [] None
              ltac:(lia))
    as (k & deltas & last & _ & _ & _ & _ & Hy & Hd & Hl & _).
  change (Z.of_nat 0 + 1) with 1 in *.
  exists deltas, last. done.
Qed.

(** X13.  [transformStreamingResponse] reads nothing after the first [done]
    or [error] chunk: whatever the stream holds after it, chunks or an
    exception, the responses yielded are the same. *)
Theorem transformStreamingResponse_stops_at_closing_chunk
    (defaults options : ResponseTransformer.TransformOptions)
    (before after : list ResponseTransformer.StreamItem)
    (closing : ResponseTransformer.StreamChunk) :
  ResponseTransformer.type closing <> ResponseTransformer.delta ->
  ResponseTransformer.transformStreamingResponse defaults
    (before ++ ResponseTransformer.Yields closing :: after) options
  = ResponseTransformer.transformStreamingResponse defaults
      (before ++ [ResponseTransformer.Yields closing]) options.
Proof.
  apply transformStreamingResponse_closing.
Qed.

Lemma transformStreamingResponse_stops_at_closing_chunk_witness :
  ResponseTransformer.transformStreamingResponse ResponseTransformer.defaultOptions
    ([Streaming.deltaChunk "Hello."]
     ++ Streaming.doneChunk :: [ResponseTransformer.Throws "late"]) Streaming.noOptions
  = ResponseTransformer.transformStreamingResponse ResponseTransformer.defaultOptions
      ([Streaming.deltaChunk "Hello."] ++ [Streaming.doneChunk]) Streaming.noOptions.
Proof.
  apply (transformStreamingResponse_stops_at_closing_chunk
           ResponseTransformer.defaultOptions Streaming.noOptions
           [Streaming.deltaChunk "Hello."] [ResponseTransformer.Throws "late"]
           {| ResponseTransformer.type := ResponseTransformer.done;
              ResponseTransformer.data := None;
              ResponseTransformer.chunkError := None |}).
  cbn. discriminate.
Defined.

(** X14.  The streaming client feeding the transformer.  What the client
    throws after its [error] chunk never reaches the transformer, which
    has left its loop at that chunk: the responses are those for the
    chunks alone, and when the client failed they include the error
    response with the client's message. *)
Theorem streamed_failure_is_reported_once
    (content : string -> option string)
    (config : OpenRouterClient.OpenRouterConfig) (upstream : ChatStream.Upstream)
    (defaults options : ResponseTransformer.TransformOptions) :
  1 <= OpenRouterClient.effectiveMaxRetries config ->
  let run := ChatStream.streamChatCompletion content config upstream in
  let responses :=
    ResponseTransformer.transformStreamingResponse defaults (ChatStream.items run) options in
  responses
  = ResponseTransformer.transformStreamingResponse defaults
      (map ResponseTransformer.Yields (ChatStream.yielded run)) options /\
  (forall e, ChatStream.thrown run = Some e ->
     ChatStream.reported (thrownMessage e) ∈ responses).
Proof.
  intros Hpos. cbn zeta.
  destruct (streamChatCompletion_shape content config upstream Hpos)
    as (deltas & last & Hyielded & Hdeltas & Hlast).
  unfold ChatStream.items. rewrite Hyielded, map_app. cbn [map].
  destruct Hlast as [[-> Hnone] | (e & Hsome & ->)].
  - rewrite Hnone, app_nil_r. split; [reflexivity | intros e [=]].
  - rewrite Hsome, <- app_assoc. cbn [app].
    split.
    + by apply transformStreamingResponse_closing.
    + intros e' [= <-].
      rewrite transformStreamingResponse_closing by done.
      unfold ResponseTransformer.transformStreamingResponse.
      destruct (forAwait_error (ResponseTransformer.spread defaults options) deltas
                  (thrownMessage e) []
                  {| ResponseTransformer.accumulatedText := "";
                     ResponseTransformer.chunkBuffer := "";
                     ResponseTransformer.hasImageAnalysis := false |})
        as (partials & st' & ->).
      { eapply Forall_impl; [exact Hdeltas|]. by intros chunk [? _]. }
      assert (Hin : ChatStream.reported (thrownMessage e)
                    ∈ partials ++ [ChatStream.reported (thrownMessage e)]).
      { apply elem_of_app. right. apply list_elem_of_here. }
      destruct (JS.trim (ResponseTransformer.chunkBuffer st')); [exact Hin|].
      apply elem_of_app. by left.
Qed.

Lemma streamed_failure_is_reported_once_witness :
  ChatStream.reported "socket hang up"
  ∈ ResponseTransformer.transformStreamingResponse ResponseTransformer.defaultOptions
      (ChatStream.items
         (ChatStream.streamChatCompletion ChatStream.plainText Retry.unconfigured
                                          ChatStream.cutBody))
      Streaming.noOptions.
Proof.
  apply (proj2 (streamed_failure_is_reported_once ChatStream.plainText Retry.unconfigured
                  ChatStream.cutBody ResponseTransformer.defaultOptions Streaming.noOptions
                  ltac:(vm_compute; discriminate))
               (ThrownError "socket hang up" true)).
  vm_compute. reflexivity.
Defined.

(** * Sanitising what is logged *)

Section LoggingFacts.

Import Logging.

Lemma sanitize_item (value : Value) :
  match value with
  | Prim _ => value
  | _ => sanitizeForLogging value
  end = sanitizeForLogging value.
Proof. by destruct value. Qed.

Lemma sanitize_entry (key : string) (value : Value) :
  (if isSensitive key then (key, REDACTED)
   else match value with
        | Prim _ => (key, value)
        | _ => (key, sanitizeForLogging value)
        end)
  = (key, if isSensitive key then REDACTED else sanitizeForLogging value).
Proof. destruct (isSensitive key); [reflexivity | by destruct value]. Qed.

Lemma is_mark (value : Value) :
  match value with
  | Prim (Str "[REDACTED]") => true
  | _ => false
  end = true <-> REDACTED = value.
Proof.
  split.
  - destruct value as [[s| | |]| | |]; try discriminate.
    destruct (decide (s = "[REDACTED]")) as [->|Hne]; [reflexivity|].
    intros H. exfalso. apply Hne. clear Hne.
    repeat (destruct s as [|[[] [] [] [] [] [] [] []] s]; try discriminate H).
    reflexivity.
  - by intros <-.
Qed.

Lemma map_fixes {A} (f : A -> A) (l : list A) :
  map f l = l <-> Forall (λ x, f x = x) l.
Proof.
  induction l as [|x l IH]; cbn [map].
  - split; [constructor | reflexivity].
  - rewrite Forall_cons. split.
    + intros [= Hx Hl]. split; [exact Hx | by apply IH].
    + intros [Hx Hl]. f_equal; [exact Hx | by apply IH].
Qed.

Lemma filter_map_fixes {A} (P : A -> Prop) `{!forall x, Decision (P x)}
    (f : A -> A) (l : list A) :
  filter P (map f l) = l <-> Forall (λ x, P x /\ f x = x) l.
Proof.
  induction l as [|x l IH]; cbn [map].
  - split; [constructor | reflexivity].
  - rewrite filter_cons, Forall_cons. destruct (decide (P (f x))) as [Hp | Hp].
    + split.
      * intros [= Hx Hl]. split; [split; [by rewrite <- Hx | exact Hx] | by apply IH].
      * intros [[_ Hx] Hl]. f_equal; [exact Hx | by apply IH].
    + split.
      * intros Hl. pose proof (length_filter P (map f l)) as Hlen.
        rewrite Hl, length_map in Hlen. cbn [length] in Hlen. lia.
      * intros [[Hpx Hx] _]. rewrite Hx in Hp. done.
Qed.

Lemma sanitize_sound (data : Value) :
  redacted (sanitizeForLogging data) = true /\
  withoutPrototypeKey (sanitizeForLogging data) = true /\
  (sanitizeForLogging data = data
   <-> redacted data = true /\ withoutPrototypeKey data = true).
Proof.
  induction data as [p| |items IH|entries IH] using Value_induction;
    cbn [sanitizeForLogging redacted withoutPrototypeKey]; [done | done | |];
    rewrite Forall_forall in IH.
  - split; [|split].
    + rewrite forallb_forall. intros value Hin.
      apply in_map_iff in Hin as (x & <- & Hx).
      rewrite sanitize_item. apply list_elem_of_In in Hx.
      by destruct (IH x Hx).
    + rewrite forallb_forall. intros value Hin.
      apply in_map_iff in Hin as (x & <- & Hx).
      rewrite sanitize_item. apply list_elem_of_In in Hx.
      by destruct (IH x Hx) as (_ & ? & _).
    + rewrite !forallb_forall.
      split.
      * intros [= Hmap]. apply map_fixes in Hmap. rewrite Forall_forall in Hmap.
        split; intros value Hin; apply list_elem_of_In in Hin;
          specialize (Hmap value Hin); rewrite sanitize_item in Hmap;
          by apply (IH value Hin).
      * intros [Hred Hkeys]. f_equal. apply map_fixes, Forall_forall. intros value Hin.
        rewrite sanitize_item.
        apply (IH value Hin). split; [apply Hred | apply Hkeys]; by apply list_elem_of_In.
  - split; [|split].
    + rewrite forallb_forall. intros entry Hin.
      apply list_elem_of_In, list_elem_of_filter in Hin as [_ Hin].
      apply list_elem_of_In, in_map_iff in Hin as ([key value] & <- & Hx).
      rewrite sanitize_entry.
      destruct (isSensitive key); [reflexivity|].
      apply list_elem_of_In in Hx. by destruct (IH (key, value) Hx).
    + rewrite forallb_forall. intros entry Hin.
      apply list_elem_of_In, list_elem_of_filter in Hin as [Hkey Hin].
      apply list_elem_of_In, in_map_iff in Hin as ([key value] & <- & Hx).
      rewrite sanitize_entry in Hkey |- *. cbn [fst] in Hkey.
      rewrite bool_decide_eq_true_2 by exact Hkey. cbn [andb].
      destruct (isSensitive key); [reflexivity|].
      apply list_elem_of_In in Hx. by destruct (IH (key, value) Hx) as (_ & ? & _).
    + rewrite !forallb_forall.
      split.
      * intros [= Hmap]. apply filter_map_fixes in Hmap. rewrite Forall_forall in Hmap.
        split; intros [key value] Hin; apply list_elem_of_In in Hin;
          destruct (Hmap (key, value) Hin) as [Hkey Hfix]; cbn [fst] in Hkey;
          rewrite sanitize_entry in Hfix; injection Hfix as Hvalue.
        -- destruct (isSensitive key); [by apply is_mark|].
           by apply (IH (key, value) Hin).
        -- rewrite bool_decide_eq_true_2 by exact Hkey. cbn [andb].
           destruct (isSensitive key); [by rewrite <- Hvalue|].
           by apply (IH (key, value) Hin).
      * intros [Hred Hkeys]. f_equal. apply filter_map_fixes, Forall_forall.
        intros [key value] Hin.
        specialize (Hred (key, value) ltac:(by apply list_elem_of_In)).
        specialize (Hkeys (key, value) ltac:(by apply list_elem_of_In)).
        cbn beta iota in Hred, Hkeys.
        apply andb_true_iff in Hkeys as [Hkey Hvalue].
        apply bool_decide_eq_true in Hkey.
        split; [exact Hkey|].
        rewrite sanitize_entry. f_equal.
        destruct (isSensitive key); [by apply is_mark|].
        by apply (IH (key, value) Hin).
Qed.

End LoggingFacts.

Section SensitiveKeys.

Import Logging.

Lemma lowerChar_not_K (c : ascii) : JS.lowerChar c <> "K"%char.
Proof. destruct c as [[] [] [] [] [] [] [] []]; vm_compute; discriminate. Qed.

Lemma lowered_never_apiKey (s : string) :
  JS.includes (JS.toLowerCase s) "apiKey" = false.
Proof.
  induction s as [|c s IH]; [reflexivity|].
  cbn [JS.toLowerCase JS.includes]. rewrite IH, orb_false_r.
  destruct s as [|c1 [|c2 [|c3 s]]]; cbn [JS.toLowerCase JS.startsWith];
    try (by repeat case_match).
  destruct (Ascii.eqb_spec "K" (JS.lowerChar c3)) as [Heq|];
    [by destruct (lowerChar_not_K c3) | by repeat case_match].
Qed.

Lemma isSensitive_words (key : string) :
  isSensitive key
  = existsb (λ word, JS.includes (JS.toLowerCase key) word)
            ["password"; "token"; "secret"; "key"; "authorization"].
Proof.
  unfold isSensitive, sensitiveKeys. cbn [existsb].
  by rewrite lowered_never_apiKey.
Qed.

End SensitiveKeys.

(** X15.  [sanitizeForLogging] leaves no secret behind.  In its result
    every entry with a sensitive key has the value ['[REDACTED]'], at
    any depth of objects and arrays, and no object has an own key
    ["__proto__"]: the assignment to that key sets a prototype or does
    nothing.  An object keeps its other keys, in order.  The values
    returned unchanged are exactly those where all this already holds,
    so that, for a value without a key ["__proto__"], sanitising twice
    is sanitising once.  A key is sensitive exactly when, put in lower
    case, it contains one of [password], [token], [secret], [key],
    [authorization]: the entry [apiKey] of the list never matches a key
    in lower case, and such keys are caught by [key]. *)
Theorem sanitizeForLogging_redacts (data : Logging.Value) :
  Logging.redacted (Logging.sanitizeForLogging data) = true /\
  Logging.withoutPrototypeKey (Logging.sanitizeForLogging data) = true /\
  (Logging.sanitizeForLogging data = data
   <-> Logging.redacted data = true /\ Logging.withoutPrototypeKey data = true) /\
  (Logging.withoutPrototypeKey data = true ->
   Logging.sanitizeForLogging (Logging.sanitizeForLogging data)
   = Logging.sanitizeForLogging data) /\
  Logging.keys (Logging.sanitizeForLogging data)
  = filter (λ key, key ≠ "__proto__") (Logging.keys data) /\
  (forall key,
     Logging.isSensitive key
     = existsb (λ word, JS.includes (JS.toLowerCase key) word)
               ["password"; "token"; "secret"; "key"; "authorization"]).
Proof.
  pose proof (sanitize_sound data) as (Hclean & Hkeys & Hfix).
  split; [exact Hclean|]. split; [exact Hkeys|]. split; [exact Hfix|].
  split; [intros _; by apply sanitize_sound|].
  split; [|apply isSensitive_words].
  clear. destruct data as [p| |items|entries]; try reflexivity.
  cbn [Logging.sanitizeForLogging Logging.keys].
  induction entries as [|[key value] entries IH]; [reflexivity|].
  cbn [map]. rewrite !filter_cons, sanitize_entry. cbn [fst].
  destruct (decide (key ≠ "__proto__")); cbn [map fst]; by rewrite IH.
Qed.

(** An object parsed from JSON with an own key ["__proto__"] comes out
    without it. *)
Example prototype_key_is_dropped :
  Logging.sanitizeForLogging
    (Logging.Object [("user", Logging.Prim (Logging.Str "ada"));
                     ("__proto__", Logging.Object [("token", Logging.Prim (Logging.Str "t"))]);
                     ("apiKey", Logging.Prim (Logging.Str "sk-1"))])
  = Logging.Object [("user", Logging.Prim (Logging.Str "ada"));
                    ("apiKey", Logging.REDACTED)].
Proof. reflexivity. Qed.

(** * Formatting the messages of a request *)

Section TrimFacts.

Lemma trimStart_head (s : string) :
  match JS.trimStart s with
  | String c _ => JS.isWhiteSpace c = false
  | EmptyString => True
  end.
Proof.
  induction s as [|c s IH]; cbn [JS.trimStart]; [done|].
  destruct (JS.isWhiteSpace c) eqn:Hc; [exact IH | exact Hc].
Qed.


Lemma trimEnd_cons (c : ascii) (s : string) :
  JS.trimEnd (String c s)
  = match JS.trimEnd s with
    | EmptyString => if JS.isWhiteSpace c then EmptyString else String c EmptyString
    | t => String c t
    end.
Proof. reflexivity. Qed.

Lemma trimEnd_head (s : string) :
  match s with
  | String c _ => JS.isWhiteSpace c = false
  | EmptyString => True
  end ->
  match JS.trimEnd s with
  | String c _ => JS.isWhiteSpace c = false
  | EmptyString => True
  end.
Proof.
  destruct s as [|c s]; [done|]. intros Hc. rewrite trimEnd_cons.
  destruct (JS.trimEnd s); [by rewrite Hc | exact Hc].
Qed.


Lemma trimEnd_last (s front : string) (c : ascii) :
  JS.trimEnd s = front +:+ String c EmptyString -> JS.isWhiteSpace c = false.
Proof.
  revert front. induction s as [|d s IH]; intros front.
  - cbn [JS.trimEnd]. destruct front; discriminate.
  - rewrite trimEnd_cons. destruct (JS.trimEnd s) as [|e t] eqn:Ht.
    + destruct (JS.isWhiteSpace d) eqn:Hd.
      * destruct front; discriminate.
      * destruct front as [|f front]; [by intros [= <-]|].
        intros [= _ H]. destruct front; discriminate.
    + destruct front as [|f front]; [discriminate|].
      rewrite append_cons. intros [= _ H]. by apply (IH front).
Qed.


Lemma trim_trimmed (s : string) : Messages.trimmed (JS.trim s).
Proof.
  split.
  - intros c rest Heq.
    pose proof (trimEnd_head (JS.trimStart s) (trimStart_head s)) as Hhead.
    unfold JS.trim in Heq. by rewrite Heq in Hhead.
  - intros front c Heq. by apply (trimEnd_last (JS.trimStart s) front).
Qed.

End TrimFacts.


(** * Further properties of the image processor *)

Section StringFacts.

Lemma startsWith_append (s p : string) :
  JS.startsWith s p = true -> s = p +:+ JS.drop (String.length p) s.
Proof.
  revert s. induction p as [|a p IH]; intros s; [by destruct s|].
  destruct s as [|b s]; cbn [JS.startsWith]; [discriminate|].
  destruct (Ascii.eqb_spec a b) as [->|]; [|discriminate].
  intros H. cbn [String.length JS.drop]. rewrite append_cons. f_equal. by apply IH.
Qed.

Lemma len_append (a b : string) : JS.len (a +:+ b) = JS.len a + JS.len b.
Proof.
  unfold JS.len. induction a as [|c a IH].
  - change ("" +:+ b) with b. cbn [String.length]. lia.
  - rewrite append_cons. cbn [String.length]. lia.
Qed.

Lemma allChars_impl (p q : ascii -> bool) (s : string) :
  (forall c, p c = true -> q c = true) ->
  ImageProcessor.allChars p s = true -> ImageProcessor.allChars q s = true.
Proof.
  intros Hpq. induction s as [|c s IH]; [done|].
  cbn [ImageProcessor.allChars]. intros [Hc Hs]%andb_true_iff.
  by rewrite (Hpq c Hc), IH.
Qed.

(** A string without the separator is not split. *)
Lemma split_none (sep : ascii) (s : string) :
  ImageProcessor.allChars (λ c, negb (Ascii.eqb c sep)) s = true ->
  JS.split sep s = [s].
Proof.
  induction s as [|c s IH]; [reflexivity|].
  cbn [ImageProcessor.allChars JS.split]. intros [Hc Hs]%andb_true_iff.
  apply negb_true_iff in Hc. by rewrite Hc, IH.
Qed.

Lemma split_at (sep : ascii) (a b : string) :
  ImageProcessor.allChars (λ c, negb (Ascii.eqb c sep)) a = true ->
  JS.split sep (a +:+ String sep b) = a :: JS.split sep b.
Proof.
  induction a as [|c a IH].
  - intros _. change ("" +:+ String sep b) with (String sep b).
    cbn [JS.split]. by rewrite Ascii.eqb_refl.
  - cbn [ImageProcessor.allChars]. intros [Hc Ha]%andb_true_iff.
    apply negb_true_iff in Hc. rewrite append_cons. cbn [JS.split].
    by rewrite Hc, IH.
Qed.

Lemma indexOf_at (sep : ascii) (a b : string) (i : Z) :
  ImageProcessor.allChars (λ c, negb (Ascii.eqb c sep)) a = true ->
  JS.indexOfFrom sep (a +:+ String sep b) i = i + JS.len a.
Proof.
  revert i. induction a as [|c a IH]; intros i.
  - intros _. change ("" +:+ String sep b) with (String sep b).
    cbn [JS.indexOfFrom]. rewrite Ascii.eqb_refl. unfold JS.len. cbn. lia.
  - cbn [ImageProcessor.allChars]. intros [Hc Ha]%andb_true_iff.
    apply negb_true_iff in Hc. rewrite append_cons. cbn [JS.indexOfFrom].
    rewrite Hc, IH by done. unfold JS.len. cbn [String.length]. lia.
Qed.

Lemma base64_no_comma (c : ascii) :
  ImageProcessor.isBase64Char c = true -> negb (Ascii.eqb c ",") = true.
Proof. destruct c as [[] [] [] [] [] [] [] []]; vm_compute; congruence. Qed.

Lemma toLowerCase_nonempty (s : string) : s <> "" -> JS.toLowerCase s <> "".
Proof. by destruct s. Qed.

End StringFacts.

Section InlineImages.

Import ImageProcessor.

(** What the pattern of [validateImageInput] accepts. *)
Lemma dataUrlPattern_accepts (s : string) :
  dataUrlPattern s = true ->
  exists fmt payload,
    fmt ∈ Images.declarable /\
    s = "data:image/" +:+ fmt +:+ ";base64," +:+ payload /\
    payload <> "" /\ allChars isBase64Char payload = true.
Proof.
  unfold dataUrlPattern. intros (fmt & Hin & Hfmt)%existsb_exists.
  apply andb_true_iff in Hfmt as [[Hstart Hnonempty]%andb_true_iff Hchars].
  exists fmt, (JS.drop (String.length ("data:image/" +:+ fmt +:+ ";base64,")) s).
  split; [by apply list_elem_of_In|].
  split.
  - rewrite <- !append_assoc. rewrite !append_assoc.
    rewrite <- (append_assoc "data:image/" fmt), <- append_assoc.
    rewrite (append_assoc "data:image/" fmt).
    by apply startsWith_append.
  - split; [|exact Hchars].
    apply negb_true_iff in Hnonempty. by apply String.eqb_neq in Hnonempty.
Qed.

End InlineImages.

Section DownloadFacts.

Import ImageProcessor.

Variable env : Environment.

Lemma searchImageSlash_nonempty (s f : string) :
  searchImageSlash s = Some f -> f <> "".
Proof.
  induction s as [|c s IH]; cbn [searchImageSlash].
  - cbn. discriminate.
  - destruct (if JS.startsWith (String c s) "image/" then _ else _); [exact IH|].
    by intros [= <-].
Qed.

Lemma extractFormatFromContentType_nonempty (contentType : option string) (f : string) :
  extractFormatFromContentType contentType = Some f -> f <> "".
Proof.
  unfold extractFormatFromContentType.
  destruct (JS.truthyStr contentType) as [ct|]; [|discriminate].
  destruct (searchImageSlash ct) as [capture|] eqn:Hsearch; [|discriminate].
  intros [= <-]. by apply toLowerCase_nonempty, (searchImageSlash_nonempty ct).
Qed.

Lemma extractFormatFromUrl_declarable (address f : string) :
  extractFormatFromUrl env address = Some f -> f ∈ Images.declarable.
Proof.
  unfold extractFormatFromUrl.
  destruct (parseUrl env address) as [u|]; [|discriminate].
  destruct (last _) as [extension|]; [|discriminate].
  destruct (negb (String.eqb extension "")); [|discriminate]. cbn [andb].
  destruct (bool_decide _) eqn:Hin; [|discriminate].
  intros [= <-]. by apply bool_decide_eq_true in Hin.
Qed.

Lemma declarable_nonempty (f : string) : f ∈ Images.declarable -> f <> "".
Proof.
  unfold Images.declarable. intros Hin ->.
  repeat (apply elem_of_cons in Hin as [Hin | Hin]; [discriminate Hin|]).
  by apply not_elem_of_nil in Hin.
Qed.

(** The outcomes of [downloadImage]. *)
Lemma downloadImage_cases (address : string) :
  let '(log, result) := downloadImage env address in
  head log = Some (HttpGet address) /\
  (forall other, HttpGet other ∈ tail log -> False) /\
  (Images.decodes log ->
   exists response,
     httpGet env address = inr response /\
     tail log = [SharpMetadata (data response)] /\
     extractFormatFromContentType (contentType response) = None /\
     extractFormatFromUrl env address = None) /\
  match result with
  | inr (buffer, format) =>
      format <> "" /\
      exists response, httpGet env address = inr response /\ buffer = data response
  | inl thrown =>
      exists cause,
        thrown = ThrownObject cause /\ retryable cause = false /\
        code cause ∈ ["IMAGE_URL_INACCESSIBLE"; "IMAGE_NOT_FOUND";
                      "IMAGE_ACCESS_FORBIDDEN"; "DOWNLOAD_ERROR"]
  end.
Proof.
  unfold downloadImage, emit, throw, createError, mbind, M_bind, mret, M_ret.
  destruct (httpGet env address) as [failure|response] eqn:Hget.
  - assert (Hquiet : ~ Images.decodes [HttpGet address]).
    { intros (ev & Hev & Hsharp). apply list_elem_of_singleton in Hev as ->. done. }
    destruct (bool_decide (failureCode failure = Some "ENOTFOUND")
              || bool_decide (failureCode failure = Some "ECONNREFUSED"));
      [|destruct (bool_decide (failureStatus failure = Some 404));
        [|destruct (bool_decide (failureStatus failure = Some 403))]];
      cbn [app head tail]; (split; [reflexivity|]);
      (split; [intros other Hin; by apply not_elem_of_nil in Hin|]);
      (split; [intros Hd; by destruct Hquiet|]);
      eexists; (split; [reflexivity|]); (split; [reflexivity|]); cbn [code].
    + apply list_elem_of_here.
    + apply list_elem_of_further, list_elem_of_here.
    + do 2 apply list_elem_of_further. apply list_elem_of_here.
    + do 3 apply list_elem_of_further. apply list_elem_of_here.
  - assert (Hquiet : ~ Images.decodes [HttpGet address]).
    { intros (ev & Hev & Hsharp). apply list_elem_of_singleton in Hev as ->. done. }
    destruct (extractFormatFromContentType (contentType response)) as [f|] eqn:Hheader.
    { cbn [app head tail]. split; [reflexivity|].
      split; [intros other Hin; by apply not_elem_of_nil in Hin|].
      split; [intros Hd; by destruct Hquiet|].
      split; [by apply (extractFormatFromContentType_nonempty (contentType response))|].
      by exists response. }
    destruct (extractFormatFromUrl env address) as [f|] eqn:Hextension.
    { cbn [app head tail]. split; [reflexivity|].
      split; [intros other Hin; by apply not_elem_of_nil in Hin|].
      split; [intros Hd; by destruct Hquiet|].
      split; [by apply declarable_nonempty, (extractFormatFromUrl_declarable address)|].
      by exists response. }
    unfold detectImageFormat, emit, mbind, M_bind, mret, M_ret.
    assert (Hsharp : forall other, HttpGet other ∈ [SharpMetadata (data response)] -> False).
    { intros other Hin. apply list_elem_of_singleton in Hin. discriminate Hin. }
    destruct (sharpMetadata env (data response)) as [err|metadata].
    + cbn [app head tail]. split; [reflexivity|]. split; [exact Hsharp|].
      split; [intros _; by exists response|].
      eexists; split; [reflexivity|]. split; [reflexivity|]. cbn [code].
      do 3 apply list_elem_of_further. apply list_elem_of_here.
    + destruct (JS.truthyStr (format metadata)) as [f|] eqn:Hformat.
      * cbn [app head tail]. split; [reflexivity|]. split; [exact Hsharp|].
        split; [intros _; by exists response|].
        split; [by apply truthyStr_nonempty in Hformat as [_ ?]|].
        by exists response.
      * cbn [app head tail]. split; [reflexivity|]. split; [exact Hsharp|].
        split; [intros _; by exists response|].
        eexists; split; [reflexivity|]. split; [reflexivity|]. cbn [code].
        do 3 apply list_elem_of_further. apply list_elem_of_here.
Qed.

End DownloadFacts.

(** X17.  [downloadImage] sends exactly one request.  It asks [sharp] for the
    format, once, only when neither the [Content-Type] header nor the
    extension of the URL names one.  When it returns, the buffer is the
    body of the response and the format is not empty; when it throws,
    the value thrown is a plain object that is not retryable and whose
    code is one of [IMAGE_URL_INACCESSIBLE], [IMAGE_NOT_FOUND],
    [IMAGE_ACCESS_FORBIDDEN], [DOWNLOAD_ERROR]. *)
Theorem downloadImage_outcomes (env : ImageProcessor.Environment) (address : string) :
  let '(log, result) := ImageProcessor.downloadImage env address in
  head log = Some (ImageProcessor.HttpGet address) /\
  (forall other, ImageProcessor.HttpGet other ∈ tail log -> False) /\
  (Images.decodes log ->
   exists response,
     ImageProcessor.httpGet env address = inr response /\
     tail log = [ImageProcessor.SharpMetadata (ImageProcessor.data response)] /\
     ImageProcessor.extractFormatFromContentType (ImageProcessor.contentType response)
     = None /\
     ImageProcessor.extractFormatFromUrl env address = None) /\
  match result with
  | inr (buffer, format) =>
      format <> "" /\
      exists response,
        ImageProcessor.httpGet env address = inr response /\
        buffer = ImageProcessor.data response
  | inl thrown =>
      exists cause,
        thrown = ThrownObject cause /\ retryable cause = false /\
        code cause ∈ ["IMAGE_URL_INACCESSIBLE"; "IMAGE_NOT_FOUND";
                      "IMAGE_ACCESS_FORBIDDEN"; "DOWNLOAD_ERROR"]
  end.
Proof. apply downloadImage_cases. Qed.

Section ProcessFacts.

Import ImageProcessor.

Variable env : Environment.
Variable options : Options.




End ProcessFacts.



Section InlineFacts.

Import ImageProcessor.

Variable env : Environment.

(** An input that [validateImageInput] accepts as inline data. *)
Lemma inline_accepted (address : string) :
  valid (validateImageInput env address) = true ->
  type (validateImageInput env address) = base64 ->
  exists fmt payload,
    fmt ∈ Images.declarable /\
    address = "data:image/" +:+ fmt +:+ ";base64," +:+ payload /\
    payload <> "" /\ allChars isBase64Char payload = true.
Proof.
  unfold validateImageInput.
  destruct (String.eqb address ""); [discriminate|].
  destruct (JS.startsWith address "data:image/").
  - destruct (dataUrlPattern address) eqn:Hpattern; cbn [negb valid]; [|discriminate].
    intros _ _. by apply dataUrlPattern_accepts.
  - destruct (parseUrl env address) as [u|]; [|discriminate].
    destruct (negb (bool_decide _)); cbn [valid type]; discriminate.
Qed.

(** The parts of an accepted data URL, read back by the functions that
    take it apart. *)
Lemma inline_parts (fmt payload : string) :
  fmt ∈ Images.declarable ->
  allChars isBase64Char payload = true ->
  let address := "data:image/" +:+ fmt +:+ ";base64," +:+ payload in
  JS.startsWith address "data:image/" = true /\
  extractFormatFromDataUrl address = fmt /\
  JS.toLowerCase fmt = fmt /\
  JS.split "," address = ["data:image/" +:+ fmt +:+ ";base64"; payload] /\
  JS.len address - JS.indexOf address "," - 1 = JS.len payload.
Proof.
  intros Hfmt Hchars. cbn zeta.
  assert (Hcomma : allChars (λ c, negb (Ascii.eqb c ",")) payload = true)
    by (eapply allChars_impl; [apply base64_no_comma | exact Hchars]).
  assert (Hparts : forall front : string,
            allChars (λ c, negb (Ascii.eqb c ",")) front = true ->
            JS.split "," (front +:+ String "," payload) = [front; payload] /\
            JS.len (front +:+ String "," payload)
            - JS.indexOf (front +:+ String "," payload) "," - 1 = JS.len payload).
  { intros front Hfront. split.
    - by rewrite split_at, split_none.
    - unfold JS.indexOf. rewrite indexOf_at, len_append by done.
      unfold JS.len. cbn [String.length]. lia. }
  unfold Images.declarable in Hfmt.
  repeat (apply elem_of_cons in Hfmt as [-> | Hfmt]);
    [..|by apply not_elem_of_nil in Hfmt];
    (split; [reflexivity|]); (split; [reflexivity|]); (split; [reflexivity|]).
  - apply (Hparts "data:image/jpeg;base64"). reflexivity.
  - apply (Hparts "data:image/jpg;base64"). reflexivity.
  - apply (Hparts "data:image/png;base64"). reflexivity.
  - apply (Hparts "data:image/webp;base64"). reflexivity.
  - apply (Hparts "data:image/gif;base64"). reflexivity.
Qed.

End InlineFacts.

(** X19.  An inline image is decoded as it declares itself.  For an input
    that [validateImageInput] accepts as inline data, the image is loaded
    without any request and without [sharp]: the bytes are those decoded
    from the text after the comma, and the format is the one the data
    URL declares, one of [jpeg], [jpg], [png], [webp], [gif], which the
    default options allow. *)
Theorem inline_image_loaded_as_declared
    (env : ImageProcessor.Environment) (address : string) :
  ImageProcessor.valid (ImageProcessor.validateImageInput env address) = true ->
  ImageProcessor.type (ImageProcessor.validateImageInput env address)
  = ImageProcessor.base64 ->
  exists fmt payload,
    fmt ∈ Images.declarable /\
    address = "data:image/" +:+ fmt +:+ ";base64," +:+ payload /\
    payload <> "" /\
    ImageProcessor.loadImage env address ImageProcessor.base64
    = ([], inr (ImageProcessor.fromBase64 env payload, fmt)) /\
    (forall options,
       ImageProcessor.allowedFormats' options = None ->
       JS.toLowerCase fmt
       ∈ ImageProcessor.allowedFormats (ImageProcessor.new options)).
Proof.
  intros Hvalid Htype.
  destruct (inline_accepted env address Hvalid Htype)
    as (fmt & payload & Hfmt & -> & Hpayload & Hchars).
  destruct (inline_parts fmt payload Hfmt Hchars) as (_ & Hformat & Hlower & Hsplit & _).
  exists fmt, payload. split; [exact Hfmt|]. split; [reflexivity|].
  split; [exact Hpayload|]. split.
  - unfold ImageProcessor.loadImage. rewrite Hsplit, Hformat. reflexivity.
  - intros options Hdefault. unfold ImageProcessor.new.
    cbn [ImageProcessor.allowedFormats]. rewrite Hdefault, Hlower. exact Hfmt.
Qed.

Lemma inline_image_loaded_as_declared_witness :
  exists fmt payload,
    fmt ∈ Images.declarable /\
    Images.fourBytes = "data:image/" +:+ fmt +:+ ";base64," +:+ payload /\
    payload <> "" /\
    ImageProcessor.loadImage Images.growingEncoder Images.fourBytes ImageProcessor.base64
    = ([], inr (ImageProcessor.fromBase64 Images.growingEncoder payload, fmt)) /\
    (forall options,
       ImageProcessor.allowedFormats' options = None ->
       JS.toLowerCase fmt
       ∈ ImageProcessor.allowedFormats (ImageProcessor.new options)).
Proof.
  apply (inline_image_loaded_as_declared Images.growingEncoder Images.fourBytes);
    vm_compute; reflexivity.
Defined.

(** X20.  The size estimate for inline images.  For an input that
    [validateImageInput] accepts as inline data, [validateForModel] and
    [validateImageSize] both estimate the size from the text after the
    comma alone, as three quarters of its length rounded up.
    [validateForModel] accepts the image exactly when the model supports
    the declared format and the estimate is within the model's limit,
    and [validateImageSize] exactly when the estimate is within the
    limit given.  For any input, [validateForModel] reports at most two
    issues and accepts exactly when it reports none. *)
Theorem inline_image_size_estimate
    (env : ImageProcessor.Environment) (address : string) :
  (forall limits,
     let v := ImageProcessor.validateForModel env address limits in
     (ImageProcessor.acceptable v = true <-> ImageProcessor.issues v = []) /\
     (length (ImageProcessor.issues v) <= 2)%nat) /\
  (ImageProcessor.valid (ImageProcessor.validateImageInput env address) = true ->
   ImageProcessor.type (ImageProcessor.validateImageInput env address)
   = ImageProcessor.base64 ->
   exists fmt payload,
     address = "data:image/" +:+ fmt +:+ ";base64," +:+ payload /\
     ImageProcessor.base64Size address = JS.ceilThreeQuarters (JS.len payload) /\
     (forall limits,
        ImageProcessor.acceptable (ImageProcessor.validateForModel env address limits) = true
        <-> fmt ∈ ImageProcessor.supportedFormats limits /\
            JS.ceilThreeQuarters (JS.len payload) <= ImageProcessor.maxImageSize limits) /\
     (forall maxSize,
        ImageSize.size (ImageSize.validateImageSize address maxSize)
        = Some (JS.ceilThreeQuarters (JS.len payload)) /\
        (ImageSize.valid (ImageSize.validateImageSize address maxSize) = true
         <-> JS.ceilThreeQuarters (JS.len payload) <= maxSize) /\
        (ImageSize.valid (ImageSize.validateImageSize address maxSize) = true
         <-> ImageSize.error (ImageSize.validateImageSize address maxSize) = None))).
Proof.
  split.
  - intros limits. cbn zeta. unfold ImageProcessor.validateForModel.
    cbn [ImageProcessor.acceptable ImageProcessor.issues].
    destruct (JS.startsWith address "data:image/");
      destruct (JS.truthyStr _); try destruct (negb (bool_decide _));
      try destruct (ImageProcessor.maxImageSize limits <? _);
      cbn [app length]; (split; [split; intros; (reflexivity || discriminate) | lia]).
  - intros Hvalid Htype.
    destruct (inline_accepted env address Hvalid Htype)
      as (fmt & payload & Hfmt & -> & Hpayload & Hchars).
    destruct (inline_parts fmt payload Hfmt Hchars)
      as (Hstart & Hformat & Hlower & _ & Hlen).
    exists fmt, payload. split; [reflexivity|].
    assert (Hsize : ImageProcessor.base64Size
                      ("data:image/" +:+ fmt +:+ ";base64," +:+ payload)
                    = JS.ceilThreeQuarters (JS.len payload)).
    { unfold ImageProcessor.base64Size. by rewrite Hlen. }
    split; [exact Hsize|]. split.
    + intros limits. unfold ImageProcessor.validateForModel.
      rewrite Hstart, Hformat, Hsize.
      assert (Hsome : JS.truthyStr (Some fmt) = Some fmt).
      { pose proof (declarable_nonempty fmt Hfmt). by destruct fmt. }
      rewrite Hsome, Hlower. cbn [ImageProcessor.acceptable].
      destruct (bool_decide (fmt ∈ ImageProcessor.supportedFormats limits)) eqn:Hsup;
        [apply bool_decide_eq_true in Hsup | apply bool_decide_eq_false in Hsup];
        destruct (Z.ltb_spec (ImageProcessor.maxImageSize limits)
                    (JS.ceilThreeQuarters (JS.len payload)));
        cbn [negb app]; split; try done; try (intros [? ?]; done); try (intros [? ?]; lia).
    + intros maxSize. unfold ImageSize.validateImageSize.
      assert (Hhttp : JS.startsWith ("data:image/" +:+ fmt +:+ ";base64," +:+ payload)
                        "http://" = false) by reflexivity.
      assert (Hhttps : JS.startsWith ("data:image/" +:+ fmt +:+ ";base64," +:+ payload)
                         "https://" = false) by reflexivity.
      rewrite Hhttp, Hhttps, Hlen. cbn [negb andb ImageSize.size ImageSize.valid ImageSize.error].
      split; [reflexivity|]. split; [apply Z.leb_le|].
      destruct (Z.ltb_spec maxSize (JS.ceilThreeQuarters (JS.len payload)));
        rewrite Z.leb_le; split; try done; lia.
Qed.

(** * Further properties of the response transformer *)

Section LengthFacts.

Import ResponseTransformer.

Lemma len_prefix (s : string) (n : Z) : JS.len (JS.substring s 0 n) <= Z.max 0 n.
Proof. rewrite substring_prefix. unfold JS.len. rewrite take_length. lia. Qed.

Lemma truncateResponse_length (text : string) (limit : Z) :
  25 <= limit -> JS.len (truncateResponse text limit) <= limit.
Proof.
  intros Hlimit. unfold truncateResponse.
  destruct (Z.leb_spec (JS.len text) limit) as [Hshort|Hlong]; [exact Hshort|].
  pose proof (len_prefix text (limit - 50)) as Hwindow.
  destruct (aboveSeventyPercent _ limit).
  - rewrite len_append.
    pose proof (len_prefix (JS.substring text 0 (limit - 50))
                  (Z.max (JS.lastIndexOf (JS.substring text 0 (limit - 50)) ".")
                         (JS.lastIndexOf (JS.substring text 0 (limit - 50)) LF) + 1)) as Hcut.
    assert (Hinner : JS.len (JS.substring (JS.substring text 0 (limit - 50)) 0
                       (Z.max (JS.lastIndexOf (JS.substring text 0 (limit - 50)) ".")
                              (JS.lastIndexOf (JS.substring text 0 (limit - 50)) LF) + 1))
                     <= JS.len (JS.substring text 0 (limit - 50))).
    { rewrite (substring_prefix (JS.substring text 0 (limit - 50))).
      unfold JS.len. rewrite take_length. lia. }
    change (JS.len truncationMarker) with 22. lia.
  - rewrite !len_append. change (JS.len truncationMarker) with 22.
    change (JS.len "...") with 3. lia.
Qed.

End LengthFacts.

(** X21.  The length limit of [formatResponseText].  With [maxResponseLength]
    set to 25 or more, the text returned, truncation marker included, is
    never longer than the limit.  Below 25 the limit cannot be kept: a
    longer text is replaced by the three dots and the marker, 25
    characters in all. *)
Theorem formatResponseText_within_limit
    (content : string) (options : ResponseTransformer.TransformOptions) (limit : Z) :
  ResponseTransformer.maxResponseLength options = Some limit ->
  let text := ResponseTransformer.normalizeResponseText content options in
  let out := ResponseTransformer.formatResponseText content options in
  (25 <= limit -> JS.len out <= limit) /\
  (0 < limit < 25 -> limit < JS.len text ->
   out = "..." +:+ ResponseTransformer.truncationMarker /\ JS.len out = 25).
Proof.
  intros Hmax. cbn zeta. unfold ResponseTransformer.formatResponseText.
  rewrite Hmax. cbn [JS.truthyZ]. split.
  - intros Hlimit. destruct (Z.eqb_spec limit 0); [lia|].
    destruct (Z.ltb_spec limit
                (JS.len (ResponseTransformer.normalizeResponseText content options)));
      [by apply truncateResponse_length | lia].
  - intros Hsmall Hlong. destruct (Z.eqb_spec limit 0); [lia|].
    destruct (Z.ltb_spec limit
                (JS.len (ResponseTransformer.normalizeResponseText content options)));
      [|lia].
    unfold ResponseTransformer.truncateResponse.
    destruct (Z.leb_spec
                (JS.len (ResponseTransformer.normalizeResponseText content options)) limit);
      [lia|].
    rewrite substring_prefix.
    replace (Z.to_nat (limit - 50)) with 0%nat by lia.
    assert (Hnone : forall s, JS.take 0 s = "") by (by intros []).
    rewrite Hnone.
    replace (ResponseTransformer.aboveSeventyPercent _ limit) with false.
    + split; reflexivity.
    + symmetry. change (JS.lastIndexOf "" _) with (-1).
      destruct (ResponseTransformer.aboveSeventyPercent (Z.max (-1) (-1)) limit) eqn:Habove;
        [|reflexivity].
      apply exceedsSevenTenths_positive in Habove; lia.
Qed.

Lemma formatResponseText_within_limit_witness :
  JS.len (ResponseTransformer.formatResponseText Truncation.longAnswer
            (Truncation.limitedTo 100)) <= 100.
Proof.
  apply (formatResponseText_within_limit Truncation.longAnswer (Truncation.limitedTo 100) 100);
    [reflexivity | lia].
Defined.

Section SingleShot.

Import ResponseTransformer.

Lemma clampUnit_unit (q : Q) : Registry.unitInterval (clampUnit q).
Proof.
  unfold clampUnit, Registry.unitInterval. split.
  - apply Q.le_max_l.
  - apply Q.max_lub; [discriminate | apply Q.le_min_l].
Qed.

Lemma extractContent_throws (response : ChatCompletionResponse) :
  match extractContent response with
  | inl e =>
      Streaming.unreadable response /\
      (e = ThrownError "No choices in response" false
       \/ e = ThrownError "No message in choice" false)
  | inr _ => ~ Streaming.unreadable response
  end.
Proof.
  unfold extractContent, Streaming.unreadable.
  destruct (choices response) as [|choice rest]; [split; [done | by left]|].
  destruct (choiceMessage choice) as [[s|parts|]|]; try discriminate.
  split; [done | by right].
Qed.

Lemma estimateConfidence_unit (response : ChatCompletionResponse) :
  match estimateConfidence response with
  | inl e => extractContent response = inl e
  | inr q => Registry.unitInterval q
  end.
Proof.
  unfold estimateConfidence.
  destruct (extractContent response) as [e|text]; [reflexivity|].
  apply clampUnit_unit.
Qed.

End SingleShot.

(** X22.  The outcomes of [transformVisionResponse].  It never throws.  When
    the response has no first choice, or that choice has no message, it
    returns the apology, always with metadata, whatever the options:
    the model, confidence 0, the processing time and the message of the
    error.  Otherwise its text is [formatResponseText] of the content
    extracted; the metadata is there exactly when [includeMetadata] is
    set, carries no error, and carries a confidence exactly when
    [includeConfidence] is set, which lies between 0 and 1, and a
    processing time exactly when [includeProcessingTime] is set. *)
Theorem transformVisionResponse_outcomes
    (defaults options : ResponseTransformer.TransformOptions)
    (response : ChatCompletionResponse) (elapsed : Z) :
  let opts := ResponseTransformer.spread defaults options in
  let v := ResponseTransformer.transformVisionResponse defaults response options elapsed in
  match ResponseTransformer.extractContent response with
  | inl e =>
      Streaming.unreadable response /\
      v = {| ResponseTransformer.content := [Streaming.apology];
             ResponseTransformer.metadata :=
               Some {| ResponseTransformer.model_used := Some (responseModel response);
                       ResponseTransformer.confidence_score := Some 0%Q;
                       ResponseTransformer.processing_time_ms := Some elapsed;
                       ResponseTransformer.tokens_used := None;
                       ResponseTransformer.metaFinishReason := None;
                       ResponseTransformer.streaming := None;
                       ResponseTransformer.partial := None;
                       ResponseTransformer.metaError := Some (thrownMessage e) |} |} /\
      (thrownMessage e = "No choices in response"
       \/ thrownMessage e = "No message in choice")
  | inr text =>
      ~ Streaming.unreadable response /\
      ResponseTransformer.content v = [ResponseTransformer.formatResponseText text opts] /\
      (ResponseTransformer.metadata v = None
       <-> ResponseTransformer.truthy (ResponseTransformer.includeMetadata opts) = false) /\
      (forall m, ResponseTransformer.metadata v = Some m ->
         ResponseTransformer.metaError m = None /\
         ResponseTransformer.model_used m = Some (responseModel response) /\
         ResponseTransformer.tokens_used m = total_tokens <$> usage response /\
         (ResponseTransformer.confidence_score m = None
          <-> ResponseTransformer.truthy (ResponseTransformer.includeConfidence opts) = false) /\
         (forall q, ResponseTransformer.confidence_score m = Some q ->
                    Registry.unitInterval q) /\
         ResponseTransformer.processing_time_ms m
         = (if ResponseTransformer.truthy (ResponseTransformer.includeProcessingTime opts)
            then Some elapsed else None) /\
         ResponseTransformer.metaFinishReason m <> Some "stop")
  end.
Proof.
  cbn zeta. unfold ResponseTransformer.transformVisionResponse.
  pose proof (extractContent_throws response) as Hthrows.
  pose proof (estimateConfidence_unit response) as Hunit.
  unfold ResponseTransformer.extractMetadata.
  destruct (ResponseTransformer.extractContent response) as [e|text] eqn:Hcontent.
  - destruct Hthrows as [Hun [-> | ->]]; (split; [exact Hun|]); split; try reflexivity;
      [by left | by right].
  - split; [exact Hthrows|].
    destruct (ResponseTransformer.truthy
                (ResponseTransformer.includeConfidence
                   (ResponseTransformer.spread defaults options))) eqn:Hconf.
    + destruct (ResponseTransformer.estimateConfidence response) as [e|q] eqn:Hest;
        [congruence|].
      cbn [ResponseTransformer.content ResponseTransformer.metadata].
      split; [reflexivity|].
      destruct (ResponseTransformer.truthy
                  (ResponseTransformer.includeMetadata
                     (ResponseTransformer.spread defaults options))).
      * split; [split; discriminate|].
        intros m [= <-].
        cbn [ResponseTransformer.metaError ResponseTransformer.model_used
             ResponseTransformer.tokens_used ResponseTransformer.confidence_score
             ResponseTransformer.processing_time_ms ResponseTransformer.metaFinishReason].
        split; [reflexivity|]. split; [reflexivity|]. split; [reflexivity|].
        split; [split; discriminate|].
        split; [by intros q' [= <-]|]. split; [reflexivity|].
        destruct (choices response) as [|choice rest]; [discriminate|].
        destruct (JS.truthyStr (finish_reason choice)) as [r|]; [|discriminate].
        destruct (String.eqb_spec r "stop"); [discriminate | congruence].
      * split; [done | intros m [=]].
    + cbn [ResponseTransformer.content ResponseTransformer.metadata].
      split; [reflexivity|].
      destruct (ResponseTransformer.truthy
                  (ResponseTransformer.includeMetadata
                     (ResponseTransformer.spread defaults options))).
      * split; [split; discriminate|].
        intros m [= <-].
        cbn [ResponseTransformer.metaError ResponseTransformer.model_used
             ResponseTransformer.tokens_used ResponseTransformer.confidence_score
             ResponseTransformer.processing_time_ms ResponseTransformer.metaFinishReason].
        split; [reflexivity|]. split; [reflexivity|]. split; [reflexivity|].
        split; [done|].
        split; [intros q' [=]|]. split; [reflexivity|].
        destruct (choices response) as [|choice rest]; [discriminate|].
        destruct (JS.truthyStr (finish_reason choice)) as [r|]; [|discriminate].
        destruct (String.eqb_spec r "stop"); [discriminate | congruence].
      * split; [done | intros m [=]].
Qed.

Section ToolFacts.

Import ResponseTransformer.

Lemma transformVisionResponse_single (defaults options : TransformOptions)
    (response : ChatCompletionResponse) (elapsed : Z) :
  exists first, content (transformVisionResponse defaults response options elapsed) = [first].
Proof.
  unfold transformVisionResponse.
  destruct (extractContent response); [by eexists|].
  destruct (extractMetadata response _); by eexists.
Qed.

Lemma startsWith_self (title rest : string) : JS.startsWith (title +:+ rest) title = true.
Proof.
  induction title as [|c title IH]; [by destruct rest|].
  rewrite append_cons. cbn [JS.startsWith]. by rewrite Ascii.eqb_refl.
Qed.

Lemma allChars_trimStart (p : ascii -> bool) (s : string) :
  ImageProcessor.allChars p s = true -> ImageProcessor.allChars p (JS.trimStart s) = true.
Proof.
  induction s as [|c s IH]; [done|]. cbn [JS.trimStart ImageProcessor.allChars].
  intros [Hc Hs]%andb_true_iff.
  destruct (JS.isWhiteSpace c); [by apply IH|].
  cbn [ImageProcessor.allChars]. by rewrite Hc, Hs.
Qed.

Lemma allChars_trimEnd (p : ascii -> bool) (s : string) :
  ImageProcessor.allChars p s = true -> ImageProcessor.allChars p (JS.trimEnd s) = true.
Proof.
  induction s as [|c s IH]; [done|]. rewrite trimEnd_cons.
  cbn [ImageProcessor.allChars]. intros [Hc Hs]%andb_true_iff.
  specialize (IH Hs).
  destruct (JS.trimEnd s) as [|d t].
  - destruct (JS.isWhiteSpace c); [done|]. cbn [ImageProcessor.allChars]. by rewrite Hc.
  - cbn [ImageProcessor.allChars] in *. by rewrite Hc, IH.
Qed.

Lemma len_trimStart (s : string) : JS.len (JS.trimStart s) <= JS.len s.
Proof.
  unfold JS.len. induction s as [|c s IH]; [done|]. cbn [JS.trimStart].
  destruct (JS.isWhiteSpace c); cbn [String.length]; lia.
Qed.

Lemma len_trimEnd (s : string) : JS.len (JS.trimEnd s) <= JS.len s.
Proof.
  unfold JS.len. induction s as [|c s IH]; [done|]. rewrite trimEnd_cons.
  destruct (JS.trimEnd s) as [|d t].
  - destruct (JS.isWhiteSpace c); cbn [String.length] in *; lia.
  - cbn [String.length] in *. lia.
Qed.

Lemma len_trim (s : string) : JS.len (JS.trim s) <= JS.len s.
Proof.
  unfold JS.trim. pose proof (len_trimEnd (JS.trimStart s)). pose proof (len_trimStart s). lia.
Qed.

(** The pieces of a split contain no separator. *)
Lemma split_pieces (sep : ascii) (s piece : string) :
  piece ∈ JS.split sep s ->
  ImageProcessor.allChars (λ c, negb (Ascii.eqb c sep)) piece = true.
Proof.
  revert piece. induction s as [|c s IH]; intros piece; cbn [JS.split].
  - by intros ->%list_elem_of_singleton.
  - destruct (Ascii.eqb c sep) eqn:Hc.
    + intros [-> | Hin]%elem_of_cons; [done | by apply IH].
    + destruct (JS.split sep s) as [|p ps].
      * intros ->%list_elem_of_singleton. cbn [ImageProcessor.allChars]. by rewrite Hc.
      * intros [-> | Hin]%elem_of_cons.
        -- cbn [ImageProcessor.allChars]. rewrite Hc. cbn [negb andb].
           apply IH, list_elem_of_here.
        -- by apply IH, list_elem_of_further.
Qed.

Lemma extractTextBlocks_unreadable (response : ChatCompletionResponse) :
  match extractTextBlocks response with
  | inl e => Streaming.unreadable response /\ extractContent response = inl e
  | inr _ => True
  end.
Proof.
  unfold extractTextBlocks.
  pose proof (extractContent_throws response) as Hthrows.
  destruct (extractContent response) as [e|content]; [|done].
  split; [apply Hthrows | reflexivity].
Qed.

End ToolFacts.

(** X23.  [extractTextBlocks] throws exactly when the response has no first
    choice or that choice has no message.  Otherwise it returns one
    block for each line of the content that is not blank, in order: the
    text of a block is its line without the white space at either end,
    so it is not empty and holds no line feed; block number [i], from 0,
    lies at [y = 20 i] with height 20, and its width, ten times the
    length of the untrimmed line, covers ten times the length of its
    text. *)
Theorem extractTextBlocks_lines (response : ChatCompletionResponse) :
  match ResponseTransformer.extractTextBlocks response with
  | inl e =>
      Streaming.unreadable response /\ ResponseTransformer.extractContent response = inl e
  | inr blocks =>
      exists content,
        ResponseTransformer.extractContent response = inr content /\
        map ResponseTransformer.text blocks
        = map JS.trim (filter (λ line, JS.trim line ≠ "")
                              (JS.split ResponseTransformer.LF content)) /\
        forall (i : nat) (block : ResponseTransformer.TextBlock),
          blocks !! i = Some block ->
          ResponseTransformer.text block <> "" /\
          Messages.trimmed (ResponseTransformer.text block) /\
          Streaming.oneLine (ResponseTransformer.text block) /\
          ResponseTransformer.x (ResponseTransformer.bbox block) = 0 /\
          ResponseTransformer.y (ResponseTransformer.bbox block) = 20 * Z.of_nat i /\
          ResponseTransformer.height (ResponseTransformer.bbox block) = 20 /\
          10 * JS.len (ResponseTransformer.text block)
          <= ResponseTransformer.width (ResponseTransformer.bbox block)
  end.
Proof.
  unfold ResponseTransformer.extractTextBlocks.
  pose proof (extractContent_throws response) as Hthrows.
  destruct (ResponseTransformer.extractContent response) as [e|content].
  - split; [apply Hthrows | reflexivity].
  - exists content. split; [reflexivity|].
    set (lines := filter (λ line, JS.trim line ≠ "")
                         (JS.split ResponseTransformer.LF content)).
    split.
    + rewrite <- (imap_const JS.trim lines) at 1. rewrite fmap_imap.
      by apply imap_ext.
    + intros i block Hblock.
      apply list_lookup_imap_Some in Hblock as (line & Hline & ->).
      cbn [ResponseTransformer.text ResponseTransformer.bbox ResponseTransformer.x
           ResponseTransformer.y ResponseTransformer.height ResponseTransformer.width].
      apply list_elem_of_lookup_2 in Hline.
      apply list_elem_of_filter in Hline as [Hnonblank Hin].
      split; [exact Hnonblank|]. split; [apply trim_trimmed|].
      split.
      * unfold Streaming.oneLine, JS.trim.
        by apply allChars_trimEnd, allChars_trimStart, (split_pieces _ content).
      * pose proof (len_trim line). repeat split; lia.
Qed.

Lemma retitled_cases (defaults options : ResponseTransformer.TransformOptions)
    (response : ChatCompletionResponse) (elapsed : Z) (title : string) :
  let base := ResponseTransformer.transformVisionResponse defaults response options elapsed in
  let result := ResponseTransformer.retitled options title base in
  (ResponseTransformer.truthy (ResponseTransformer.addAnalysisPrefix options) = false ->
   result = inr (Streaming.untouched base)) /\
  (ResponseTransformer.truthy (ResponseTransformer.addAnalysisPrefix options) = true ->
   exists r first,
     result = inr r /\
     ResponseTransformer.content (ResponseTransformer.response r) = [first] /\
     JS.startsWith first title = true /\
     ResponseTransformer.metadata (ResponseTransformer.response r)
     = ResponseTransformer.metadata base /\
     (ResponseTransformer.content base = [first]
      \/ exists text,
           ResponseTransformer.content base = [text] /\
           JS.startsWith text title = false /\
           first = title +:+ ResponseTransformer.blankLine +:+ text)).
Proof.
  cbn zeta. unfold ResponseTransformer.retitled.
  destruct (transformVisionResponse_single defaults options response elapsed)
    as [text Htext].
  split; intros ->; [reflexivity|]. rewrite Htext.
  destruct (JS.startsWith text title) eqn:Hstarts; cbn [negb].
  - eexists _, text. split; [reflexivity|].
    cbn [ResponseTransformer.response]. rewrite Htext. by repeat split; try left.
  - eexists _, _. split; [reflexivity|].
    cbn [ResponseTransformer.response ResponseTransformer.content
         ResponseTransformer.metadata].
    split; [reflexivity|]. split; [apply startsWith_self|]. split; [reflexivity|].
    right. by exists text.
Qed.

(** X24.  The outcomes of [transformForTool].  For ['analyze'] and
    ['describe'] it never throws: without [addAnalysisPrefix] among the
    options of the call it returns the response of
    [transformVisionResponse] as it is, even when the default options
    set the prefix; with it, the text starts with the title of the tool,
    which is put before the text unless the text starts with it already.
    For ['extract-text'] it throws exactly when the response has no
    first choice or that choice has no message, where
    [transformVisionResponse] alone returns the apology; otherwise the
    response is that of [transformVisionResponse], with the text blocks
    added when there are any. *)
Theorem transformForTool_outcomes
    (defaults options : ResponseTransformer.TransformOptions)
    (response : ChatCompletionResponse) (elapsed : Z)
    (toolType : ResponseTransformer.ToolType) :
  let base := ResponseTransformer.transformVisionResponse defaults response options elapsed in
  let result :=
    ResponseTransformer.transformForTool defaults response toolType options elapsed in
  match toolType with
  | ResponseTransformer.extract_text =>
      match ResponseTransformer.extractTextBlocks response with
      | inl e =>
          result = inl e /\ Streaming.unreadable response /\
          ResponseTransformer.content base = [Streaming.apology]
      | inr blocks =>
          exists r, result = inr r /\ ResponseTransformer.response r = base /\
            ResponseTransformer.extracted_text_blocks r
            = (if blocks is [] then None else Some blocks)
      end
  | _ =>
      (ResponseTransformer.truthy (ResponseTransformer.addAnalysisPrefix options) = false ->
       result = inr (Streaming.untouched base)) /\
      (ResponseTransformer.truthy (ResponseTransformer.addAnalysisPrefix options) = true ->
       exists r first,
         result = inr r /\
         ResponseTransformer.content (ResponseTransformer.response r) = [first] /\
         JS.startsWith first (Streaming.titleOf toolType) = true /\
         ResponseTransformer.metadata (ResponseTransformer.response r)
         = ResponseTransformer.metadata base /\
         (ResponseTransformer.content base = [first]
          \/ exists text,
               ResponseTransformer.content base = [text] /\
               JS.startsWith text (Streaming.titleOf toolType) = false /\
               first = Streaming.titleOf toolType +:+ ResponseTransformer.blankLine +:+ text))
  end.
Proof.
  cbn zeta.
  pose proof (retitled_cases defaults options response elapsed) as Hretitle.
  destruct toolType; [apply Hretitle | apply Hretitle |].
  unfold ResponseTransformer.transformForTool.
  pose proof (extractTextBlocks_unreadable response) as Hblocks.
  destruct (ResponseTransformer.extractTextBlocks response) as [e|blocks].
  - destruct Hblocks as [Hun Hcontent]. split; [reflexivity|]. split; [exact Hun|].
    unfold ResponseTransformer.transformVisionResponse. by rewrite Hcontent.
  - destruct blocks; eexists; split; try reflexivity; done.
Qed.

(** * The tool handlers *)

Section ServerFacts.

Import MCPVisionServer.





End ServerFacts.


(** * Recommendations *)

Section SortFacts.

Import ModelManager.

Lemma indexFrom_range (x : string) (priority : list string) (i : Z) :
  indexFrom x priority i = -1
  \/ i <= indexFrom x priority i < i + Z.of_nat (length priority).
Proof.
  revert i. induction priority as [|y rest IH]; intros i; cbn [indexFrom length].
  - by left.
  - destruct (String.eqb y x); [right; lia|].
    destruct (IH (i + 1)) as [-> | H]; [by left | right; lia].
Qed.

Lemma byVisionPriority_rank (a b : string) :
  (byVisionPriority a b <= 0 <-> Registry.visionRank a <= Registry.visionRank b) /\
  (0 < byVisionPriority a b <-> Registry.visionRank b < Registry.visionRank a).
Proof.
  unfold byVisionPriority, Registry.visionRank.
  pose proof (indexFrom_range a visionPriority 0) as Ha.
  pose proof (indexFrom_range b visionPriority 0) as Hb.
  change (Z.of_nat (length visionPriority)) with 3 in *.
  destruct (Z.eqb_spec (indexFrom a visionPriority 0) (-1)),
           (Z.eqb_spec (indexFrom b visionPriority 0) (-1)); cbn [andb]; lia.
Qed.

Variable compare : string -> string -> Z.

Lemma insertSorted_permutation (x : string) (sorted : list string) :
  insertSorted compare x sorted ≡ₚ x :: sorted.
Proof.
  induction sorted as [|y rest IH]; cbn [insertSorted]; [done|].
  destruct (0 <? compare x y); [|done].
  rewrite IH. apply Permutation_swap.
Qed.

Lemma sort_permutation (models : list string) : sort compare models ≡ₚ models.
Proof.
  unfold sort. induction models as [|x models IH]; cbn [foldr]; [done|].
  by rewrite insertSorted_permutation, IH.
Qed.

Variable rank : string -> Z.
Hypothesis compare_rank : forall a b,
  (compare a b <= 0 <-> rank a <= rank b) /\ (0 < compare a b <-> rank b < rank a).

Lemma insertSorted_sorted (x : string) (sorted : list string) :
  StronglySorted (λ a b, rank a <= rank b) sorted ->
  StronglySorted (λ a b, rank a <= rank b) (insertSorted compare x sorted).
Proof.
  induction 1 as [|y rest Hrest IH Hy]; cbn [insertSorted].
  - repeat constructor.
  - destruct (Z.ltb_spec 0 (compare x y)) as [Hgt|Hle].
    + apply compare_rank in Hgt. constructor; [exact IH|].
      rewrite insertSorted_permutation. constructor; [lia | exact Hy].
    + assert (Hxy : rank x <= rank y) by (apply compare_rank; lia).
      constructor; [by constructor|].
      constructor; [exact Hxy|].
      eapply Forall_impl; [exact Hy|]. cbn. intros z Hz. lia.
Qed.

Lemma sort_sorted (models : list string) :
  StronglySorted (λ a b, rank a <= rank b) (sort compare models).
Proof.
  unfold sort. induction models as [|x models IH]; cbn [foldr]; [constructor|].
  by apply insertSorted_sorted.
Qed.

End SortFacts.

(** X26.  [getPreferredModels], and with it [getRecommendations] of the
    router, only ever lists available models.  For ['vision'] the list
    holds exactly the available models that support images, each as
    often as it is configured, the known vision models first, in the
    order [x-ai/grok-beta-vision], [google/gemini-2.0-flash-001],
    [openai/gpt-4o], and all others after them.  For ['high-quality']
    and ['fast'] the models listed carry the names asked for.  Any other
    use case, such as ['text'], or ['cost-effective'] which the router
    accepts, gets all available models. *)
Theorem getPreferredModels_recommendations (r : ModelRouter.t) (useCase : string) :
  let m := ModelRouter.modelManager r in
  let listed := ModelRouter.getRecommendations r useCase in
  (forall x, x ∈ listed -> x ∈ ModelManager.getAvailableModels m) /\
  (useCase = "vision" ->
   listed ≡ₚ filter (λ model, ModelManager.imageCapable m model = true)
                    (ModelManager.getAvailableModels m) /\
   StronglySorted (λ a b, Registry.visionRank a <= Registry.visionRank b) listed) /\
  (useCase = "high-quality" ->
   forall x, x ∈ listed ->
     JS.includes x "gpt-4o" = true \/ JS.includes x "claude-3-5-sonnet" = true) /\
  (useCase = "fast" ->
   forall x, x ∈ listed -> JS.includes x "mini" = true \/ JS.includes x "flash" = true) /\
  (useCase ∉ ["vision"; "high-quality"; "fast"] ->
   listed = ModelManager.getAvailableModels m).
Proof.
  cbn zeta. unfold ModelRouter.getRecommendations, ModelManager.getPreferredModels.
  split; [|split; [|split; [|split]]].
  - intros x.
    destruct (String.eqb useCase "vision");
      [|destruct (String.eqb useCase "high-quality");
        [|destruct (String.eqb useCase "fast")]].
    + rewrite sort_permutation. by intros [_ ?]%list_elem_of_filter.
    + by intros [_ ?]%list_elem_of_filter.
    + by intros [_ ?]%list_elem_of_filter.
    + done.
  - intros ->. cbn [String.eqb Ascii.eqb Bool.eqb].
    split; [apply sort_permutation|].
    apply sort_sorted, byVisionPriority_rank.
  - intros ->. cbn [String.eqb Ascii.eqb Bool.eqb].
    intros x [Hx _]%list_elem_of_filter. by apply orb_true_iff in Hx.
  - intros ->. cbn [String.eqb Ascii.eqb Bool.eqb].
    intros x [Hx _]%list_elem_of_filter. by apply orb_true_iff in Hx.
  - intros Hother.
    destruct (String.eqb_spec useCase "vision") as [->|_].
    { destruct Hother. apply list_elem_of_here. }
    destruct (String.eqb_spec useCase "high-quality") as [->|_].
    { destruct Hother. apply list_elem_of_further, list_elem_of_here. }
    destruct (String.eqb_spec useCase "fast") as [->|_]; [|reflexivity].
    destruct Hother. do 2 apply list_elem_of_further. apply list_elem_of_here.
Qed.

(** * The request tracker *)


(** * The layout of a normalised text *)

Section LayoutFacts.

Import ResponseTransformer Truncation.

Lemma allChars_app (p : ascii -> bool) (a b : string) :
  ImageProcessor.allChars p (a +:+ b)
  = ImageProcessor.allChars p a && ImageProcessor.allChars p b.
Proof.
  induction a as [|c a IH]; [reflexivity|].
  rewrite append_cons. cbn [ImageProcessor.allChars]. by rewrite IH, andb_assoc.
Qed.

Lemma allChars_repeat (p : ascii -> bool) (n : nat) (c : ascii) :
  p c = true -> ImageProcessor.allChars p (repeatChar n c) = true.
Proof. intros Hc. induction n as [|n IH]; [done|]. cbn. by rewrite Hc, IH. Qed.

Lemma replaceCR_clean (s : string) : noCarriageReturn (replaceCR s).
Proof.
  unfold noCarriageReturn. induction s as [|c s IH]; [done|].
  cbn [replaceCR ImageProcessor.allChars]. rewrite IH, andb_true_r.
  by destruct (Ascii.eqb c CR) eqn:Hc; [|rewrite Hc].
Qed.

Lemma collapseNewlines_chars (p : ascii -> bool) (run : nat) (s : string) :
  p LF = true -> ImageProcessor.allChars p s = true ->
  ImageProcessor.allChars p (collapseNewlines run s) = true.
Proof.
  intros HLF. revert run.
  induction s as [|c s IH]; intros run Hs; cbn [collapseNewlines].
  - destruct (3 <=? run)%nat; [cbn; by rewrite HLF | by apply allChars_repeat].
  - cbn [ImageProcessor.allChars] in Hs. apply andb_true_iff in Hs as [Hc Hs].
    destruct (Ascii.eqb c LF); [by apply IH|].
    rewrite allChars_app. cbn [ImageProcessor.allChars].
    rewrite Hc, (IH 0%nat Hs), andb_true_r.
    destruct (3 <=? run)%nat; [cbn; by rewrite HLF | by apply allChars_repeat].
Qed.

Lemma collapseBlanks_chars (p : ascii -> bool) (run : list ascii) (s : string) :
  p SP = true -> Forall (λ c, p c = true) run ->
  ImageProcessor.allChars p s = true ->
  ImageProcessor.allChars p (collapseBlanks run s) = true.
Proof.
  intros HSP. revert run.
  assert (Hflush : forall run, Forall (λ c, p c = true) run ->
            ImageProcessor.allChars p
              match run with
              | [] => EmptyString
              | [c] => String c EmptyString
              | _ => String SP EmptyString
              end = true).
  { intros [|c [|d run]] Hrun; cbn; [done | | by rewrite HSP].
    apply Forall_cons in Hrun as [-> _]. done. }
  induction s as [|c s IH]; intros run Hrun Hs; cbn [collapseBlanks].
  - by apply Hflush.
  - cbn [ImageProcessor.allChars] in Hs. apply andb_true_iff in Hs as [Hc Hs].
    destruct (Ascii.eqb c SP || Ascii.eqb c TAB).
    + apply IH; [by constructor | exact Hs].
    + rewrite allChars_app. cbn [ImageProcessor.allChars].
      rewrite Hc, (IH [] ltac:(constructor) Hs), andb_true_r. by apply Hflush.
Qed.

(** Runs of line feeds. *)
Lemma shortRuns_weaken (run run' : nat) (s : string) :
  (run' <= run)%nat -> shortRuns run s = true -> shortRuns run' s = true.
Proof.
  revert run run'. induction s as [|c s IH]; intros run run' Hle; [done|].
  cbn [shortRuns]. destruct (Ascii.eqb c LF); [|done].
  intros [Hrun Hs]%andb_true_iff. apply Nat.ltb_lt in Hrun.
  apply andb_true_iff. split; [apply Nat.ltb_lt; lia|].
  apply (IH (S run)); [lia | exact Hs].
Qed.

Lemma shortRuns_flush (run : nat) (c : ascii) (rest : string) :
  Ascii.eqb c LF = false ->
  shortRuns 0 rest = true ->
  shortRuns 0 ((if (3 <=? run)%nat then blankLine else repeatChar run LF)
               +:+ String c rest) = true.
Proof.
  intros Hc Hrest.
  destruct (Nat.leb_spec 3 run) as [_|Hsmall].
  - change (blankLine +:+ String c rest) with (String LF (String LF (String c rest))).
    cbn [shortRuns]. rewrite Ascii.eqb_refl, Hc. exact Hrest.
  - destruct run as [|[|[|run]]]; [| | |lia];
      cbn [repeatChar]; rewrite ?append_cons;
      change ("" +:+ String c rest) with (String c rest);
      cbn [shortRuns]; rewrite ?Ascii.eqb_refl, Hc; exact Hrest.
Qed.

Lemma collapseNewlines_short (run : nat) (s : string) :
  shortRuns 0 (collapseNewlines run s) = true.
Proof.
  revert run. induction s as [|c s IH]; intros run; cbn [collapseNewlines].
  - destruct (Nat.leb_spec 3 run) as [_|Hsmall]; [reflexivity|].
    by destruct run as [|[|[|run]]]; [| | |lia].
  - destruct (Ascii.eqb c LF) eqn:Hc; [apply IH|].
    by apply shortRuns_flush.
Qed.

Lemma collapseBlanks_short (run : list ascii) (s : string) (k : nat) :
  Forall (λ c, Ascii.eqb c LF = false) run ->
  shortRuns k (collapseBlanks run s)
  = shortRuns (match run with [] => k | _ => 0%nat end) s.
Proof.
  revert run k. induction s as [|c s IH]; intros run k Hrun; cbn [collapseBlanks].
  - destruct run as [|a [|b run]]; cbn [shortRuns]; [reflexivity| |reflexivity].
    apply Forall_cons in Hrun as [-> _]. reflexivity.
  - destruct (Ascii.eqb c SP || Ascii.eqb c TAB) eqn:Hblank.
    + assert (Hc : Ascii.eqb c LF = false).
      { apply orb_true_iff in Hblank as [H|H]; apply Ascii.eqb_eq in H; by subst. }
      rewrite (IH (c :: run) k) by (by constructor).
      cbn [shortRuns]. rewrite Hc. by destruct run.
    + destruct run as [|a [|b run]].
      * change ("" +:+ String c (collapseBlanks [] s))
          with (String c (collapseBlanks [] s)).
        cbn [shortRuns]. destruct (Ascii.eqb c LF).
        -- by rewrite (IH [] (S k)) by constructor.
        -- by rewrite (IH [] 0%nat) by constructor.
      * apply Forall_cons in Hrun as [Ha _].
        change (String a "" +:+ String c (collapseBlanks [] s))
          with (String a (String c (collapseBlanks [] s))).
        cbn [shortRuns]. rewrite Ha. destruct (Ascii.eqb c LF).
        -- by rewrite (IH [] 1%nat) by constructor.
        -- by rewrite (IH [] 0%nat) by constructor.
      * change (String SP "" +:+ String c (collapseBlanks [] s))
          with (String SP (String c (collapseBlanks [] s))).
        cbn [shortRuns]. change (Ascii.eqb SP LF) with false. cbn iota.
        destruct (Ascii.eqb c LF).
        -- by rewrite (IH [] 1%nat) by constructor.
        -- by rewrite (IH [] 0%nat) by constructor.
Qed.

Lemma shortRuns_trimStart (s : string) :
  shortRuns 0 s = true -> shortRuns 0 (JS.trimStart s) = true.
Proof.
  assert (Hgen : forall k, shortRuns k s = true -> shortRuns 0 (JS.trimStart s) = true).
  { induction s as [|c s IH]; intros k; [done|]. cbn [JS.trimStart].
    destruct (JS.isWhiteSpace c).
    - cbn [shortRuns]. destruct (Ascii.eqb c LF).
      + intros [_ Hs]%andb_true_iff. by apply (IH (S k)).
      + apply IH.
    - apply shortRuns_weaken. lia. }
  apply Hgen.
Qed.

Lemma shortRuns_trimEnd (s : string) (k : nat) :
  shortRuns k s = true -> shortRuns k (JS.trimEnd s) = true.
Proof.
  revert k. induction s as [|c s IH]; intros k; [done|].
  rewrite trimEnd_cons. cbn [shortRuns].
  destruct (Ascii.eqb c LF) eqn:Hc.
  - intros [Hk Hs]%andb_true_iff. specialize (IH (S k) Hs).
    destruct (JS.trimEnd s) as [|d t].
    + destruct (JS.isWhiteSpace c); [done|]. cbn [shortRuns]. by rewrite Hc, Hk.
    + cbn [shortRuns] in *. by rewrite Hc, Hk, IH.
  - intros Hs. specialize (IH 0%nat Hs).
    destruct (JS.trimEnd s) as [|d t].
    + destruct (JS.isWhiteSpace c); [done|]. cbn [shortRuns]. by rewrite Hc.
    + cbn [shortRuns] in *. by rewrite Hc, IH.
Qed.

(** Runs of blanks. *)
Lemma singleBlanks_weaken (s : string) :
  singleBlanks true s = true -> singleBlanks false s = true.
Proof.
  destruct s as [|c s]; [done|]. cbn [singleBlanks].
  destruct (Ascii.eqb c SP || Ascii.eqb c TAB); [discriminate | done].
Qed.

Lemma collapseBlanks_single (run : list ascii) (s : string) :
  singleBlanks false (collapseBlanks run s) = true.
Proof.
  revert run. induction s as [|c s IH]; intros run; cbn [collapseBlanks].
  - destruct run as [|a [|b run]]; cbn [singleBlanks]; [done | | done].
    by destruct (Ascii.eqb a SP || Ascii.eqb a TAB).
  - destruct (Ascii.eqb c SP || Ascii.eqb c TAB) eqn:Hblank; [apply IH|].
    destruct run as [|a [|b run]].
    + change ("" +:+ String c (collapseBlanks [] s)) with (String c (collapseBlanks [] s)).
      cbn [singleBlanks]. rewrite Hblank. apply IH.
    + change (String a "" +:+ String c (collapseBlanks [] s))
        with (String a (String c (collapseBlanks [] s))).
      cbn [singleBlanks]. rewrite Hblank.
      destruct (Ascii.eqb a SP || Ascii.eqb a TAB); cbn [negb andb]; apply IH.
    + change (String SP "" +:+ String c (collapseBlanks [] s))
        with (String SP (String c (collapseBlanks [] s))).
      cbn [singleBlanks]. rewrite Hblank.
      change (Ascii.eqb SP SP || Ascii.eqb SP TAB) with true. cbn [negb andb]. apply IH.
Qed.

Lemma singleBlanks_trimStart (s : string) :
  singleBlanks false s = true -> singleBlanks false (JS.trimStart s) = true.
Proof.
  assert (Hgen : forall b, singleBlanks b s = true ->
                           singleBlanks false (JS.trimStart s) = true).
  { induction s as [|c s IH]; intros b; [done|]. cbn [JS.trimStart].
    destruct (JS.isWhiteSpace c).
    - cbn [singleBlanks]. destruct (Ascii.eqb c SP || Ascii.eqb c TAB).
      + intros [_ Hs]%andb_true_iff. by apply (IH true).
      + apply IH.
    - destruct b; [apply singleBlanks_weaken | done]. }
  apply Hgen.
Qed.

Lemma singleBlanks_trimEnd (s : string) (b : bool) :
  singleBlanks b s = true -> singleBlanks b (JS.trimEnd s) = true.
Proof.
  revert b. induction s as [|c s IH]; intros b; [done|].
  rewrite trimEnd_cons. cbn [singleBlanks].
  destruct (Ascii.eqb c SP || Ascii.eqb c TAB) eqn:Hc.
  - intros [Hb Hs]%andb_true_iff. specialize (IH true Hs).
    destruct (JS.trimEnd s) as [|d t].
    + destruct (JS.isWhiteSpace c); [done|]. cbn [singleBlanks]. by rewrite Hc, Hb.
    + cbn [singleBlanks] in *. by rewrite Hc, Hb, IH.
  - intros Hs. specialize (IH false Hs).
    destruct (JS.trimEnd s) as [|d t].
    + destruct (JS.isWhiteSpace c); [done|]. cbn [singleBlanks]. by rewrite Hc.
    + cbn [singleBlanks] in *. by rewrite Hc, IH.
Qed.

End LayoutFacts.

(** X28.  The layout of a text that [formatResponseText] normalises.  Unless
    [preserveFormatting] is set, the text before truncation holds no
    carriage return, never three line feeds in a row and never two
    blanks in a row, and no white space at either end; this is the text
    returned when it is within [maxResponseLength], or when no limit is
    set. *)
Theorem normalizeResponseText_layout
    (content : string) (options : ResponseTransformer.TransformOptions) :
  ResponseTransformer.truthy (ResponseTransformer.preserveFormatting options) = false ->
  let text := ResponseTransformer.normalizeResponseText content options in
  Truncation.noCarriageReturn text /\
  Truncation.shortRuns 0 text = true /\
  Truncation.singleBlanks false text = true /\
  Messages.trimmed text /\
  (default 0 (ResponseTransformer.maxResponseLength options) = 0
   \/ JS.len text <= default 0 (ResponseTransformer.maxResponseLength options) ->
   ResponseTransformer.formatResponseText content options = text).
Proof.
  intros Hpreserve. cbn zeta.
  assert (Hlimit :
    default 0 (ResponseTransformer.maxResponseLength options) = 0
    \/ JS.len (ResponseTransformer.normalizeResponseText content options)
       <= default 0 (ResponseTransformer.maxResponseLength options) ->
    ResponseTransformer.formatResponseText content options
    = ResponseTransformer.normalizeResponseText content options).
  { unfold ResponseTransformer.formatResponseText.
    destruct (ResponseTransformer.maxResponseLength options) as [limit|];
      cbn [JS.truthyZ default from_option id]; [|done].
    destruct (Z.eqb_spec limit 0); [done|].
    intros [?|Hfit]; [done|].
    by destruct (Z.ltb_spec limit
                   (JS.len (ResponseTransformer.normalizeResponseText content options)));
      [lia|]. }
  split; [|split; [|split; [|split; [|exact Hlimit]]]]; clear Hlimit;
    unfold ResponseTransformer.normalizeResponseText; rewrite Hpreserve; cbn [negb];
    match goal with
    | |- context [ResponseTransformer.replaceCRLF ?f] => generalize f; intros formatted
    end.
  - unfold Truncation.noCarriageReturn, JS.trim.
    apply allChars_trimEnd, allChars_trimStart.
    apply collapseBlanks_chars; [reflexivity | constructor|].
    apply collapseNewlines_chars; [reflexivity|]. apply replaceCR_clean.
  - unfold JS.trim. apply shortRuns_trimEnd, shortRuns_trimStart.
    rewrite collapseBlanks_short by constructor. apply collapseNewlines_short.
  - unfold JS.trim. apply singleBlanks_trimEnd, singleBlanks_trimStart.
    apply collapseBlanks_single.
  - apply trim_trimmed.
Qed.

Lemma normalizeResponseText_layout_witness :
  Truncation.shortRuns 0
    (ResponseTransformer.normalizeResponseText Truncation.untidy Streaming.noOptions) = true.
Proof.
  apply (normalizeResponseText_layout Truncation.untidy Streaming.noOptions).
  reflexivity.
Defined.

(** * Reconfiguring the router *)

(** X29.  A change of configuration takes effect.  [updateConfiguration]
    replaces the fields given and keeps the others, and hands the result
    to the model manager, which merges it into its own configuration:
    manager and router then name the same primary and the same
    fallbacks, while an optional field that the router's configuration
    lacks keeps the value the manager had.  The metrics and the
    capability table are left alone.  From then on, as for a router
    just constructed, every model that [selectModel] returns is the
    primary or one of the fallbacks of the router's configuration, the
    last resorts included. *)
Theorem updateConfiguration_takes_effect
    (r : ModelRouter.t) (newConfig : PartialModelConfig)
    (config : ModelConfig) (manager : ModelManager.t) :
  let r' := ModelRouter.updateConfiguration r newConfig in
  let managed (router : ModelRouter.t) :=
    ModelManager.config (ModelRouter.modelManager router) in
  let routed (router : ModelRouter.t) :=
    forall request timestamp,
      let selection := fst (ModelRouter.selectModel router request timestamp) in
      let after := snd (ModelRouter.selectModel router request timestamp) in
      (model selection = primary (ModelRouter.config router)
       \/ model selection ∈ fallback (ModelRouter.config router)) /\
      ModelRouter.config after = ModelRouter.config router /\
      Registry.sameModels after in
  ModelRouter.config r' = merged (ModelRouter.config r) newConfig /\
  managed r' = merged (managed r) (fieldsOf (ModelRouter.config r')) /\
  Registry.sameModels r' /\
  defaultMaxTokens (managed r')
  = (if defaultMaxTokens (ModelRouter.config r') is Some tokens then Some tokens
     else defaultMaxTokens (managed r)) /\
  defaultTemperature (managed r')
  = (if defaultTemperature (ModelRouter.config r') is Some temperature
     then Some temperature
     else defaultTemperature (managed r)) /\
  ModelManager.capabilities (ModelRouter.modelManager r')
  = ModelManager.capabilities (ModelRouter.modelManager r) /\
  ModelRouter.metrics r' = ModelRouter.metrics r /\
  (primary' newConfig = None -> fallback' newConfig = None ->
   ModelManager.getAvailableModels (ModelRouter.modelManager r')
   = filter (λ model, model ≠ "")
            (primary (ModelRouter.config r) :: fallback (ModelRouter.config r))) /\
  routed r' /\
  managed (ModelRouter.new config manager)
  = merged (ModelManager.config manager) (fieldsOf config) /\
  routed (ModelRouter.new config manager).
Proof.
  cbn zeta.
  split; [reflexivity|]. split; [reflexivity|]. split; [by split|].
  split; [reflexivity|]. split; [reflexivity|].
  split; [reflexivity|]. split; [reflexivity|].
  split.
  { intros Hp Hf. unfold ModelManager.getAvailableModels, ModelRouter.updateConfiguration,
      merged. cbn. by rewrite Hp, Hf. }
  split; [intros request timestamp; by apply selectModel_routed|].
  split; [reflexivity|].
  intros request timestamp. by apply selectModel_routed.
Qed.
